(** * FolderForge: the tree-listing encoder and the two materializers

    A shallow embedding of [src/folderforge.py] and [src/start.py].

    - Python [str] is a list of Unicode code points ([list N]); the
      box-drawing glyphs of the listing format are single code points, which
      is what [len], [count], [split] and the regular expression of
      [start.py] see.
    - The source directory is an inductive tree of entries; [iterdir] yields
      the children in the order the tree stores them (an arbitrary order).
    - The destination file system is a finite map from absolute paths
      (lists of components) to nodes; [mkdir(parents=True, exist_ok=True)]
      and [open(target, "a")] are functions on it that can fail.
    - [str.lower] and [fnmatch.fnmatch] are library primitives; the encoder
      is parameterised by them. *)

From stdpp Require Import gmap list sorting strings.
From Stdlib Require Import ZArith Lia Ascii.

#[global] Set Warnings "-register-all".

Abbreviation str := (list N).
Abbreviation path := (list (list N)).

(** ** Python string primitives *)

Module Py.

(** UTF-8 decoding, used only to write the literals of the source. *)
Fixpoint utf8 (bs : list N) : list N :=
  match bs with
  | [] => []
  | b :: r =>
      if (b <? 0x80)%N then b :: utf8 r
      else if (b <? 0xE0)%N then
        match r with
        | b1 :: r1 => ((b - 0xC0) * 64 + (b1 - 0x80))%N :: utf8 r1
        | _ => []
        end
      else if (b <? 0xF0)%N then
        match r with
        | b1 :: b2 :: r2 =>
            ((b - 0xE0) * 4096 + (b1 - 0x80) * 64 + (b2 - 0x80))%N :: utf8 r2
        | _ => []
        end
      else
        match r with
        | b1 :: b2 :: b3 :: r3 =>
            ((b - 0xF0) * 262144 + (b1 - 0x80) * 4096 + (b2 - 0x80) * 64
             + (b3 - 0x80))%N :: utf8 r3
        | _ => []
        end
  end.

Definition lit (s : string) : list N :=
  utf8 (N_of_ascii <$> String.list_ascii_of_string s).

(** [str.isspace] on one code point: the characters [strip], [rstrip] and
    [lstrip] remove when called without argument. *)
Definition isspace (c : N) : bool :=
  ((9 <=? c) && (c <=? 13) || (28 <=? c) && (c <=? 32)
   || (c =? 0x85) || (c =? 0xA0) || (c =? 0x1680)
   || (0x2000 <=? c) && (c <=? 0x200A)
   || (c =? 0x2028) || (c =? 0x2029) || (c =? 0x202F) || (c =? 0x205F)
   || (c =? 0x3000))%N.

(** The line boundaries of [str.splitlines]. *)
Definition islinebreak (c : N) : bool :=
  ((10 <=? c) && (c <=? 13) || (28 <=? c) && (c <=? 30)
   || (c =? 0x85) || (c =? 0x2028) || (c =? 0x2029))%N.

Fixpoint lstrip_by (f : N → bool) (s : list N) : list N :=
  match s with
  | c :: r => if f c then lstrip_by f r else s
  | [] => []
  end.

Definition rstrip_by (f : N → bool) (s : list N) : list N :=
  rev (lstrip_by f (rev s)).

Definition strip_by (f : N → bool) (s : list N) : list N :=
  rstrip_by f (lstrip_by f s).

(** [s.strip()], [s.rstrip()] and [s.rstrip(chars)]. *)
Definition strip (s : list N) : list N := strip_by isspace s.
Definition rstrip (s : list N) : list N := rstrip_by isspace s.
Definition rstrip_chars (chars s : list N) : list N :=
  rstrip_by (λ c, bool_decide (c ∈ chars)) s.

Fixpoint startswith (s p : list N) {struct p} : bool :=
  match p, s with
  | [], _ => true
  | a :: p', b :: s' => (a =? b)%N && startswith s' p'
  | _ :: _, [] => false
  end.

Definition endswith (s p : list N) : bool := startswith (rev s) (rev p).

(** [c in s] for a one-character [c]. *)
Definition contains (c : N) (s : list N) : bool := bool_decide (c ∈ s).

(** [s.split(c, 1)] for a one-character separator that occurs in [s]:
    the text before the first occurrence and the text after it. *)
Fixpoint split_once (c : N) (s : list N) : list N * list N :=
  match s with
  | [] => ([], [])
  | a :: r =>
      if (a =? c)%N then ([], r)
      else let '(u, v) := split_once c r in (a :: u, v)
  end.

(** [s.split(c)] for a one-character separator. *)
Fixpoint split (c : N) (s : list N) : list (list N) :=
  match s with
  | [] => [[]]
  | a :: r =>
      if (a =? c)%N then [] :: split c r
      else match split c r with
           | w :: ws => (a :: w) :: ws
           | [] => [[a]]
           end
  end.

(** [s.count(sub)] for a non-empty [sub]: occurrences that do not overlap,
    counted from the left.  [skip] is the number of characters still covered
    by the occurrence found last. *)
Fixpoint count_from (sub s : list N) (skip : nat) : nat :=
  match s with
  | [] => 0
  | _ :: r =>
      match skip with
      | S k => count_from sub r k
      | O =>
          if startswith s sub then S (count_from sub r (length sub - 1))
          else count_from sub r 0
      end
  end.

Definition count (sub s : list N) : nat := count_from sub s 0.

(** [s.replace(old, new)] for a non-empty [old]. *)
Fixpoint replace_from (old new s : list N) (skip : nat) : list N :=
  match s with
  | [] => []
  | c :: r =>
      match skip with
      | S k => replace_from old new r k
      | O =>
          if startswith s old then new ++ replace_from old new r (length old - 1)
          else c :: replace_from old new r 0
      end
  end.

Definition replace (old new s : list N) : list N := replace_from old new s 0.

(** [sep.join(lines)]. *)
Fixpoint join (sep : list N) (lines : list (list N)) : list N :=
  match lines with
  | [] => []
  | [l] => l
  | l :: ls => l ++ sep ++ join sep ls
  end.

(** [s.splitlines()]: [cur] is the line read so far.  A carriage return
    followed by a line feed is one boundary; no empty line is produced after
    the last boundary. *)
Fixpoint splitlines_from (cur s : list N) : list (list N) :=
  match s with
  | [] => match cur with [] => [] | _ => [cur] end
  | c :: r =>
      if islinebreak c then
        match r with
        | d :: r' =>
            if ((c =? 13) && (d =? 10))%N then cur :: splitlines_from [] r'
            else cur :: splitlines_from [] r
        | [] => [cur]
        end
      else splitlines_from (cur ++ [c]) r
  end.

Definition splitlines (s : list N) : list (list N) := splitlines_from [] s.

(** Lexicographic comparison of two strings by code point, as [<=] on
    [str]. *)
Fixpoint str_le (a b : list N) : bool :=
  match a, b with
  | [], _ => true
  | _ :: _, [] => false
  | x :: a', y :: b' =>
      if (x <? y)%N then true else if (y <? x)%N then false else str_le a' b'
  end.

(** [str.lower] on the ASCII letters; every other code point is kept.  The
    encoder takes the lower-casing function as a parameter, and this is the
    instance used on ASCII names. *)
Definition ascii_lower (s : list N) : list N :=
  (λ c, if ((65 <=? c) && (c <=? 90))%N then (c + 32)%N else c) <$> s.

(** [fnmatch.fnmatch] on patterns without wildcard characters: equality. *)
Definition fnmatch_literal (name pat : list N) : bool :=
  bool_decide (name = pat).

End Py.

(** ** The scanned directory and the encoder ([write_tree]) *)

(** What the file system holds below the scan root.  Anything that is not a
    directory is a file for the encoder ([is_dir] is the only test made). *)
Inductive entry :=
| File (nm : str)
| Dir (nm : str) (cs : list entry).

Definition entry_name (e : entry) : str :=
  match e with File n => n | Dir n _ => n end.

Definition entry_is_dir (e : entry) : bool :=
  match e with File _ => false | Dir _ _ => true end.

Definition entry_children (e : entry) : list entry :=
  match e with File _ => [] | Dir _ cs => cs end.

Fixpoint height (e : entry) : nat :=
  match e with
  | File _ => 0
  | Dir _ cs => S (foldr (λ c h, height c `max` h) 0 cs)
  end.

(** A [Path] object of the encoder: the components below the scan root, and
    the entry found there. *)
Record Path := MkPath { rel : list str; node : entry }.

Definition name (p : Path) : str := entry_name (node p).
Definition is_dir (p : Path) : bool := entry_is_dir (node p).

Definition iterdir (p : Path) : list Path :=
  (λ c, MkPath (rel p ++ [entry_name c]) c) <$> entry_children (node p).

(** [p.relative_to(root).as_posix()] for a path below the root. *)
Definition as_posix (parts : list str) : str := Py.join (Py.lit "/") parts.

Definition CONN_LAST : str := Eval vm_compute in Py.lit "└─ ".
Definition CONN_MID : str := Eval vm_compute in Py.lit "├─ ".
Definition EXT_CONT : str := Eval vm_compute in Py.lit "│  ".
Definition EXT_BLANK : str := Eval vm_compute in Py.lit "   ".
Definition SLASH : str := Eval vm_compute in Py.lit "/".
Definition NEWLINE : str := [10%N].

(** The two files of the repository. *)
Inductive impl := FolderForge | Start.

(** Stable sort by key, as [sorted(iterable, key=...)]. *)
Section sorted.
Context {A K : Type} (key : A → K) (le : K → K → bool).

Fixpoint insert_sorted (x : A) (l : list A) : list A :=
  match l with
  | [] => [x]
  | y :: r => if le (key x) (key y) then x :: l else y :: insert_sorted x r
  end.

Definition sorted (l : list A) : list A := foldr insert_sorted [] l.
End sorted.

(** [<=] on the tuples [(bool, str)] used as sort keys. *)
Definition key_le (a b : bool * str) : bool :=
  match a.1, b.1 with
  | false, true => true
  | true, false => false
  | _, _ => Py.str_le a.2 b.2
  end.

Section Encoder.
(** [str.lower] and [fnmatch.fnmatch]. *)
Variable lower : str → str.
Variable fnmatch : str → str → bool.

Definition should_ignore_dir (dir_path : Path) (patterns : list str) : bool :=
  match patterns with
  | [] => false
  | _ =>
      let rel := as_posix (rel dir_path) in
      let name := name dir_path in
      existsb (λ p, fnmatch name p || fnmatch rel (Py.rstrip_chars SLASH p))
              patterns
  end.

Definition sort_key (e : Path) : bool * str := (negb (is_dir e), lower (name e)).

(** The local [entries] of [_tree]. *)
Definition entries (ignore_patterns : list str) (dir_path : Path) : list Path :=
  sorted sort_key key_le
    (List.filter (λ e, negb (is_dir e && should_ignore_dir e ignore_patterns))
       (iterdir dir_path)).

(** The literals of [extension] in [start.py] hold a no-break space
    (U+00A0): a space, a no-break space and a space after a last entry; the
    vertical bar, a space and a no-break space otherwise. *)
Definition EXT_CONT_NBSP : str := [0x2502; 32; 0xA0]%N.
Definition EXT_BLANK_NBSP : str := [32; 0xA0; 32]%N.

(** [extension], where the two files differ. *)
Definition extension (v : impl) (i len : Z) : str :=
  match v with
  | FolderForge => if (i <? len - 1)%Z then EXT_CONT else EXT_BLANK
  | Start => if (i =? len - 1)%Z then EXT_BLANK_NBSP else EXT_CONT_NBSP
  end.

Definition depth_exceeded (max_depth : option Z) (current_depth : Z) : bool :=
  match max_depth with
  | Some m => (m <? current_depth)%Z
  | None => false
  end.

(** [_tree]; [fuel] bounds the nesting of the recursion, and [write_tree]
    starts it with the height of the scanned tree. *)
Fixpoint _tree (v : impl) (ignore_patterns : list str) (max_depth : option Z)
    (fuel : nat) (dir_path : Path) (prefix : str) (current_depth : Z)
    : list str :=
  match fuel with
  | O => []
  | S fuel' =>
      if depth_exceeded max_depth current_depth then []
      else
        let entries := entries ignore_patterns dir_path in
        let len := Z.of_nat (length entries) in
        mjoin (imap (λ (i : nat) (entry : Path),
          if is_dir entry && should_ignore_dir entry ignore_patterns then []
          else
            let connector :=
              if (Z.of_nat i =? len - 1)%Z then CONN_LAST else CONN_MID in
            let line :=
              prefix ++ connector ++ name entry
                ++ (if is_dir entry then SLASH else []) in
            line ::
              (if is_dir entry then
                 _tree v ignore_patterns max_depth fuel' entry
                   (prefix ++ extension v (Z.of_nat i) len) (current_depth + 1)
               else [])) entries)
  end.

(** The list [lines] of [write_tree] when it is written out. *)
Definition tree_lines (v : impl) (root : entry) (ignore_patterns : list str)
    (max_depth : option Z) : list str :=
  let lines :=
    match max_depth with
    | Some m => if (0 <=? m)%Z then [entry_name root ++ SLASH] else []
    | None => [entry_name root ++ SLASH]
    end in
  let sub :=
    match max_depth with
    | Some m =>
        if (0 <? m)%Z then
          _tree v ignore_patterns max_depth (height root) (MkPath [] root) [] 0
        else []
    | None =>
        _tree v ignore_patterns max_depth (height root) (MkPath [] root) [] 0
    end in
  lines ++ sub.

(** [write_tree]: the text written to [output_file]. *)
Definition write_tree (v : impl) (root : entry) (ignore_patterns : list str)
    (max_depth : option Z) : str :=
  Py.join NEWLINE (tree_lines v root ignore_patterns max_depth).

End Encoder.

(** ** The destination file system *)

Inductive fsnode :=
| DirNode
| FileNode (content : str).

#[global] Instance fsnode_eq_dec : EqDecision fsnode.
Proof. solve_decision. Defined.

Abbreviation FS := (gmap (list (list N)) fsnode).

Definition DOTDOT : str := Eval vm_compute in Py.lit "..".
Definition DOT : str := Eval vm_compute in Py.lit ".".

(** [pathlib]: the components a string contributes to a path.  Empty
    components and ["."] are dropped when the path is parsed. *)
Definition parts_of (name : str) : list str :=
  List.filter (λ c, negb (bool_decide (c = []) || bool_decide (c = DOT)))
    (Py.split 47 name).

(** [parent / name].  Paths are absolute; a [name] that starts with a
    separator replaces the left operand. *)
Definition joinpath (parent : path) (name : str) : path :=
  if Py.startswith name SLASH then parts_of name else parent ++ parts_of name.

(** [p.parent]. *)
Definition parent_of (p : path) : path := removelast p.

(** Path resolution by the operating system: [".."] moves to the parent
    directory (there are no symbolic links in the model). *)
Definition enter (cur : path) (c : str) : path :=
  if bool_decide (c = DOTDOT) then removelast cur else cur ++ [c].

(** One [os.mkdir] that tolerates an existing directory.  The root
    directory [[]] always exists. *)
Definition ensure_dir (p : path) (fs : FS) : option FS :=
  match p with
  | [] => Some fs
  | _ =>
      match fs !! p with
      | Some DirNode => Some fs
      | Some (FileNode _) => None
      | None => Some (<[p := DirNode]> fs)
      end
  end.

(** [p.mkdir(parents=True, exist_ok=True)]: every directory on the way is
    created when it is missing; meeting a file raises ([None]). *)
Fixpoint mkdir_from (cur : path) (parts : list str) (fs : FS) : option FS :=
  match parts with
  | [] => Some fs
  | c :: rest =>
      fs' ← ensure_dir (enter cur c) fs;
      mkdir_from (enter cur c) rest fs'
  end.

Definition mkdir (p : path) (fs : FS) : option FS := mkdir_from [] p fs.

(** The directory a path of existing directories resolves to. *)
Fixpoint resolve_from (cur : path) (parts : list str) (fs : FS) : option path :=
  match parts with
  | [] => Some cur
  | c :: rest =>
      match enter cur c with
      | [] => resolve_from [] rest fs
      | cur' =>
          match fs !! cur' with
          | Some DirNode => resolve_from cur' rest fs
          | _ => None
          end
      end
  end.

(** [with open(p, "a"): pass]: creates an empty file when nothing is there,
    leaves an existing file as it is, and raises on a directory or when the
    directory of [p] does not exist. *)
Definition open_append (p : path) (fs : FS) : option FS :=
  match last p with
  | None => None
  | Some c =>
      d ← resolve_from [] (removelast p) fs;
      if bool_decide (c = DOTDOT) then None
      else
        match fs !! (d ++ [c]) with
        | Some DirNode => None
        | Some (FileNode _) => Some fs
        | None => Some (<[d ++ [c] := FileNode []]> fs)
        end
  end.

(** The state of the loop of [create_structure_from_file]. *)
Record state := MkState {
  base_dir : path;
  dirs_stack : list path;
  disk : FS
}.

(** [for i, raw_line in enumerate(lines)], leaving at the first exception. *)
Fixpoint for_lines (body : nat → str → state → option state)
    (i : nat) (lines : list str) (s : state) : option state :=
  match lines with
  | [] => Some s
  | raw :: rest => s' ← body i raw s; for_lines body (S i) rest s'
  end.

Definition BOX_H : N := 0x2500.
Definition BOX_V : N := 0x2502.

(** The file-system calls of the loop, as data: [target.mkdir(parents=True,
    exist_ok=True)], and [target.parent.mkdir(parents=True, exist_ok=True)]
    followed by [open(target, "a")]. *)
Inductive action :=
| MkDir (p : path)
| Touch (p : path).

Definition perform (a : action) (fs : FS) : option FS :=
  match a with
  | MkDir p => mkdir p fs
  | Touch p => fs' ← mkdir (parent_of p) fs; open_append p fs'
  end.

Fixpoint exec (acts : list action) (fs : FS) : option FS :=
  match acts with
  | [] => Some fs
  | a :: rest => fs' ← perform a fs; exec rest fs'
  end.

(** What both loops do with a line of depth [depth] once it is read, with
    the file system left out: the new base directory and stack, and the calls
    made. *)
Definition place (depth : nat) (name : str) (is_dir : bool)
    (base_dir : path) (dirs_stack : list path) : path * list path * list action :=
  if length dirs_stack <? depth then (base_dir, dirs_stack, [])
  else
    let dirs_stack := take depth dirs_stack in
    let parent :=
      if depth =? 0 then base_dir else default base_dir (last dirs_stack) in
    let target := joinpath parent name in
    if is_dir then (base_dir, dirs_stack ++ [target], [MkDir target])
    else (base_dir, dirs_stack, [Touch target]).

(** A whole loop, for a loop body given without file system: the base
    directory and the stack at the end, and the calls made. *)
Fixpoint walk_from (step : nat → str → path → list path → path * list path * list action)
    (i : nat) (lines : list str) (base_dir : path) (dirs_stack : list path)
    : path * list path * list action :=
  match lines with
  | [] => (base_dir, dirs_stack, [])
  | raw :: rest =>
      let '(b, st, acts) := step i raw base_dir dirs_stack in
      let '(b', st', acts') := walk_from step (S i) rest b st in
      (b', st', acts ++ acts')
  end.

(** *** [folderforge.py] *)
Module folderforge.

(** Line 100: the depth computed from the text before the first box-drawing
    dash. *)
Definition prefix_depth (prefix : str) : nat :=
  Py.count [BOX_V] prefix + Py.count [32; 32]%N prefix / 2.

(** Lines 85-102: [(is_dir, depth, name)] of a line that is not blank. *)
Definition read_line (raw_line : str) : option (bool * nat * str) :=
  let line := Py.rstrip raw_line in
  match line with
  | [] => None
  | _ =>
      let is_dir := Py.endswith line SLASH in
      let line := Py.rstrip_chars SLASH line in
      if Py.contains BOX_H line then
        let '(prefix, rest) := Py.split_once BOX_H line in
        let name := Py.strip rest in
        let depth := prefix_depth prefix in
        Some (is_dir, depth, name)
      else Some (is_dir, 0, line)
  end.

Definition body (dest_root : path) (strip_root : bool)
    (i : nat) (raw_line : str) (s : state) : option state :=
  match read_line raw_line with
  | None => Some s
  | Some (is_dir, depth, name) =>
      if (i =? 0) && negb strip_root && is_dir then
        let base_dir := joinpath dest_root name in
        fs ← mkdir base_dir (disk s);
        Some (MkState base_dir (dirs_stack s ++ [base_dir]) fs)
      else if length (dirs_stack s) <? depth then Some s
      else
        let dirs_stack :=
          if depth <? length (dirs_stack s) then take depth (dirs_stack s)
          else dirs_stack s in
        parent ←
          (if (depth =? 0) || bool_decide (dirs_stack = []) then Some (base_dir s)
           else last dirs_stack);
        let target := joinpath parent name in
        if is_dir then
          fs ← mkdir target (disk s);
          Some (MkState (base_dir s) (take depth dirs_stack ++ [target]) fs)
        else
          fs ← mkdir (parent_of target) (disk s);
          fs ← open_append target fs;
          Some (MkState (base_dir s) dirs_stack fs)
  end.

(** [text] is the content of the file: [read_text] turns the line ends of the
    file into line feeds, which changes nothing for [splitlines]. *)
Definition create_structure_from_file (text : str) (dest_root : path)
    (strip_root : bool) (fs : FS) : option FS :=
  let lines := Py.splitlines text in
  disk <$> for_lines (body dest_root strip_root) 0 lines (MkState dest_root [] fs).

(** The loop body without the file system. *)
Definition step (dest_root : path) (strip_root : bool) (i : nat) (raw_line : str)
    (base_dir : path) (dirs_stack : list path) : path * list path * list action :=
  match read_line raw_line with
  | None => (base_dir, dirs_stack, [])
  | Some (is_dir, depth, name) =>
      if (i =? 0) && negb strip_root && is_dir then
        let b := joinpath dest_root name in (b, dirs_stack ++ [b], [MkDir b])
      else place depth name is_dir base_dir dirs_stack
  end.

(** The file-system calls [create_structure_from_file] makes, in order. *)
Definition plan (text : str) (dest_root : path) (strip_root : bool) : list action :=
  (walk_from (step dest_root strip_root) 0 (Py.splitlines text) dest_root []).2.

End folderforge.

(** *** [start.py] *)
Module start.

(** The groups of a match of [LINE_RE]. *)
Record groups := MkGroups {
  g_prefix : str;
  g_conn : option str;
  g_name : str;
  g_slash : str
}.

(** [(?P<name>[^/]+?)(?P<slash>/?)$] after the first character of the name:
    the lazy name group grows only when the rest is neither empty nor a final
    separator. *)
Fixpoint name_slash_end (name s : str) : option (str * str) :=
  match s with
  | [] => Some (name, [])
  | c :: r =>
      if (c =? 47)%N then match r with [] => Some (name, SLASH) | _ => None end
      else name_slash_end (name ++ [c]) r
  end.

Definition match_name (s : str) : option (str * str) :=
  match s with
  | [] => None
  | c :: r => if (c =? 47)%N then None else name_slash_end [c] r
  end.

Definition CONNS : list str :=
  Eval vm_compute in [Py.lit "├── "; Py.lit "└── "; Py.lit "├─ "; Py.lit "└─ "].

(** [(?P<conn>├── |└── |├─ |└─ )?] and what follows it: the alternatives in
    their order, then the empty match. *)
Fixpoint match_conn (alts : list str) (s : str) : option (option str * str * str) :=
  match alts with
  | [] => (λ '(n, sl), (None, n, sl)) <$> match_name s
  | c :: alts' =>
      if Py.startswith s c then
        match match_name (drop (length c) s) with
        | Some (n, sl) => Some (Some c, n, sl)
        | None => match_conn alts' s
        end
      else match_conn alts' s
  end.

Definition is_unit (a b c : N) : bool :=
  bool_decide ([a; b; c] = EXT_CONT) || bool_decide ([a; b; c] = EXT_BLANK).

(** [LINE_RE.match]: the greedy star of [(?:│  |   )*] takes one more unit
    when the rest of the pattern then matches, and gives it back otherwise. *)
Fixpoint LINE_RE_match (s : str) : option groups :=
  let stop :=
    (λ '(conn, n, sl), MkGroups [] conn n sl) <$> match_conn CONNS s in
  match s with
  | a :: b :: c :: rest =>
      if is_unit a b c then
        match LINE_RE_match rest with
        | Some g => Some (MkGroups (a :: b :: c :: g_prefix g) (g_conn g) (g_name g) (g_slash g))
        | None => stop
        end
      else stop
  | _ => stop
  end.

Definition is_word (c : N) : bool :=
  ((97 <=? c) && (c <=? 122) || (65 <=? c) && (c <=? 90)
   || (48 <=? c) && (c <=? 57) || (c =? 95) || (c =? 45))%N.

(** [re.match(r'^[a-zA-Z0-9_-]+/?$', s)] on a string without line feed. *)
Definition ROOT_RE_match (s : str) : bool :=
  let body := if Py.endswith s SLASH then removelast s else s in
  negb (bool_decide (body = [])) && forallb is_word body.

(** [parse_line]: [(is_root_line, depth, name, is_dir)]. *)
Definition parse_line (line : str) : option (bool * nat * str * bool) :=
  match Py.strip line with
  | [] => None
  | _ =>
      match LINE_RE_match (Py.rstrip_chars NEWLINE line) with
      | None =>
          if negb (ROOT_RE_match (Py.strip line)) then None
          else Some (true, 0, Py.rstrip_chars SLASH (Py.strip line),
                     Py.endswith (Py.strip line) SLASH)
      | Some m =>
          let prefix := g_prefix m in
          let conn := g_conn m in
          let name := Py.strip (g_name m) in
          let is_dir := negb (bool_decide (g_slash m = [])) in
          let is_root_line :=
            bool_decide (conn = None) && bool_decide (prefix = []) in
          let normalized_prefix := Py.replace EXT_CONT EXT_BLANK prefix in
          let depth := if is_root_line then 0 else length normalized_prefix / 3 in
          let name :=
            if is_dir && Py.endswith name SLASH then removelast name else name in
          Some (is_root_line, depth, name, is_dir)
      end
  end.

Definition first_line_is_root (lines : list str) : bool :=
  match lines with
  | [] => false
  | l :: _ =>
      match parse_line l with
      | Some (is_root_line, _, _, _) => is_root_line
      | None => false
      end
  end.

Definition body (dest_root : path) (strip_root : bool) (first_line_is_root : bool)
    (i : nat) (raw : str) (s : state) : option state :=
  match parse_line raw with
  | None => Some s
  | Some (is_root_line, depth, name, is_dir) =>
      if is_root_line && first_line_is_root then
        if negb strip_root then
          let base_dir := joinpath dest_root name in
          fs ← mkdir base_dir (disk s);
          Some (MkState base_dir (dirs_stack s ++ [base_dir]) fs)
        else Some s
      else if length (dirs_stack s) <? depth then Some s
      else
        let dirs_stack :=
          if depth <? length (dirs_stack s) then take depth (dirs_stack s)
          else dirs_stack s in
        parent ← (if depth =? 0 then Some (base_dir s) else last dirs_stack);
        let target := joinpath parent name in
        if is_dir then
          fs ← mkdir target (disk s);
          Some (MkState (base_dir s) (take depth dirs_stack ++ [target]) fs)
        else
          fs ← mkdir (parent_of target) (disk s);
          fs ← open_append target fs;
          Some (MkState (base_dir s) dirs_stack fs)
  end.

Definition create_structure_from_file (text : str) (dest_root : path)
    (strip_root : bool) (fs : FS) : option FS :=
  let lines := Py.splitlines text in
  disk <$> for_lines (body dest_root strip_root (first_line_is_root lines)) 0
             lines (MkState dest_root [] fs).

(** The loop body without the file system. *)
Definition step (dest_root : path) (strip_root : bool) (first_line_is_root : bool)
    (i : nat) (raw : str) (base_dir : path) (dirs_stack : list path)
    : path * list path * list action :=
  match parse_line raw with
  | None => (base_dir, dirs_stack, [])
  | Some (is_root_line, depth, name, is_dir) =>
      if is_root_line && first_line_is_root then
        if negb strip_root then
          let b := joinpath dest_root name in (b, dirs_stack ++ [b], [MkDir b])
        else (base_dir, dirs_stack, [])
      else place depth name is_dir base_dir dirs_stack
  end.

(** The file-system calls [create_structure_from_file] makes, in order. *)
Definition plan (text : str) (dest_root : path) (strip_root : bool) : list action :=
  let lines := Py.splitlines text in
  (walk_from (step dest_root strip_root (first_line_is_root lines)) 0 lines
     dest_root []).2.

End start.

(** The materializer of either file. *)
Definition create_structure_from_file (v : impl) (text : str) (dest_root : path)
    (strip_root : bool) (fs : FS) : option FS :=
  match v with
  | FolderForge => folderforge.create_structure_from_file text dest_root strip_root fs
  | Start => start.create_structure_from_file text dest_root strip_root fs
  end.

Definition plan (v : impl) (text : str) (dest_root : path) (strip_root : bool)
    : list action :=
  match v with
  | FolderForge => folderforge.plan text dest_root strip_root
  | Start => start.plan text dest_root strip_root
  end.


(** ** The ignore file and the command line *)

Definition HASH : str := Eval vm_compute in Py.lit "#".

(** [load_ignore_patterns]: [ignore] is the list of the [--ignore] options,
    [ignore_file] the text of the ignore file when the option is given (the
    file is read as a whole; its line ends make no difference to
    [splitlines]). *)
Definition load_ignore_patterns (ignore : list str) (ignore_file : option str)
    : list str :=
  let patterns := ignore in
  match ignore_file with
  | None => patterns
  | Some text =>
      foldl (λ patterns line,
               let line := Py.strip line in
               if bool_decide (line = []) || Py.startswith line HASH then patterns
               else patterns ++ [line])
        patterns (Py.splitlines text)
  end.

(** [output_file.write_text(text)]: creates the file or replaces its
    content; raises on a directory and when the directory of [p] does not
    exist. *)
Definition write_text (p : path) (text : str) (fs : FS) : option FS :=
  match last p with
  | None => None
  | Some c =>
      d ← resolve_from [] (removelast p) fs;
      if bool_decide (c = DOTDOT) then None
      else
        match fs !! (d ++ [c]) with
        | Some DirNode => None
        | _ => Some (<[d ++ [c] := FileNode text]> fs)
        end
  end.

(** The namespace [parse_args] returns.  [root] is the directory found at
    the resolved [args.root] ([None] when it is not a directory), [file] the
    text of the file at the resolved [args.file] ([None] when it is not a
    file); [output] and [dir] are the resolved paths. *)
Module cli.
Record args := MkArgs {
  command : str;
  root : option entry;
  output : path;
  ignore : list str;
  ignore_file : option str;
  depth : option Z;
  file : option str;
  dir : path;
  strip_root : bool
}.
Definition EXPORT : str := Eval vm_compute in Py.lit "export".
Definition CREATE : str := Eval vm_compute in Py.lit "create".
End cli.

Section main.
Variable lower : str → str.
Variable fnmatch : str → str → bool.

(** The branch of [main] for the command ["export"], the same in both files
    but for the [write_tree] it calls. *)
Definition main_export (v : impl) (args : cli.args) (fs : FS) : option FS :=
  match cli.root args with
  | None => Some fs
  | Some root_dir =>
      let patterns := load_ignore_patterns (cli.ignore args) (cli.ignore_file args) in
      write_text (cli.output args)
        (write_tree lower fnmatch v root_dir patterns (cli.depth args)) fs
  end.

(** The branch of [main] for the command ["create"] in [folderforge.py]. *)
Definition main_create (args : cli.args) (fs : FS) : option FS :=
  match cli.file args with
  | None => Some fs
  | Some text =>
      fs ← mkdir (cli.dir args) fs;
      folderforge.create_structure_from_file text (cli.dir args)
        (cli.strip_root args) fs
  end.

(** [main] of either file.  In [start.py] the second branch tests the
    command ["export"] again. *)
Definition main (v : impl) (args : cli.args) (fs : FS) : option FS :=
  match v with
  | FolderForge =>
      if bool_decide (cli.command args = cli.EXPORT) then
        main_export FolderForge args fs
      else if bool_decide (cli.command args = cli.CREATE) then main_create args fs
      else Some fs
  | Start =>
      if bool_decide (cli.command args = cli.EXPORT) then main_export Start args fs
      else if bool_decide (cli.command args = cli.EXPORT) then
        main_export Start args fs
      else Some fs
  end.

End main.

(** ** Vocabulary of the statements *)

(** A string that neither starts nor ends with white space: [strip] keeps
    it. *)
Definition no_edge_space (s : str) : bool :=
  match s with [] => true | c :: _ => negb (Py.isspace c) end
  && match last s with Some c => negb (Py.isspace c) | None => true end.

(** The two three-character marker columns of a prefix, and the two
    connectors the encoder writes. *)
Definition is_marker (u : str) : bool :=
  bool_decide (u = EXT_CONT) || bool_decide (u = EXT_BLANK).

(** The indentation units the encoder of a file writes. *)
Definition is_column (v : impl) (u : str) : bool :=
  match v with
  | FolderForge => is_marker u
  | Start => bool_decide (u = EXT_CONT_NBSP) || bool_decide (u = EXT_BLANK_NBSP)
  end.

Definition is_connector (c : str) : bool :=
  bool_decide (c = CONN_MID) || bool_decide (c = CONN_LAST).

(** A line of the listing below the root line: the marker columns of its
    prefix, the connector, the name, and the separator that marks a
    directory. *)
Definition entry_line (units : list str) (conn name : str) (dir : bool) : str :=
  concat units ++ conn ++ name ++ (if dir then SLASH else []).

(** A root name the line grammar of [start.py] reads as a root line: it does
    not begin like a marker column or a connector. *)
Definition plain_root (n : str) : bool :=
  match n with
  | c :: _ => negb (bool_decide (c ∈ [32; BOX_V; 0x251C; 0x2514]%N))
  | [] => false
  end.

(** [_tree] with every line labelled by the entry it is written for. *)
Fixpoint _tree_ann (lower : str → str) (fnmatch : str → str → bool)
    (v : impl) (ignore_patterns : list str) (max_depth : option Z)
    (fuel : nat) (dir_path : Path) (prefix : str) (current_depth : Z)
    : list (Path * str) :=
  match fuel with
  | O => []
  | S fuel' =>
      if depth_exceeded max_depth current_depth then []
      else
        let entries := entries lower fnmatch ignore_patterns dir_path in
        let len := Z.of_nat (length entries) in
        mjoin (imap (λ (i : nat) (entry : Path),
          if is_dir entry && should_ignore_dir fnmatch entry ignore_patterns then []
          else
            let connector :=
              if (Z.of_nat i =? len - 1)%Z then CONN_LAST else CONN_MID in
            let line :=
              prefix ++ connector ++ name entry
                ++ (if is_dir entry then SLASH else []) in
            (entry, line) ::
              (if is_dir entry then
                 _tree_ann lower fnmatch v ignore_patterns max_depth fuel' entry
                   (prefix ++ extension v (Z.of_nat i) len) (current_depth + 1)
               else [])) entries)
  end.

(** [child d e]: [e] is what [d.iterdir()] yields. *)
Definition child (d e : Path) : Prop := e ∈ iterdir d.

(** The labelled listing below the root line of [tree_lines]. *)
Definition tree_lines_ann (lower : str → str) (fnmatch : str → str → bool)
    (v : impl) (root : entry) (ignore_patterns : list str) (max_depth : option Z)
    : list (Path * str) :=
  match max_depth with
  | Some m =>
      if (0 <? m)%Z then
        _tree_ann lower fnmatch v ignore_patterns max_depth (height root)
          (MkPath [] root) [] 0
      else []
  | None =>
      _tree_ann lower fnmatch v ignore_patterns max_depth (height root)
        (MkPath [] root) [] 0
  end.

(** The number of marker columns a line starts with. *)
Fixpoint marker_columns (s : str) : nat :=
  match s with
  | a :: b :: c :: rest =>
      if start.is_unit a b c then S (marker_columns rest) else 0
  | _ => 0
  end.

(** [visible pats d x]: [x] is reached from [d] through [entries] only, that
    is, through entries the ignore filter keeps. *)
Inductive visible (lower : str → str) (fnmatch : str → str → bool)
    (pats : list str) : Path → Path → Prop :=
| visible_entry d x :
    x ∈ entries lower fnmatch pats d → visible lower fnmatch pats d x
| visible_below d e x :
    e ∈ entries lower fnmatch pats d → is_dir e = true →
    visible lower fnmatch pats e x → visible lower fnmatch pats d x.

(** The grammar of a line below the root line, as the specification gives
    it: marker columns, one connector, a name without separator, and an
    optional final separator. *)
Fixpoint entry_grammar (s : str) : bool :=
  match s with
  | a :: b :: c :: rest =>
      if start.is_unit a b c then entry_grammar rest
      else is_connector [a; b; c]
           && bool_decide (is_Some (start.match_name rest))
  | _ => false
  end.

(** A line the loop of the given file reads nothing from: a blank line for
    [folderforge.py], a line [parse_line] returns [None] on for [start.py]. *)
Definition unreadable (v : impl) (line : str) : Prop :=
  match v with
  | FolderForge => folderforge.read_line line = None
  | Start => start.parse_line line = None
  end.

(** A name the listing format carries unchanged: not empty, without
    separator and line boundary, without white space at either end, and
    neither ["."] nor [".."]. *)
Definition plain_name (n : str) : bool :=
  negb (bool_decide (n = []))
  && forallb (λ c, negb (c =? 47)%N && negb (Py.islinebreak c)) n
  && no_edge_space n
  && negb (bool_decide (n = DOT)) && negb (bool_decide (n = DOTDOT)).

(** A line of the listing given by its parts. *)
Definition item : Type := list str * str * str * bool.

Definition item_line (it : item) : str :=
  let '(us, conn, n, dir) := it in entry_line us conn n dir.

(** The parts are marker columns, a connector and a plain name, and the
    depth [folderforge.py] computes from the prefix is the number of marker
    columns. *)
Definition item_ok (it : item) : bool :=
  let '(us, conn, n, dir) := it in
  forallb is_marker us && is_connector conn && plain_name n
  && (folderforge.prefix_depth (concat us ++ take 1 conn) =? length us).

(** A root name both files read as the root line [name/]. *)
Definition root_ok (n : str) : bool :=
  plain_name n && plain_root n && negb (Py.contains BOX_H n).

(** The kind ([true] for a directory) of what a tree holds at a relative
    path. *)
Fixpoint kind_at (cs : list entry) (r : list str) : option bool :=
  match r with
  | [] => None
  | n :: r' =>
      match List.find (λ c, bool_decide (entry_name c = n)) cs with
      | None => None
      | Some c =>
          match r' with
          | [] => Some (entry_is_dir c)
          | _ => kind_at (entry_children c) r'
          end
      end
  end.

(** What the materializer creates for an entry of a kind: a directory, or an
    empty file. *)
Definition node_of (dir : bool) : fsnode :=
  if dir then DirNode else FileNode [].

(** A tree a directory can hold and the listing format can carry: the names
    are plain, and the names in one directory are distinct. *)
Fixpoint tree_ok (e : entry) : bool :=
  plain_name (entry_name e)
  && match e with
     | File _ => true
     | Dir _ cs => bool_decide (NoDup (entry_name <$> cs)) && forallb tree_ok cs
     end.

(** Every directory on the way to [p], and [p] itself, is a directory of
    [fs]. *)
Definition dir_chain (fs : FS) (p : path) : Prop :=
  ∀ k, 0 < k ≤ length p → fs !! take k p = Some DirNode.

(** The call the materializer makes for an entry of the listing. *)
Definition act (base : path) (x : Path) : action :=
  if is_dir x then MkDir (base ++ rel x) else Touch (base ++ rel x).

(** The parent directory the loops use for a line of depth [k]. *)
Definition parent_at (base : path) (k : nat) (st : list path) : path :=
  if k =? 0 then base else default base (last (take k st)).

(** The kind at a relative path that starts at an entry: the entry itself
    for the empty path. *)
Definition kind_below (c : entry) (r : list str) : option bool :=
  match r with
  | [] => Some (entry_is_dir c)
  | _ => kind_at (entry_children c) r
  end.

(** ** Vocabulary of the further properties *)

(** The strings [[^/]+/?] spells: a non-empty name without separator, and
    an optional final separator. *)
Definition named (s n sl : str) : Prop :=
  s = n ++ sl ∧ n ≠ [] ∧ (47%N ∉ n) ∧ (sl = [] ∨ sl = SLASH).

(** The path an action is made on. *)
Definition target (a : action) : path :=
  match a with MkDir p => p | Touch p => p end.

(** A path below [dest] that no [".."] leads out of. *)
Definition below (dest p : path) : Prop :=
  ∃ r, p = dest ++ r ∧ Forall (λ c, c ≠ DOTDOT) r.

(** A name [joinpath] appends to its left operand, without [".."]. *)
Definition relative_name (n : str) : Prop :=
  Py.startswith n SLASH = false ∧ Forall (λ c, c ≠ DOTDOT) (parts_of n).

(** The names in every directory of a tree are distinct, as a file system
    has them. *)
Fixpoint names_distinct (e : entry) : bool :=
  match e with
  | File _ => true
  | Dir _ cs => bool_decide (NoDup (entry_name <$> cs)) && forallb names_distinct cs
  end.

(** A string with every no-break space replaced by a space. *)
Definition plain_spaces (s : str) : str :=
  (λ c, if (c =? 0xA0)%N then 32%N else c) <$> s.

(** Two labelled lines for the same entry that differ in the no-break
    spaces of the indentation only. *)
Definition same_but_spaces (a b : Path * str) : Prop :=
  a.1 = b.1
  ∧ ∃ us conn,
      Forall (λ u, is_column Start u = true) us ∧ is_connector conn = true
      ∧ a.2 = entry_line us conn (name a.1) (is_dir a.1)
      ∧ b.2 = entry_line (plain_spaces <$> us) conn (name a.1) (is_dir a.1).

(** Every name of a tree, the name of its root included, passes a test. *)
Fixpoint all_names (P : str → bool) (e : entry) : bool :=
  P (entry_name e)
  && match e with
     | File _ => true
     | Dir _ cs => forallb (all_names P) cs
     end.

(** A string without line boundary. *)
Definition no_break (n : str) : bool := forallb (λ c, negb (Py.islinebreak c)) n.

(** The names the loop of a file reads from the lines of a text lead
    nowhere but below the directory they are joined to: none is [".."], and
    for [folderforge.py], whose names can hold separators, none starts with a
    separator or has a component [".."]. *)
Definition names_stay_below (v : impl) (text : str) : bool :=
  forallb (λ l,
    match v with
    | FolderForge =>
        match folderforge.read_line l with
        | Some (_, _, n) =>
            negb (Py.startswith n SLASH)
            && forallb (λ c, negb (bool_decide (c = DOTDOT))) (parts_of n)
        | None => true
        end
    | Start =>
        match start.parse_line l with
        | Some (_, _, n, _) => negb (bool_decide (n = DOTDOT))
        | None => true
        end
    end) (Py.splitlines text).

(** [ordered d L]: every entry of [L] is a child of [d] or of a directory
    that comes before it in [L]. *)
Definition ordered (d : Path) (L : list Path) : Prop :=
  ∀ L1 x L2, L = L1 ++ x :: L2 →
    ∃ p, child p x ∧ (p = d ∨ (p ∈ L1 ∧ is_dir p = true)).



(** ** Concrete inputs *)

(** The tree of the scenario: [src/main.ext] and [README.md] below [proj]. *)
Definition proj : entry :=
  Dir (Py.lit "proj")
    [File (Py.lit "README.md"); Dir (Py.lit "src") [File (Py.lit "main.ext")]].

(** The scenario of the specification. *)
Definition scenario : str :=
  Py.join NEWLINE
    [Py.lit "proj/"; Py.lit "├─ src/"; Py.lit "│  └─ main.ext"; Py.lit "└─ README.md"].

Definition out : path := [Py.lit "out"].
Definition out_fs : FS := {[ out := DirNode ]}.


(** A destination that already holds a file with content. *)
Definition readme_fs : FS :=
  <[ out ++ [Py.lit "proj"; Py.lit "README.md"] := FileNode (Py.lit "notes") ]>
    (<[ out ++ [Py.lit "proj"] := DirNode ]> out_fs).


(** The root of the ordering example: directories [B] and [a], file [z.txt]. *)
Definition ordering_root : entry :=
  Dir (Py.lit "root") [Dir (Py.lit "B") []; Dir (Py.lit "a") []; File (Py.lit "z.txt")].

(** A root with a directory [build] and a file whose name starts the same. *)
Definition build_root : entry :=
  Dir (Py.lit "proj") [Dir (Py.lit "build") [File (Py.lit "out.o")]; File (Py.lit "build")].

(** What the scenario asks for below [out]. *)
Definition scenario_fs : FS :=
  <[ out ++ [Py.lit "README.md"] := FileNode [] ]>
    (<[ out ++ [Py.lit "src"; Py.lit "main.ext"] := FileNode [] ]>
       (<[ out ++ [Py.lit "src"] := DirNode ]> out_fs)).

(** The scenario with the continuation glyph of its third line replaced by
    an ASCII bar, and the scenario without that line. *)
Definition corrupted_line : str := Py.lit "|  └─ main.ext".

Definition corrupted : str :=
  Py.join NEWLINE
    [Py.lit "proj/"; Py.lit "├─ src/"; corrupted_line; Py.lit "└─ README.md"].

Definition without_corrupted : str :=
  Py.join NEWLINE [Py.lit "proj/"; Py.lit "├─ src/"; Py.lit "└─ README.md"].

(** An artifact whose first line has no final separator. *)
Definition bare_root : str := Py.join NEWLINE [Py.lit "proj"; Py.lit "├─ a"].

(** The lines of the scenario below the root line, by their parts. *)
Definition scenario_items : list item :=
  [([], CONN_MID, Py.lit "src", true);
   ([EXT_CONT], CONN_LAST, Py.lit "main.ext", false);
   ([], CONN_LAST, Py.lit "README.md", false)].

(** A root with a file whose name starts with a space. *)
Definition spaced_root : entry := Dir (Py.lit "proj") [File (Py.lit " x")].

(** A root whose only directory holds a file. *)
Definition nested_root : entry :=
  Dir (Py.lit "proj") [Dir (Py.lit "a") [File (Py.lit "f")]].

(** Closes a decidable closed goal by evaluation. *)
Ltac by_compute := refine (bool_decide_unpack _ _); vm_compute; exact I.

(** The arguments of [create scenario.txt -d out], the file holding the
    scenario. *)
Definition create_args : cli.args :=
  cli.MkArgs cli.CREATE None [] [] None None (Some scenario) out false.

(** The scenario below [out/proj]. *)
Definition created_fs : FS :=
  <[ out ++ [Py.lit "proj"; Py.lit "README.md"] := FileNode [] ]>
    (<[ out ++ [Py.lit "proj"; Py.lit "src"; Py.lit "main.ext"] := FileNode [] ]>
       (<[ out ++ [Py.lit "proj"; Py.lit "src"] := DirNode ]>
          (<[ out ++ [Py.lit "proj"] := DirNode ]> out_fs))).

(** A root line followed by a connector and a space. *)
Definition blank_name_text : str :=
  Py.join NEWLINE [Py.lit "proj/"; Py.lit "├─  "].

(** ** Sanity checks of the model *)

Example lit_glyphs :
  Py.lit "│  └─ a/" = [0x2502; 32; 32; 0x2514; 0x2500; 32; 97; 47]%N.
Proof. reflexivity. Qed.

Example splitlines_ex :
  Py.splitlines (Py.lit "a" ++ [10%N] ++ Py.lit "b") = [Py.lit "a"; Py.lit "b"]
  ∧ Py.splitlines [97; 13; 10; 10; 98; 10]%N = [[97]; []; [98]]%N
  ∧ Py.count (Py.lit "  ") (Py.lit "│     x  ") = 3
  ∧ Py.split_once 0x2500 (Py.lit "│  └─ a─b") = (Py.lit "│  └", Py.lit " a─b")
  ∧ Py.rstrip_chars (Py.lit "/") (Py.lit "ab//") = Py.lit "ab"
  ∧ Py.strip (Py.lit "  a b ") = Py.lit "a b"
  ∧ Py.split 47 (Py.lit "a//b/") = [Py.lit "a"; []; Py.lit "b"; []].
Proof. vm_compute. repeat split. Qed.

Example write_tree_proj :
  write_tree Py.ascii_lower Py.fnmatch_literal FolderForge proj [] None = scenario
  ∧ write_tree Py.ascii_lower Py.fnmatch_literal Start proj [] None
    = Py.join NEWLINE
        [Py.lit "proj/"; Py.lit "├─ src/";
         EXT_CONT_NBSP ++ Py.lit "└─ main.ext"; Py.lit "└─ README.md"].
Proof. split; by vm_compute. Qed.

(** ** Facts about the string primitives *)

Lemma lstrip_by_elem f c s :
  c ∈ s → f c = false → c ∈ Py.lstrip_by f s.
Proof.
  induction s as [|a s IH]; intros Hin Hf; first by inversion Hin.
  simpl. destruct (f a) eqn:Ha; last done.
  apply elem_of_cons in Hin as [->|Hin]; first congruence. by apply IH.
Qed.

Lemma lstrip_by_head f c s : f c = false → Py.lstrip_by f (c :: s) = c :: s.
Proof. intros Hf. simpl. by rewrite Hf. Qed.

Lemma rstrip_by_last f c s : f c = false → Py.rstrip_by f (s ++ [c]) = s ++ [c].
Proof.
  intros Hf. unfold Py.rstrip_by. rewrite rev_app_distr. simpl.
  rewrite Hf. simpl. by rewrite rev_involutive.
Qed.

Lemma rstrip_by_elem f c s :
  c ∈ s → f c = false → c ∈ Py.rstrip_by f s.
Proof.
  intros Hin Hf. unfold Py.rstrip_by.
  rewrite list_elem_of_In, <- in_rev, <- list_elem_of_In.
  apply lstrip_by_elem; last done.
  by rewrite list_elem_of_In, <- in_rev, <- list_elem_of_In.
Qed.

Lemma strip_elem c s : c ∈ s → Py.isspace c = false → c ∈ Py.strip s.
Proof.
  intros. unfold Py.strip, Py.strip_by.
  by apply rstrip_by_elem; first apply lstrip_by_elem.
Qed.

Lemma strip_nonempty c s : c ∈ s → Py.isspace c = false → Py.strip s ≠ [].
Proof.
  intros Hin Hc Hs. pose proof (strip_elem c s Hin Hc) as H.
  rewrite Hs in H. by inversion H.
Qed.

(** A string that neither starts nor ends with white space. *)
Lemma strip_edges s :
  no_edge_space s = true → Py.strip s = s.
Proof.
  unfold no_edge_space. intros H. apply andb_prop in H as [Hh Hl].
  destruct s as [|c s]; first done.
  unfold Py.strip, Py.strip_by. rewrite lstrip_by_head; last by apply negb_true_iff.
  destruct (exists_last (l := c :: s)) as (s' & d & E); first done.
  rewrite E in Hl |- *. rewrite last_snoc in Hl.
  apply rstrip_by_last. by apply negb_true_iff.
Qed.

Lemma startswith_app s p : Py.startswith (p ++ s) p = true.
Proof.
  induction p as [|a p IH]; first done.
  simpl. rewrite N.eqb_refl. exact IH.
Qed.

Lemma endswith_app s p : Py.endswith (s ++ p) p = true.
Proof. unfold Py.endswith. rewrite rev_app_distr. apply startswith_app. Qed.

Lemma endswith_last_ne s c d :
  c ≠ d → Py.endswith (s ++ [c]) [d] = false.
Proof.
  intros Hne. unfold Py.endswith. rewrite rev_app_distr. simpl.
  apply andb_false_iff. left. apply N.eqb_neq. congruence.
Qed.

Lemma join_cons sep l ls :
  ls ≠ [] → Py.join sep (l :: ls) = l ++ sep ++ Py.join sep ls.
Proof. by destruct ls. Qed.

(** [splitlines] undoes [join] on lines that hold no line boundary and are
    not empty. *)
Lemma splitlines_from_line cur l s :
  Forall (λ c, Py.islinebreak c = false) l →
  Py.splitlines_from cur (l ++ s) = Py.splitlines_from (cur ++ l) s.
Proof.
  revert cur. induction l as [|c l IH]; intros cur Hl.
  - by rewrite app_nil_r.
  - inversion_clear Hl as [|?? Hc Hl']. simpl. rewrite Hc.
    rewrite IH; last done. by rewrite <- app_assoc.
Qed.

Lemma splitlines_from_newline cur d r :
  Py.splitlines_from cur (NEWLINE ++ d :: r) = cur :: Py.splitlines_from [] (d :: r).
Proof. reflexivity. Qed.

Lemma splitlines_join lines :
  Forall (λ l, l ≠ [] ∧ Forall (λ c, Py.islinebreak c = false) l) lines →
  Py.splitlines (Py.join NEWLINE lines) = lines.
Proof.
  unfold Py.splitlines. induction lines as [|l ls IH]; intros H; first done.
  inversion_clear H as [|?? [Hne Hl] Hls].
  destruct ls as [|l' ls].
  - simpl. rewrite <- (app_nil_r l) at 1. rewrite splitlines_from_line; last done.
    simpl. by destruct l.
  - rewrite join_cons; last done.
    rewrite splitlines_from_line; last done. simpl app at 1.
    assert (∃ d r, Py.join NEWLINE (l' :: ls) = d :: r) as (d & r & E).
    { inversion_clear Hls as [|?? [Hne' Hl'] _].
      destruct l' as [|d l']; first done.
      exists d. destruct ls; simpl; by eexists. }
    specialize (IH Hls). rewrite E in IH |- *.
    by rewrite splitlines_from_newline, IH.
Qed.

Lemma lstrip_by_subseteq f x s : x ∈ Py.lstrip_by f s → x ∈ s.
Proof.
  induction s as [|a s IH]; simpl; first done.
  destruct (f a); last done. intros H. apply elem_of_cons. right. by apply IH.
Qed.

Lemma rstrip_by_subseteq f x s : x ∈ Py.rstrip_by f s → x ∈ s.
Proof.
  unfold Py.rstrip_by. rewrite list_elem_of_In, <- in_rev, <- list_elem_of_In.
  intros H%lstrip_by_subseteq. by rewrite list_elem_of_In, in_rev, <- list_elem_of_In.
Qed.

Lemma strip_subseteq x s : x ∈ Py.strip s → x ∈ s.
Proof.
  unfold Py.strip, Py.strip_by. intros H%rstrip_by_subseteq.
  by apply lstrip_by_subseteq in H.
Qed.

Lemma endswith_elem s c : Py.endswith s [c] = true → c ∈ s.
Proof.
  unfold Py.endswith. simpl. destruct (rev s) as [|b r] eqn:E; first done.
  rewrite andb_true_r. intros ->%N.eqb_eq.
  rewrite list_elem_of_In, in_rev, E. by left.
Qed.

Lemma rstrip_by_drop f c s : f c = true → Py.rstrip_by f (s ++ [c]) = Py.rstrip_by f s.
Proof.
  intros Hf. unfold Py.rstrip_by. rewrite rev_app_distr. simpl. by rewrite Hf.
Qed.

Lemma rstrip_chars_last chars c s :
  c ∉ chars → Py.rstrip_chars chars (s ++ [c]) = s ++ [c].
Proof.
  intros H. apply rstrip_by_last. by apply bool_decide_eq_false.
Qed.


(** ** The line grammar of [start.py] on lines written by the encoder *)

Lemma name_slash_end_spec s acc (dir : bool) :
  47%N ∉ s →
  start.name_slash_end acc (s ++ (if dir then SLASH else []))
  = Some (acc ++ s, if dir then SLASH else []).
Proof.
  revert acc. induction s as [|c s IH]; intros acc Hs.
  - rewrite app_nil_r. by destruct dir.
  - apply not_elem_of_cons in Hs as [Hc Hs]. simpl.
    replace (c =? 47)%N with false by (symmetry; apply N.eqb_neq; congruence).
    rewrite IH; last done. by rewrite <- app_assoc.
Qed.

Lemma match_name_spec n (dir : bool) :
  n ≠ [] → 47%N ∉ n →
  start.match_name (n ++ (if dir then SLASH else []))
  = Some (n, if dir then SLASH else []).
Proof.
  intros Hne Hs. destruct n as [|c n]; first done.
  apply not_elem_of_cons in Hs as [Hc Hs]. simpl.
  replace (c =? 47)%N with false by (symmetry; apply N.eqb_neq; congruence).
  by rewrite name_slash_end_spec.
Qed.

Lemma match_conn_spec conn n (dir : bool) :
  is_connector conn = true → n ≠ [] → 47%N ∉ n →
  start.match_conn start.CONNS (conn ++ n ++ (if dir then SLASH else []))
  = Some (Some conn, n, if dir then SLASH else []).
Proof.
  intros Hc Hne Hs. unfold is_connector in Hc.
  pose proof (match_name_spec n dir Hne Hs) as E.
  remember (n ++ (if dir then SLASH else [])) as rest.
  apply orb_prop in Hc as [Hc|Hc]; apply bool_decide_eq_true in Hc; subst conn;
    cbn; change (drop 0 rest) with rest; by rewrite E.
Qed.

Lemma LINE_RE_unit a b c rest :
  start.is_unit a b c = true →
  start.LINE_RE_match (a :: b :: c :: rest)
  = match start.LINE_RE_match rest with
    | Some g => Some (start.MkGroups (a :: b :: c :: start.g_prefix g)
                        (start.g_conn g) (start.g_name g) (start.g_slash g))
    | None => (λ '(conn, n, sl), start.MkGroups [] conn n sl)
                <$> start.match_conn start.CONNS (a :: b :: c :: rest)
    end.
Proof. intros H. simpl. by rewrite H. Qed.

Lemma LINE_RE_entry units conn n (dir : bool) :
  Forall (λ u, is_marker u = true) units →
  is_connector conn = true → n ≠ [] → 47%N ∉ n →
  start.LINE_RE_match (entry_line units conn n dir)
  = Some (start.MkGroups (concat units) (Some conn) n (if dir then SLASH else [])).
Proof.
  intros Hu Hc Hne Hs. unfold entry_line.
  induction Hu as [|u units Hm Hu IH].
  - pose proof (match_conn_spec conn n dir Hc Hne Hs) as E.
    simpl concat. simpl app at 1.
    unfold is_connector in Hc.
    apply orb_prop in Hc as [Hc|Hc]; apply bool_decide_eq_true in Hc; subst conn.
    + change (CONN_MID ++ ?r) with (9500%N :: 9472%N :: 32%N :: r) in *.
      simpl. simpl in E. by rewrite E.
    + change (CONN_LAST ++ ?r) with (9492%N :: 9472%N :: 32%N :: r) in *.
      simpl. simpl in E. by rewrite E.
  - simpl concat. rewrite <- app_assoc.
    unfold is_marker in Hm.
    apply orb_prop in Hm as [Hm|Hm]; apply bool_decide_eq_true in Hm; subst u.
    + change (EXT_CONT ++ ?r) with (9474%N :: 32%N :: 32%N :: r).
      rewrite LINE_RE_unit; last done. by rewrite IH.
    + change (EXT_BLANK ++ ?r) with (32%N :: 32%N :: 32%N :: r).
      rewrite LINE_RE_unit; last done. by rewrite IH.
Qed.

Lemma replace_marker u rest :
  is_marker u = true →
  Py.replace_from EXT_CONT EXT_BLANK (u ++ rest) 0
  = EXT_BLANK ++ Py.replace_from EXT_CONT EXT_BLANK rest 0.
Proof.
  unfold is_marker. intros [H|H]%orb_prop; apply bool_decide_eq_true in H; by subst u.
Qed.

Lemma replace_units_length units :
  Forall (λ u, is_marker u = true) units →
  length (Py.replace EXT_CONT EXT_BLANK (concat units)) = length units * 3.
Proof.
  unfold Py.replace. induction 1 as [|u units Hu _ IH]; first done.
  simpl concat. rewrite replace_marker; last done.
  rewrite length_app, IH. simpl. lia.
Qed.

(** The last character of a line of the listing. *)
Lemma entry_line_snoc units conn n (dir : bool) :
  n ≠ [] →
  ∃ s c, entry_line units conn n dir = s ++ [c]
         ∧ (if dir then c = 47%N else last n = Some c).
Proof.
  intros Hne. unfold entry_line. destruct dir.
  - exists (concat units ++ conn ++ n), 47%N. by rewrite <- !app_assoc.
  - destruct (exists_last (l := n)) as (n' & c & ->); first done.
    exists (concat units ++ conn ++ n'), c.
    rewrite app_nil_r, <- !app_assoc. split; first done. apply last_snoc.
Qed.

Lemma connector_glyph conn :
  is_connector conn = true →
  ∃ g, conn = [g; BOX_H; 32%N] ∧ Py.isspace g = false ∧ g ≠ BOX_H ∧ g ≠ BOX_V.
Proof.
  unfold is_connector. intros [H|H]%orb_prop; apply bool_decide_eq_true in H;
    subst conn; eexists; by repeat split.
Qed.

(** On a line of the listing format, [parse_line] returns the number of
    marker columns as depth, whatever the columns are. *)
Lemma parse_line_entry units conn n (dir : bool) :
  Forall (λ u, is_marker u = true) units →
  is_connector conn = true →
  n ≠ [] → 47%N ∉ n → 10%N ∉ n →
  start.parse_line (entry_line units conn n dir)
  = Some (false, length units, Py.strip n, dir).
Proof.
  intros Hu Hc Hne Hs Hnl. unfold start.parse_line.
  destruct (Py.strip (entry_line units conn n dir)) eqn:E.
  { exfalso. destruct (connector_glyph conn Hc) as (g & -> & Hg & _).
    eapply (strip_nonempty g); [|done|exact E].
    unfold entry_line. rewrite !elem_of_app. right. left. by left. }
  clear E.
  destruct (entry_line_snoc units conn n dir Hne) as (s & c & Es & Hlast).
  assert (Py.rstrip_chars NEWLINE (entry_line units conn n dir)
          = entry_line units conn n dir) as ->.
  { rewrite Es. apply rstrip_chars_last. intros Hin%list_elem_of_singleton.
    subst c. destruct dir; first done.
    apply Hnl. apply last_Some in Hlast as [l' ->]. set_solver. }
  rewrite LINE_RE_entry by done.
  cbn [start.g_prefix start.g_conn start.g_name start.g_slash].
  rewrite replace_units_length by done. rewrite Nat.div_mul by done.
  rewrite (bool_decide_eq_false_2 (Some conn = None)) by done.
  cbn [andb].
  assert (Py.endswith (Py.strip n) SLASH = false) as ->.
  { apply not_true_is_false. intros H%endswith_elem%strip_subseteq. done. }
  rewrite andb_false_r. by destruct dir.
Qed.

Lemma LINE_RE_no_unit a s :
  a ≠ 32%N → a ≠ BOX_V →
  start.LINE_RE_match (a :: s)
  = (λ '(conn, n, sl), start.MkGroups [] conn n sl)
      <$> start.match_conn start.CONNS (a :: s).
Proof.
  intros H1 H2. destruct s as [|b [|c rest]]; try reflexivity.
  assert (start.is_unit a b c = false) as E.
  { unfold start.is_unit. apply orb_false_intro; apply bool_decide_eq_false;
      intros [= -> _ _]; done. }
  simpl. by rewrite E.
Qed.

Lemma match_conn_none a s :
  a ≠ 0x251C%N → a ≠ 0x2514%N →
  start.match_conn start.CONNS (a :: s)
  = (λ '(n, sl), (None, n, sl)) <$> start.match_name (a :: s).
Proof.
  intros H1 H2. unfold start.CONNS.
  cbn [start.match_conn Py.startswith].
  rewrite !(proj2 (N.eqb_neq _ _)); try done; by apply not_eq_sym.
Qed.

(** A plain name without prefix and connector is read as a root line. *)
Lemma parse_line_root n (dir : bool) :
  plain_root n = true → no_edge_space n = true → 47%N ∉ n → 10%N ∉ n →
  start.parse_line (n ++ (if dir then SLASH else []))
  = Some (true, 0, n, dir).
Proof.
  intros Hr He Hs Hnl. destruct n as [|a n]; first done.
  unfold plain_root in Hr. apply negb_true_iff, bool_decide_eq_false in Hr.
  assert (a ≠ 32%N ∧ a ≠ BOX_V ∧ a ≠ 0x251C%N ∧ a ≠ 0x2514%N) as (H1 & H2 & H3 & H4).
  { repeat split; intros ->; apply Hr; set_solver. }
  assert (Py.isspace a = false) as Ha.
  { unfold no_edge_space in He. apply andb_prop in He as [He _].
    by apply negb_true_iff in He. }
  unfold start.parse_line.
  destruct (Py.strip ((a :: n) ++ (if dir then SLASH else []))) eqn:E.
  { exfalso. eapply (strip_nonempty a); [|done..]. by left. }
  clear E.
  assert (Py.rstrip_chars NEWLINE ((a :: n) ++ (if dir then SLASH else []))
          = (a :: n) ++ (if dir then SLASH else [])) as ->.
  { destruct dir.
    - apply (rstrip_chars_last NEWLINE 47%N (a :: n)).
      by intros [=]%list_elem_of_singleton.
    - rewrite app_nil_r.
      destruct (exists_last (l := a :: n)) as (n' & c & E); first done.
      rewrite E. apply rstrip_chars_last. intros Hin%list_elem_of_singleton.
      subst c. apply Hnl. rewrite E. apply elem_of_app. right. by left. }
  change ((a :: n) ++ ?r) with (a :: (n ++ r)) at 1.
  rewrite LINE_RE_no_unit, match_conn_none by done.
  change (a :: (n ++ ?r)) with ((a :: n) ++ r).
  rewrite match_name_spec by done.
  cbn [fmap option_fmap option_map start.g_prefix start.g_conn start.g_name start.g_slash].
  rewrite strip_edges by done.
  rewrite !bool_decide_eq_true_2 by done. cbn [andb].
  assert (Py.endswith (a :: n) SLASH = false) as ->.
  { apply not_true_is_false. by intros H%endswith_elem. }
  rewrite andb_false_r. by destruct dir.
Qed.

(** ** The loops and their file-system calls *)

Lemma exec_app a b fs : exec (a ++ b) fs = exec a fs ≫= exec b.
Proof.
  revert fs. induction a as [|x a IH]; intros fs; first done.
  simpl. destruct (perform x fs); simpl; [apply IH|done].
Qed.

Lemma for_lines_plan body step i lines b st fs :
  (∀ i raw b st fs,
     body i raw (MkState b st fs)
     = let '(b', st', acts) := step i raw b st in
       fs' ← exec acts fs; Some (MkState b' st' fs')) →
  disk <$> for_lines body i lines (MkState b st fs)
  = exec (walk_from step i lines b st).2 fs.
Proof.
  intros Hbody. revert i b st fs.
  induction lines as [|raw rest IH]; intros i b st fs; first done.
  simpl. rewrite Hbody. destruct (step i raw b st) as [[b' st'] acts].
  specialize (IH (S i) b' st').
  destruct (walk_from step (S i) rest b' st') as [[b2 st2] acts2]. simpl in *.
  rewrite exec_app. destruct (exec acts fs) as [fs'|]; simpl; [apply IH|done].
Qed.

Lemma walk_from_app step i l1 l2 b st :
  walk_from step i (l1 ++ l2) b st
  = let '(b1, st1, a1) := walk_from step i l1 b st in
    let '(b2, st2, a2) := walk_from step (i + length l1) l2 b1 st1 in
    (b2, st2, a1 ++ a2).
Proof.
  revert i b st. induction l1 as [|raw l1 IH]; intros i b st.
  - simpl. rewrite Nat.add_0_r. by destruct (walk_from step i l2 b st) as [[??]?].
  - simpl. destruct (step i raw b st) as [[b' st'] acts]. rewrite IH.
    destruct (walk_from step (S i) l1 b' st') as [[b1 st1] a1].
    replace (i + S (length l1)) with (S i + length l1) by lia.
    destruct (walk_from step (S i + length l1) l2 b1 st1) as [[b2 st2] a2].
    by rewrite app_assoc.
Qed.

Lemma place_body depth name is_dir b st fs :
  (if length st <? depth then Some (MkState b st fs)
   else
     let dirs_stack := if depth <? length st then take depth st else st in
     parent ← (if depth =? 0 then Some b else last dirs_stack);
     let target := joinpath parent name in
     if is_dir : bool then
       fs ← mkdir target fs;
       Some (MkState b (take depth dirs_stack ++ [target]) fs)
     else
       fs ← mkdir (parent_of target) fs;
       fs ← open_append target fs;
       Some (MkState b dirs_stack fs))
  = let '(b', st', acts) := place depth name is_dir b st in
    fs' ← exec acts fs; Some (MkState b' st' fs').
Proof.
  unfold place. destruct (length st <? depth) eqn:E; first done.
  apply Nat.ltb_ge in E.
  assert ((if depth <? length st then take depth st else st) = take depth st) as ->.
  { destruct (depth <? length st) eqn:E'; first done.
    apply Nat.ltb_ge in E'. by rewrite take_ge. }
  rewrite take_take, Nat.min_id.
  destruct (depth =? 0) eqn:E0.
  - simpl. destruct is_dir; simpl.
    + by destruct (mkdir _ fs).
    + destruct (mkdir _ fs); simpl; last done. by destruct (open_append _ _).
  - apply Nat.eqb_neq in E0.
    destruct (last (take depth st)) as [p|] eqn:El.
    + simpl. destruct is_dir; simpl.
      * by destruct (mkdir _ fs).
      * destruct (mkdir _ fs); simpl; last done. by destruct (open_append _ _).
    + apply last_None in El. apply (f_equal length) in El.
      rewrite length_take in El. simpl in El. lia.
Qed.

Lemma start_body_step dest strip flr i raw b st fs :
  start.body dest strip flr i raw (MkState b st fs)
  = let '(b', st', acts) := start.step dest strip flr i raw b st in
    fs' ← exec acts fs; Some (MkState b' st' fs').
Proof.
  unfold start.body, start.step.
  destruct (start.parse_line raw) as [[[[r d] n] isd]|]; last done.
  destruct (r && flr).
  - destruct (negb strip); last done. simpl. by destruct (mkdir _ fs).
  - apply place_body.
Qed.

Lemma start_create_plan text dest strip fs :
  start.create_structure_from_file text dest strip fs
  = exec (start.plan text dest strip) fs.
Proof. apply for_lines_plan. intros. apply start_body_step. Qed.

Lemma folderforge_body_step dest strip i raw b st fs :
  folderforge.body dest strip i raw (MkState b st fs)
  = let '(b', st', acts) := folderforge.step dest strip i raw b st in
    fs' ← exec acts fs; Some (MkState b' st' fs').
Proof.
  unfold folderforge.body, folderforge.step.
  destruct (folderforge.read_line raw) as [[[isd d] n]|]; last done.
  destruct ((i =? 0) && negb strip && isd).
  - simpl. by destruct (mkdir _ fs).
  - rewrite <- place_body. simpl.
    destruct (length st <? d) eqn:E; first done.
    apply Nat.ltb_ge in E.
    destruct (d =? 0) eqn:E0; first done. simpl.
    rewrite bool_decide_eq_false_2; first done.
    apply Nat.eqb_neq in E0. intros H. apply (f_equal length) in H.
    destruct (d <? length st) eqn:E'; simpl in H.
    + rewrite length_take in H. lia.
    + lia.
Qed.

Lemma folderforge_create_plan text dest strip fs :
  folderforge.create_structure_from_file text dest strip fs
  = exec (folderforge.plan text dest strip) fs.
Proof. apply for_lines_plan. intros. apply folderforge_body_step. Qed.

Lemma create_plan v text dest strip fs :
  create_structure_from_file v text dest strip fs = exec (plan v text dest strip) fs.
Proof. destruct v; [apply folderforge_create_plan|apply start_create_plan]. Qed.


Lemma walk_from_index step l :
  (∀ i j raw b st, 0 < i → 0 < j → step i raw b st = step j raw b st) →
  ∀ i j b st, 0 < i → 0 < j → walk_from step i l b st = walk_from step j l b st.
Proof.
  intros Hstep. induction l as [|raw l IH]; intros i j b st Hi Hj; first done.
  simpl. rewrite (Hstep i j) by done.
  destruct (step j raw b st) as [[b' st'] acts].
  by rewrite (IH (S i) (S j)) by lia.
Qed.

Lemma walk_from_skip step l1 bad l2 b st :
  l1 ≠ [] →
  (∀ i j raw b st, 0 < i → 0 < j → step i raw b st = step j raw b st) →
  (∀ i b st, step i bad b st = (b, st, [])) →
  walk_from step 0 (l1 ++ bad :: l2) b st = walk_from step 0 (l1 ++ l2) b st.
Proof.
  intros Hne Hidx Hbad. rewrite !walk_from_app.
  destruct (walk_from step 0 l1 b st) as [[b1 st1] a1].
  simpl. rewrite Hbad. simpl.
  rewrite (walk_from_index step l2 Hidx (S (length l1)) (length l1)); [|lia|].
  - by destruct (walk_from step (length l1) l2 b1 st1) as [[??]?].
  - destruct l1; [done|simpl; lia].
Qed.


(** The root line under strip-root: [start.py] leaves base directory and
    stack as they are; [folderforge.py] handles the line as a directory of
    depth 0. *)
Lemma start_root_line_stripped dest i raw (b : path) (st : list path) d n isd :
  start.parse_line raw = Some (true, d, n, isd) →
  start.step dest true true i raw b st = (b, st, []).
Proof. intros E. unfold start.step. by rewrite E. Qed.

Lemma folderforge_root_line_kept (dest : path) raw n :
  folderforge.read_line raw = Some (true, 0, n) →
  folderforge.step dest true 0 raw dest []
  = (dest, [joinpath dest n], [MkDir (joinpath dest n)]).
Proof. intros E. unfold folderforge.step. by rewrite E. Qed.

(** ** The file system only grows *)

Lemma ensure_dir_grows (p : path) (fs fs' : FS) :
  ensure_dir p fs = Some fs' →
  fs ⊆ fs' ∧ ∀ fs'' : FS, fs' ⊆ fs'' → ensure_dir p fs'' = Some fs''.
Proof.
  unfold ensure_dir. destruct p as [|c p]; first by intros [= ->].
  destruct (fs !! (c :: p)) as [[|?]|] eqn:E; intros [= <-].
  - split; first done. intros fs'' H.
    by rewrite (lookup_weaken _ _ _ _ E H).
  - split; first by apply insert_subseteq.
    intros fs'' H.
    by rewrite (lookup_weaken _ fs'' _ _ (lookup_insert_eq fs (c :: p) DirNode) H).
Qed.

Lemma mkdir_from_grows (parts cur : path) (fs fs' : FS) :
  mkdir_from cur parts fs = Some fs' →
  fs ⊆ fs' ∧ ∀ fs'' : FS, fs' ⊆ fs'' → mkdir_from cur parts fs'' = Some fs''.
Proof.
  revert cur fs. induction parts as [|c rest IH]; intros cur fs; simpl.
  - by intros [= ->].
  - destruct (ensure_dir (enter cur c) fs) as [f1|] eqn:E; simpl; last done.
    intros H. apply ensure_dir_grows in E as [E1 E2].
    apply IH in H as [H1 H2]. split; first by etrans.
    intros fs'' Hs. rewrite E2; last by etrans. simpl. by apply H2.
Qed.

Lemma resolve_from_weaken (parts cur : path) (fs fs'' : FS) (d : path) :
  resolve_from cur parts fs = Some d → fs ⊆ fs'' →
  resolve_from cur parts fs'' = Some d.
Proof.
  revert cur. induction parts as [|c rest IH]; intros cur; simpl; first done.
  destruct (enter cur c) as [|x q] eqn:Ec; first by apply IH.
  destruct (fs !! (x :: q)) as [[|?]|] eqn:E; try done.
  intros H Hs. rewrite (lookup_weaken _ _ _ _ E Hs). by apply IH.
Qed.

Lemma open_append_grows (p : path) (fs fs' : FS) :
  open_append p fs = Some fs' →
  fs ⊆ fs' ∧ ∀ fs'' : FS, fs' ⊆ fs'' → open_append p fs'' = Some fs''.
Proof.
  unfold open_append. destruct (last p) as [c|]; last done.
  destruct (resolve_from [] (removelast p) fs) as [d|] eqn:Er; simpl; last done.
  destruct (bool_decide (c = DOTDOT)); first done.
  destruct (fs !! (d ++ [c])) as [[|?]|] eqn:E; try done; intros [= <-].
  - split; first done. intros fs'' H.
    rewrite (resolve_from_weaken _ _ _ _ _ Er H). simpl.
    by rewrite (lookup_weaken _ _ _ _ E H).
  - split; first by apply insert_subseteq.
    intros fs'' H.
    assert (fs ⊆ fs'') as H0 by (etrans; [by apply insert_subseteq|done]).
    rewrite (resolve_from_weaken _ _ _ _ _ Er H0). simpl.
    by rewrite (lookup_weaken _ fs'' _ _ (lookup_insert_eq fs (d ++ [c]) (FileNode [])) H).
Qed.

Lemma perform_grows (a : action) (fs fs' : FS) :
  perform a fs = Some fs' →
  fs ⊆ fs' ∧ ∀ fs'' : FS, fs' ⊆ fs'' → perform a fs'' = Some fs''.
Proof.
  destruct a as [p|p]; simpl; first apply mkdir_from_grows.
  destruct (mkdir (parent_of p) fs) as [f1|] eqn:E; simpl; last done.
  intros H. apply mkdir_from_grows in E as [E1 E2].
  apply open_append_grows in H as [H1 H2]. split; first by etrans.
  intros fs'' Hs. unfold mkdir. rewrite E2; last by etrans. simpl. by apply H2.
Qed.

Lemma exec_grows (acts : list action) (fs fs' : FS) :
  exec acts fs = Some fs' →
  fs ⊆ fs' ∧ ∀ fs'' : FS, fs' ⊆ fs'' → exec acts fs'' = Some fs''.
Proof.
  revert fs. induction acts as [|a rest IH]; intros fs; simpl.
  - by intros [= ->].
  - destruct (perform a fs) as [f1|] eqn:E; simpl; last done.
    intros H. apply perform_grows in E as [E1 E2].
    apply IH in H as [H1 H2]. split; first by etrans.
    intros fs'' Hs. rewrite E2; last by etrans. simpl. by apply H2.
Qed.

(** ** Sorting *)

Lemma str_le_total a b : Py.str_le a b = false → Py.str_le b a = true.
Proof.
  revert b. induction a as [|x a IH]; intros [|y b]; simpl; try done.
  destruct (x <? y)%N eqn:E1; first done.
  destruct (y <? x)%N eqn:E2; first done. apply IH.
Qed.

Lemma str_le_trans a b c :
  Py.str_le a b = true → Py.str_le b c = true → Py.str_le a c = true.
Proof.
  revert b c. induction a as [|x a IH]; intros [|y b] [|z c]; simpl; try done.
  destruct (x <? y)%N eqn:E1.
  - intros _. destruct (y <? z)%N eqn:E2.
    + intros _. apply N.ltb_lt in E1, E2.
      by rewrite (proj2 (N.ltb_lt x z)) by lia.
    + destruct (z <? y)%N eqn:E3; first done. intros _.
      apply N.ltb_lt in E1. apply N.ltb_ge in E2, E3.
      by rewrite (proj2 (N.ltb_lt x z)) by lia.
  - destruct (y <? x)%N eqn:E2; first done.
    apply N.ltb_ge in E1, E2. assert (x = y) as -> by lia.
    intros H1. destruct (y <? z)%N; first done.
    destruct (z <? y)%N; first done. by apply IH.
Qed.

Lemma key_le_total a b : key_le a b = false → key_le b a = true.
Proof.
  destruct a as [[] s], b as [[] t]; unfold key_le; simpl; try done;
    apply str_le_total.
Qed.

Lemma key_le_trans a b c :
  key_le a b = true → key_le b c = true → key_le a c = true.
Proof.
  destruct a as [[] s], b as [[] t], c as [[] u]; unfold key_le; simpl; try done;
    apply str_le_trans.
Qed.

Section sorted_facts.
Context {A K : Type} (key : A → K) (le : K → K → bool).
Hypothesis le_total : ∀ a b, le a b = false → le b a = true.
Hypothesis le_trans : ∀ a b c, le a b = true → le b c = true → le a c = true.

Lemma insert_sorted_perm x l : insert_sorted key le x l ≡ₚ x :: l.
Proof.
  induction l as [|y l IH]; simpl; first done.
  destruct (le (key x) (key y)); first done.
  rewrite IH. apply Permutation_swap.
Qed.

Lemma sorted_perm l : sorted key le l ≡ₚ l.
Proof.
  induction l as [|x l IH]; simpl; first done.
  by rewrite insert_sorted_perm, IH.
Qed.

Lemma insert_sorted_sorted x l :
  StronglySorted (λ a b, le (key a) (key b) = true) l →
  StronglySorted (λ a b, le (key a) (key b) = true) (insert_sorted key le x l).
Proof.
  induction 1 as [|y l Hl IH Hy]; simpl; first by repeat constructor.
  destruct (le (key x) (key y)) eqn:E.
  - constructor; first by constructor.
    constructor; first done.
    eapply Forall_impl; first exact Hy. intros z Hz. by eapply le_trans.
  - constructor; first done.
    rewrite insert_sorted_perm. constructor; last done. by apply le_total.
Qed.

Lemma sorted_sorted l :
  StronglySorted (λ a b, le (key a) (key b) = true) (sorted key le l).
Proof.
  induction l as [|x l IH]; simpl; first constructor.
  by apply insert_sorted_sorted.
Qed.

Lemma StronglySorted_lookup_lt (R : relation A) l i j a b :
  StronglySorted R l → i < j → l !! i = Some a → l !! j = Some b → R a b.
Proof.
  intros Hs. revert i j. induction Hs as [|x l Hl IH Hx]; intros i j Hij Hi Hj.
  - done.
  - destruct j as [|j]; first lia. simpl in Hj.
    destruct i as [|i]; simpl in Hi.
    + injection Hi as <-. rewrite Forall_forall in Hx. apply Hx.
      by eapply list_elem_of_lookup_2.
    + eapply (IH i j); [lia|done..].
Qed.

End sorted_facts.

(** ** The shape of the listing *)

Lemma Forall2_imap_r {A B} (P : A → B → Prop) (f : nat → A → B) l :
  (∀ i x, l !! i = Some x → P x (f i x)) → Forall2 P l (imap f l).
Proof.
  revert f. induction l as [|x l IH]; intros f H; first constructor.
  rewrite imap_cons. constructor; first by apply (H 0).
  apply IH. intros i y Hy. by apply (H (S i)).
Qed.

Lemma fmap_mjoin_imap {A B C} (h : B → C) (f : nat → A → list B) l :
  h <$> mjoin (imap f l) = mjoin (imap (λ i x, h <$> f i x) l).
Proof.
  revert f. induction l as [|x l IH]; intros f; first done.
  rewrite !imap_cons. simpl. rewrite fmap_app. f_equal. apply IH.
Qed.

Section encoder_facts.
Variable lower : str → str.
Variable fnmatch : str → str → bool.

Lemma tree_ann_lines v pats md fuel d prefix depth :
  (_tree_ann lower fnmatch v pats md fuel d prefix depth).*2
  = _tree lower fnmatch v pats md fuel d prefix depth.
Proof.
  revert d prefix depth. induction fuel as [|fuel IH]; intros d prefix depth; first done.
  simpl. destruct (depth_exceeded md depth); first done.
  rewrite fmap_mjoin_imap. f_equal. apply imap_ext. intros i e _. simpl.
  destruct (is_dir e && should_ignore_dir fnmatch e pats); first done.
  simpl. f_equal. destruct (is_dir e); last done. apply IH.
Qed.

Lemma entries_elem pats d e :
  e ∈ entries lower fnmatch pats d
  ↔ e ∈ iterdir d ∧ is_dir e && should_ignore_dir fnmatch e pats = false.
Proof.
  unfold entries. rewrite sorted_perm.
  rewrite list_elem_of_In, filter_In, <- list_elem_of_In.
  by rewrite negb_true_iff.
Qed.

Lemma extension_column v i len : is_column v (extension v i len) = true.
Proof. destruct v; simpl; by case_match. Qed.

(** What [_tree] writes for a directory: for each of its [entries], in
    their order, the line of the entry and then the listing of the entry. *)
Lemma tree_ann_shape v pats md fuel d us depth :
  depth_exceeded md depth = false →
  ∃ chunks,
    _tree_ann lower fnmatch v pats md (S fuel) d (concat us) depth = mjoin chunks
    ∧ Forall2 (λ e chunk, ∃ conn ext,
        is_connector conn = true ∧ is_column v ext = true
        ∧ chunk = (e, entry_line us conn (name e) (is_dir e))
                  :: (if is_dir e then
                        _tree_ann lower fnmatch v pats md fuel e
                          (concat (us ++ [ext])) (depth + 1)
                      else []))
        (entries lower fnmatch pats d) chunks.
Proof.
  intros Hd. eexists. split.
  - simpl. rewrite Hd. reflexivity.
  - apply Forall2_imap_r. intros i e He.
    assert (is_dir e && should_ignore_dir fnmatch e pats = false) as ->.
    { apply list_elem_of_lookup_2 in He. by apply entries_elem in He as [_ ?]. }
    eexists _, (extension v _ _). split; [|split; [apply extension_column|]].
    2: { unfold entry_line. rewrite concat_app. simpl. by rewrite app_nil_r. }
    by case_match.
Qed.

(** Every labelled line is the line of one of the [entries] of a directory
    that [_tree] scans within the depth limit. *)
Lemma tree_ann_elem_ind v pats md (P : list str → Z → Path → Path → str → Prop) :
  (∀ us depth d e conn,
     e ∈ entries lower fnmatch pats d → depth_exceeded md depth = false →
     is_connector conn = true →
     P us depth d e (entry_line us conn (name e) (is_dir e))) →
  (∀ us depth d e ext x l,
     e ∈ entries lower fnmatch pats d → is_dir e = true →
     depth_exceeded md depth = false → is_column v ext = true →
     P (us ++ [ext]) (depth + 1)%Z e x l → P us depth d x l) →
  ∀ fuel us depth d x l,
    (x, l) ∈ _tree_ann lower fnmatch v pats md fuel d (concat us) depth →
    P us depth d x l.
Proof.
  intros Hhead Hstep. induction fuel as [|fuel IH]; intros us depth d x l Hin.
  { by apply elem_of_nil in Hin. }
  destruct (depth_exceeded md depth) eqn:Hd.
  { simpl in Hin. rewrite Hd in Hin. by apply elem_of_nil in Hin. }
  destruct (tree_ann_shape v pats md fuel d us depth Hd) as (chunks & E & HF).
  rewrite E in Hin. apply list_elem_of_join in Hin as (chunk & Hx & Hc).
  apply list_elem_of_lookup in Hc as [i Hi].
  destruct (Forall2_lookup_r _ _ _ _ _ HF Hi) as (e & He & conn & ext & Hconn & Hext & ->).
  apply list_elem_of_lookup_2 in He.
  apply elem_of_cons in Hx as [[= -> ->]|Hx]; first by apply Hhead.
  destruct (is_dir e) eqn:Hdir; last by apply elem_of_nil in Hx.
  eapply Hstep; [done..|]. by apply IH.
Qed.

(** Conversely: the line of every entry of a scanned directory is written. *)
Lemma tree_ann_head v pats md fuel d us depth e :
  depth_exceeded md depth = false →
  e ∈ entries lower fnmatch pats d →
  ∃ conn, is_connector conn = true
    ∧ (e, entry_line us conn (name e) (is_dir e))
      ∈ _tree_ann lower fnmatch v pats md (S fuel) d (concat us) depth.
Proof.
  intros Hd He.
  destruct (tree_ann_shape v pats md fuel d us depth Hd) as (chunks & E & HF).
  apply list_elem_of_lookup in He as [i Hi].
  destruct (Forall2_lookup_l _ _ _ _ _ HF Hi) as (chunk & Hc & conn & ext & Hconn & _ & ->).
  exists conn. split; first done.
  rewrite E. apply list_elem_of_join. eexists. split; last by eapply list_elem_of_lookup_2.
  by left.
Qed.

Lemma tree_lines_ann_lines v root pats md :
  tree_lines lower fnmatch v root pats md
  = match md with
    | Some m => if (0 <=? m)%Z then [entry_name root ++ SLASH] else []
    | None => [entry_name root ++ SLASH]
    end ++ (tree_lines_ann lower fnmatch v root pats md).*2.
Proof.
  unfold tree_lines, tree_lines_ann. f_equal.
  destruct md as [m|]; last by rewrite tree_ann_lines.
  destruct (0 <? m)%Z; last done. by rewrite tree_ann_lines.
Qed.

End encoder_facts.


Lemma marker_columns_entry_line us conn rest :
  Forall (λ u, is_marker u = true) us → is_connector conn = true →
  marker_columns (concat us ++ conn ++ rest) = length us.
Proof.
  intros Hu Hc. induction Hu as [|u us Hm _ IH].
  - unfold is_connector in Hc.
    apply orb_prop in Hc as [Hc|Hc]; apply bool_decide_eq_true in Hc; by subst conn.
  - simpl concat. rewrite <- app_assoc.
    unfold is_marker in Hm.
    apply orb_prop in Hm as [Hm|Hm]; apply bool_decide_eq_true in Hm; subst u;
      simpl; by rewrite IH.
Qed.

Lemma tree_ann_depth lower fnmatch v pats (k : Z) fuel us depth d x l :
  Forall (λ u, is_column v u = true) us → Z.of_nat (length us) = depth →
  (x, l) ∈ _tree_ann lower fnmatch v pats (Some k) fuel d (concat us) depth →
  ∃ us' conn, l = entry_line us' conn (name x) (is_dir x)
    ∧ Forall (λ u, is_column v u = true) us' ∧ is_connector conn = true
    ∧ (Z.of_nat (length us') ≤ k)%Z.
Proof.
  intros Hus Hlen Hin. revert Hus Hlen.
  eapply (tree_ann_elem_ind lower fnmatch v pats (Some k)
    (λ us depth d x l,
       Forall (λ u, is_column v u = true) us → Z.of_nat (length us) = depth →
       ∃ us' conn, l = entry_line us' conn (name x) (is_dir x)
         ∧ Forall (λ u, is_column v u = true) us' ∧ is_connector conn = true
         ∧ (Z.of_nat (length us') ≤ k)%Z)); last exact Hin.
  - clear. intros us depth d e conn _ Hd Hc Hus Hlen.
    exists us, conn. repeat split; try done.
    simpl in Hd. apply Z.ltb_ge in Hd. lia.
  - clear. intros us depth d e ext x l _ _ _ Hext IH Hus Hlen.
    apply IH.
    + apply Forall_app. split; first done. by constructor.
    + rewrite length_app. simpl. lia.
Qed.



Lemma fmap_mjoin {A B} (f : A → B) (ls : list (list A)) :
  f <$> mjoin ls = mjoin ((λ l : list A, f <$> l) <$> ls).
Proof.
  induction ls as [|l ls IH]; first done.
  simpl. by rewrite fmap_app, IH.
Qed.

Lemma entries_sorted lower fnmatch pats d i j a b :
  i < j →
  entries lower fnmatch pats d !! i = Some a →
  entries lower fnmatch pats d !! j = Some b →
  key_le (sort_key lower a) (sort_key lower b) = true.
Proof.
  intros Hij Ha Hb.
  eapply (StronglySorted_lookup_lt
            (λ a b, key_le (sort_key lower a) (sort_key lower b) = true));
    [|exact Hij|exact Ha|exact Hb].
  apply sorted_sorted; [apply key_le_total|apply key_le_trans].
Qed.


(** ** Ignored directories *)

Lemma child_rel d e : child d e → rel e = rel d ++ [name e].
Proof.
  unfold child, iterdir. intros (c & -> & _)%list_elem_of_fmap. done.
Qed.

Lemma rtc_child_rel a b :
  rtc child a b → ∃ q, rel b = rel a ++ q ∧ (q = [] → a = b).
Proof.
  induction 1 as [a|a c b Hac _ (q & E & _)].
  - exists []. by rewrite app_nil_r.
  - apply child_rel in Hac. exists (name c :: q). split; last done.
    by rewrite E, Hac, <- app_assoc.
Qed.

Lemma tc_child_inv a b : tc child a b → ∃ c, child a c ∧ rtc child c b.
Proof.
  intros H. destruct H as [a b H|a c b Hac Hcb]; first by exists b.
  exists c. split; first done. by apply tc_rtc.
Qed.

Lemma should_ignore_dir_same fnmatch a b pats :
  rel a = rel b → name a = name b →
  should_ignore_dir fnmatch a pats = should_ignore_dir fnmatch b pats.
Proof. unfold should_ignore_dir. by intros -> ->. Qed.

Lemma should_ignore_dir_spec fnmatch d pats :
  should_ignore_dir fnmatch d pats = true
  ↔ ∃ p, p ∈ pats
      ∧ (fnmatch (name d) p = true
         ∨ fnmatch (as_posix (rel d)) (Py.rstrip_chars SLASH p) = true).
Proof.
  unfold should_ignore_dir. destruct pats as [|p0 pats].
  - split; first done. intros (p & Hp & _). by apply elem_of_nil in Hp.
  - rewrite existsb_exists. split.
    + intros (p & Hp%list_elem_of_In & H%orb_prop). by exists p.
    + intros (p & Hp%list_elem_of_In & H). exists p. split; first done.
      by apply orb_true_iff.
Qed.

Section ignore_facts.
Variable lower : str → str.
Variable fnmatch : str → str → bool.

Lemma entries_child pats d e : e ∈ entries lower fnmatch pats d → child d e.
Proof. by intros [? _]%entries_elem. Qed.

Lemma visible_rel pats d x :
  visible lower fnmatch pats d x → ∃ n q, rel x = rel d ++ n :: q.
Proof.
  induction 1 as [d x Hx|d e x He _ _ (n & q & E)].
  - apply entries_child, child_rel in Hx. by exists (name x), [].
  - apply entries_child, child_rel in He. exists (name e), (n :: q).
    by rewrite E, He, <- app_assoc.
Qed.

Lemma tree_ann_visible v pats md fuel us depth d x l :
  (x, l) ∈ _tree_ann lower fnmatch v pats md fuel d (concat us) depth →
  visible lower fnmatch pats d x.
Proof.
  apply (tree_ann_elem_ind lower fnmatch v pats md
           (λ _ _ d x _, visible lower fnmatch pats d x)).
  - intros _ _ d' e _ He _ _. by constructor.
  - intros _ _ d' e _ x' _ He Hdir _ _ Hv. by eapply visible_below.
Qed.

Lemma visible_not_ignored pats d x :
  visible lower fnmatch pats d x →
  ∀ d' d0, rel d' = rel d → tc child d' d0 → rtc child d0 x →
    is_dir d0 = true → should_ignore_dir fnmatch d0 pats = true → False.
Proof.
  induction 1 as [d x Hx|d e x He Hdir Hv IH]; intros d' d0 Hrel Htc Hrtc Hd0 Hig.
  - apply entries_elem in Hx as [Hx Hkeep]. apply child_rel in Hx.
    apply tc_child_inv in Htc as (c & Hc & Hcd).
    apply child_rel in Hc.
    apply rtc_child_rel in Hcd as (q1 & E1 & Hq1).
    apply rtc_child_rel in Hrtc as (q2 & E2 & Hq2).
    rewrite E2, E1, Hc, Hrel, <- !app_assoc in Hx.
    apply app_inv_head in Hx. simpl in Hx.
    injection Hx as Hn Hq. apply app_eq_nil in Hq as [-> ->].
    rewrite <- (Hq2 eq_refl), Hd0, Hig in Hkeep. done.
  - apply entries_elem in He as [He Hkeep]. apply child_rel in He.
    destruct (visible_rel _ _ _ Hv) as (n & q & Ex).
    apply tc_child_inv in Htc as (c & Hc & Hcd).
    pose proof (child_rel _ _ Hc) as Ec.
    pose proof (rtc_child_rel _ _ Hrtc) as (q2 & E2 & Hq2).
    pose proof (rtc_child_rel _ _ Hcd) as (q1 & E1 & Hq1).
    assert (name c = name e) as Hname.
    { rewrite E2, E1, Ec, Hrel, He, <- !app_assoc in Ex.
      apply app_inv_head in Ex. simpl in Ex. by injection Ex. }
    assert (rel c = rel e) as Hce by (by rewrite Ec, He, Hrel, Hname).
    apply rtc_inv in Hcd as [<-|(c' & Hcc' & Hc'd)].
    + rewrite (should_ignore_dir_same fnmatch e c), Hig, Hdir in Hkeep; done.
    + eapply (IH c d0); [done| |done..].
      eapply tc_rtc_r; last exact Hc'd. by apply tc_once.
Qed.

End ignore_facts.

(** ** The line reader of [folderforge.py] on lines written by the encoder *)

Lemma plain_name_spec n :
  plain_name n = true →
  n ≠ [] ∧ (47%N ∉ n) ∧ (10%N ∉ n) ∧ Forall (λ c, Py.islinebreak c = false) n
  ∧ no_edge_space n = true ∧ n ≠ DOT ∧ n ≠ DOTDOT.
Proof.
  unfold plain_name. rewrite !andb_true_iff, !negb_true_iff, !bool_decide_eq_false.
  intros ((((H1 & H2) & H3) & H4) & H5).
  rewrite forallb_forall in H2.
  assert (∀ c, c ∈ n → c ≠ 47%N ∧ Py.islinebreak c = false) as H.
  { intros c Hc%list_elem_of_In%H2.
    apply andb_prop in Hc as [Hc1 Hc2].
    split; [by apply N.eqb_neq, negb_true_iff|by apply negb_true_iff]. }
  repeat split; try done.
  - intros Hin. by apply H in Hin as [? _].
  - intros Hin. by apply H in Hin as [_ ?].
  - apply Forall_forall. intros c Hc. by apply H.
Qed.

Lemma split_once_app c pre post :
  c ∉ pre → Py.split_once c (pre ++ c :: post) = (pre, post).
Proof.
  induction pre as [|a pre IH]; intros Hc; simpl.
  - by rewrite N.eqb_refl.
  - apply not_elem_of_cons in Hc as [Hne Hc].
    rewrite (proj2 (N.eqb_neq a c)) by done. by rewrite IH.
Qed.

Lemma markers_no_dash us :
  Forall (λ u, is_marker u = true) us → BOX_H ∉ concat us.
Proof.
  induction 1 as [|u us Hu _ IH]; simpl; first by apply not_elem_of_nil.
  rewrite elem_of_app. intros [H|H]; last done.
  unfold is_marker in Hu.
  apply orb_prop in Hu as [Hu|Hu]; apply bool_decide_eq_true in Hu; subst u;
    repeat (apply elem_of_cons in H as [H|H]; first done); by apply elem_of_nil in H.
Qed.

Lemma no_edge_space_last n c :
  no_edge_space n = true → last n = Some c → Py.isspace c = false.
Proof.
  unfold no_edge_space. intros [_ H]%andb_prop E. rewrite E in H.
  by apply negb_true_iff.
Qed.

(** On a line of the listing format, [folderforge.py] reads the name and the
    kind, and counts the depth on the prefix and the connector glyph. *)
Lemma read_line_entry us conn n (dir : bool) :
  Forall (λ u, is_marker u = true) us →
  is_connector conn = true → plain_name n = true →
  folderforge.read_line (entry_line us conn n dir)
  = Some (dir, folderforge.prefix_depth (concat us ++ take 1 conn), n).
Proof.
  intros Hu Hc Hn.
  destruct (plain_name_spec n Hn) as (Hne & Hs & _ & _ & He & _ & _).
  destruct (connector_glyph conn Hc) as (g & -> & Hg & HgH & HgV).
  destruct (exists_last (l := n)) as (n' & c & En); first done.
  assert (Py.isspace c = false) as Hc_sp.
  { apply (no_edge_space_last n); first done. rewrite En. apply last_snoc. }
  assert (c ≠ 47%N) as Hc_sl.
  { intros ->. apply Hs. rewrite En. apply elem_of_app. right. by left. }
  unfold folderforge.read_line.
  set (body := concat us ++ [g; BOX_H; 32%N] ++ n).
  assert (Py.rstrip (entry_line us [g; BOX_H; 32%N] n dir)
          = entry_line us [g; BOX_H; 32%N] n dir) as ->.
  { unfold entry_line. destruct dir.
    - rewrite !app_assoc. by apply rstrip_by_last.
    - rewrite app_nil_r, En, !app_assoc. by apply rstrip_by_last. }
  assert (Py.endswith (entry_line us [g; BOX_H; 32%N] n dir) SLASH = dir) as ->.
  { unfold entry_line. destruct dir.
    - rewrite !app_assoc. apply endswith_app.
    - rewrite app_nil_r, En, !app_assoc. by apply endswith_last_ne. }
  assert (Py.rstrip_chars SLASH (entry_line us [g; BOX_H; 32%N] n dir) = body) as ->.
  { unfold entry_line, body. destruct dir.
    - rewrite !app_assoc. unfold Py.rstrip_chars.
      rewrite (rstrip_by_drop _ 47%N) by done.
      rewrite En, !app_assoc. apply rstrip_by_last.
      apply bool_decide_eq_false. by intros ->%list_elem_of_singleton.
    - rewrite app_nil_r, En, !app_assoc. apply rstrip_chars_last.
      by intros ->%list_elem_of_singleton. }
  assert (Py.contains BOX_H body = true) as ->.
  { apply bool_decide_eq_true. subst body. rewrite elem_of_app. right.
    right. by left. }
  assert (Py.split_once BOX_H body = (concat us ++ [g], 32%N :: n)) as ->.
  { subst body.
    change (concat us ++ [g; BOX_H; 32%N] ++ n)
      with (concat us ++ [g] ++ BOX_H :: 32%N :: n).
    rewrite app_assoc. apply split_once_app.
    rewrite elem_of_app. intros [H|H%list_elem_of_singleton]; last done.
    by apply (markers_no_dash us). }
  simpl take.
  assert (Py.strip (32%N :: n) = n) as ->.
  { change (Py.strip (32%N :: n)) with (Py.strip n). by apply strip_edges. }
  destruct (entry_line us [g; BOX_H; 32%N] n dir) eqn:E; last done.
  unfold entry_line in E. apply app_eq_nil in E as [_ E]. done.
Qed.


Lemma read_line_root rn :
  plain_name rn = true → BOX_H ∉ rn →
  folderforge.read_line (rn ++ SLASH) = Some (true, 0, rn).
Proof.
  intros Hn Hd.
  destruct (plain_name_spec rn Hn) as (Hne & Hs & _ & _ & He & _ & _).
  destruct (exists_last (l := rn)) as (n' & c & En); first done.
  assert (c ≠ 47%N) as Hc_sl.
  { intros ->. apply Hs. rewrite En. apply elem_of_app. right. by left. }
  unfold folderforge.read_line.
  assert (Py.rstrip (rn ++ SLASH) = rn ++ SLASH) as -> by by apply rstrip_by_last.
  rewrite endswith_app.
  assert (Py.rstrip_chars SLASH (rn ++ SLASH) = rn) as ->.
  { unfold Py.rstrip_chars. rewrite (rstrip_by_drop _ 47%N) by done.
    rewrite En. apply rstrip_by_last.
    apply bool_decide_eq_false. by intros ->%list_elem_of_singleton. }
  assert (Py.contains BOX_H rn = false) as -> by by apply bool_decide_eq_false.
  destruct (rn ++ SLASH) eqn:E; last done.
  by apply app_eq_nil in E as [_ ?].
Qed.

Lemma item_ok_spec us conn n dir :
  item_ok (us, conn, n, dir) = true →
  Forall (λ u, is_marker u = true) us ∧ is_connector conn = true
  ∧ plain_name n = true
  ∧ folderforge.prefix_depth (concat us ++ take 1 conn) = length us.
Proof.
  unfold item_ok. rewrite !andb_true_iff, forallb_forall, Nat.eqb_eq.
  intros (((H1 & H2) & H3) & H4). repeat split; try done.
  apply Forall_forall. intros u Hu%list_elem_of_In. by apply H1.
Qed.

Lemma steps_agree_item dest flr i it b st :
  0 < i → item_ok it = true →
  folderforge.step dest false i (item_line it) b st
  = start.step dest false flr i (item_line it) b st.
Proof.
  destruct it as [[[us conn] n] dir]. intros Hi (Hu & Hc & Hn & Hd)%item_ok_spec.
  destruct (plain_name_spec n Hn) as (Hne & Hs & Hnl & _ & He & _ & _).
  unfold folderforge.step, start.step, item_line.
  rewrite read_line_entry, parse_line_entry by done.
  rewrite strip_edges by done. rewrite Hd.
  destruct i; first lia. done.
Qed.

Lemma walks_agree_items dest flr items i b st :
  0 < i → forallb item_ok items = true →
  walk_from (folderforge.step dest false) i (item_line <$> items) b st
  = walk_from (start.step dest false flr) i (item_line <$> items) b st.
Proof.
  revert i b st. induction items as [|it items IH]; intros i b st Hi Hok; first done.
  simpl in Hok. apply andb_prop in Hok as [Hit Hok].
  simpl. rewrite (steps_agree_item dest flr) by done.
  destruct (start.step dest false flr i (item_line it) b st) as [[b' st'] acts].
  by rewrite IH by (done || lia).
Qed.


(** ** Paths of plain names *)

Lemma split_no_sep c n : c ∉ n → Py.split c n = [n].
Proof.
  induction n as [|a n IH]; first done.
  intros [Ha Hn]%not_elem_of_cons. simpl.
  rewrite (proj2 (N.eqb_neq a c)) by done. by rewrite IH.
Qed.

Lemma joinpath_plain (p : path) (n : str) :
  plain_name n = true → joinpath p n = p ++ [n].
Proof.
  intros Hn. destruct (plain_name_spec n Hn) as (Hne & Hs & _ & _ & _ & Hd & _).
  assert (Py.startswith n SLASH = false) as E.
  { destruct n as [|a n]; first done.
    apply not_elem_of_cons in Hs as [Ha _].
    change (Py.startswith (a :: n) SLASH) with ((47 =? a)%N && true).
    by rewrite (proj2 (N.eqb_neq 47 a)) by done. }
  unfold joinpath, parts_of. rewrite E, split_no_sep by done. simpl.
  by rewrite (bool_decide_eq_false_2 (n = [])), (bool_decide_eq_false_2 (n = DOT)) by done.
Qed.

Lemma plain_name_not_dotdot n : plain_name n = true → n ≠ DOTDOT.
Proof. intros Hn. by destruct (plain_name_spec n Hn) as (_ & _ & _ & _ & _ & _ & ?). Qed.

(** ** Calls on a chain of existing directories *)

Lemma dir_chain_weaken (fs fs' : FS) (p : path) :
  fs ⊆ fs' → dir_chain fs p → dir_chain fs' p.
Proof. intros Hs Hc k Hk. eapply lookup_weaken; [by apply Hc|done]. Qed.

Lemma dir_chain_snoc (fs : FS) (p : path) (c : str) :
  dir_chain fs p → fs !! (p ++ [c]) = Some DirNode → dir_chain fs (p ++ [c]).
Proof.
  intros Hc Ht k Hk. rewrite length_app in Hk. simpl in Hk.
  destruct (decide (k ≤ length p)) as [Hle|Hgt].
  - rewrite take_app_le by done. apply Hc. lia.
  - rewrite take_ge by (rewrite length_app; simpl; lia). done.
Qed.

Lemma enter_plain (cur : path) (c : str) : c ≠ DOTDOT → enter cur c = cur ++ [c].
Proof. intros H. unfold enter. by rewrite bool_decide_eq_false_2. Qed.

Lemma ensure_dir_snoc (cur : path) (c : str) (fs : FS) :
  ensure_dir (cur ++ [c]) fs
  = match fs !! (cur ++ [c]) with
    | Some DirNode => Some fs
    | Some (FileNode _) => None
    | None => Some (<[cur ++ [c] := DirNode]> fs)
    end.
Proof. unfold ensure_dir. by destruct cur. Qed.

Lemma mkdir_from_existing (parts cur : path) (fs : FS) :
  Forall (λ c, c ≠ DOTDOT) parts →
  (∀ k, 0 < k ≤ length parts → fs !! (cur ++ take k parts) = Some DirNode) →
  mkdir_from cur parts fs = Some fs.
Proof.
  revert cur. induction parts as [|c rest IH]; intros cur Hp Hc; first done.
  inversion_clear Hp as [|?? Hcd Hrest]. simpl.
  rewrite enter_plain by done. rewrite ensure_dir_snoc.
  pose proof (Hc 1 ltac:(simpl; lia)) as H1.
  change (take 1 (c :: rest)) with [c] in H1. rewrite H1. simpl.
  apply IH; first done. intros k Hk.
  rewrite <- app_assoc. apply (Hc (S k)). simpl. lia.
Qed.

Lemma mkdir_from_app (a b cur : path) (fs : FS) :
  Forall (λ c, c ≠ DOTDOT) a →
  mkdir_from cur (a ++ b) fs = mkdir_from cur a fs ≫= mkdir_from (cur ++ a) b.
Proof.
  revert cur fs. induction a as [|c a IH]; intros cur fs Ha.
  - simpl. by rewrite app_nil_r.
  - inversion_clear Ha as [|?? Hc Ha']. simpl. rewrite enter_plain by done.
    destruct (ensure_dir (cur ++ [c]) fs) as [fs1|]; simpl; last done.
    rewrite IH by done. by rewrite <- app_assoc.
Qed.

Lemma mkdir_chain (p : path) (fs : FS) :
  Forall (λ c, c ≠ DOTDOT) p → dir_chain fs p → mkdir p fs = Some fs.
Proof. intros Hp Hc. apply mkdir_from_existing; first done. intros k Hk. by apply Hc. Qed.

Lemma mkdir_new (p : path) (c : str) (fs : FS) :
  Forall (λ c, c ≠ DOTDOT) p → c ≠ DOTDOT → dir_chain fs p →
  fs !! (p ++ [c]) = None →
  mkdir (p ++ [c]) fs = Some (<[p ++ [c] := DirNode]> fs).
Proof.
  intros Hp Hc Hch Hnew. unfold mkdir. rewrite mkdir_from_app by done.
  fold (mkdir p fs). rewrite mkdir_chain by done. simpl.
  rewrite enter_plain by done. rewrite ensure_dir_snoc, Hnew. done.
Qed.

Lemma resolve_from_chain (parts cur : path) (fs : FS) :
  Forall (λ c, c ≠ DOTDOT) parts →
  (∀ k, 0 < k ≤ length parts → fs !! (cur ++ take k parts) = Some DirNode) →
  resolve_from cur parts fs = Some (cur ++ parts).
Proof.
  revert cur. induction parts as [|c rest IH]; intros cur Hp Hc.
  - by rewrite app_nil_r.
  - inversion_clear Hp as [|?? Hcd Hrest]. simpl.
    rewrite enter_plain by done.
    destruct (cur ++ [c]) as [|x q] eqn:E; first by destruct cur.
    rewrite <- E.
    pose proof (Hc 1 ltac:(simpl; lia)) as H1.
  change (take 1 (c :: rest)) with [c] in H1. rewrite H1.
    rewrite IH; [by rewrite <- app_assoc|done|].
    intros k Hk. rewrite <- app_assoc. apply (Hc (S k)). simpl. lia.
Qed.

Lemma touch_new (p : path) (c : str) (fs : FS) :
  Forall (λ c, c ≠ DOTDOT) p → c ≠ DOTDOT → dir_chain fs p →
  fs !! (p ++ [c]) = None →
  perform (Touch (p ++ [c])) fs = Some (<[p ++ [c] := FileNode []]> fs).
Proof.
  intros Hp Hc Hch Hnew. simpl. unfold parent_of. rewrite removelast_last.
  rewrite mkdir_chain by done. simpl.
  unfold open_append. rewrite last_snoc, removelast_last.
  rewrite (resolve_from_chain p []) by done. simpl.
  rewrite bool_decide_eq_false_2 by done. by rewrite Hnew.
Qed.

(** ** Well-formed trees *)

Lemma tree_ok_child d e :
  tree_ok (node d) = true → child d e →
  tree_ok (node e) = true ∧ plain_name (name e) = true.
Proof.
  unfold child, iterdir. intros Hd (c & -> & Hc)%list_elem_of_fmap.
  destruct (node d) as [n|n cs]; first by apply elem_of_nil in Hc.
  simpl in *. apply andb_prop in Hd as [_ [_ Hcs]%andb_prop].
  rewrite forallb_forall in Hcs. apply list_elem_of_In, Hcs in Hc.
  split; first done. unfold name. simpl.
  destruct c; simpl in *; by apply andb_prop in Hc as [? _].
Qed.

Lemma tree_ok_nodup d :
  tree_ok (node d) = true → NoDup (name <$> iterdir d).
Proof.
  unfold iterdir. intros Hd. rewrite <- list_fmap_compose.
  destruct (node d) as [n|n cs]; first constructor.
  simpl in *. apply andb_prop in Hd as [_ [Hnd _]%andb_prop].
  by apply bool_decide_eq_true in Hnd.
Qed.

Lemma height_child d e : child d e → height (node e) < height (node d).
Proof.
  unfold child, iterdir. intros (c & -> & Hc)%list_elem_of_fmap. simpl.
  destruct (node d) as [n|n cs]; first by apply elem_of_nil in Hc.
  simpl in *. induction Hc as [c cs|c c' cs _ IH]; simpl; lia.
Qed.

Lemma filter_sublist {A} (f : A → bool) (l : list A) : List.filter f l `sublist_of` l.
Proof.
  induction l as [|x l IH]; simpl; first done.
  destruct (f x); by constructor.
Qed.

Section entries_facts.
Variable lower : str → str.
Variable fnmatch : str → str → bool.

Lemma entries_nodup pats d :
  tree_ok (node d) = true → NoDup (name <$> entries lower fnmatch pats d).
Proof.
  intros Hd. unfold entries. rewrite sorted_perm.
  eapply sublist_NoDup; first by apply tree_ok_nodup.
  apply fmap_sublist, filter_sublist.
Qed.

Lemma entries_no_patterns d : entries lower fnmatch [] d ≡ₚ iterdir d.
Proof.
  unfold entries. rewrite sorted_perm.
  induction (iterdir d) as [|x l IH]; first done.
  simpl. rewrite andb_false_r. simpl. by rewrite IH.
Qed.

End entries_facts.

(** The fuel [write_tree] gives to [_tree] is enough: with the height of the
    directory or more, the listing is the same. *)
Lemma tree_fuel_enough lower fnmatch v pats md fuel :
  ∀ fuel' d prefix depth,
    height (node d) ≤ fuel → height (node d) ≤ fuel' →
    _tree lower fnmatch v pats md fuel d prefix depth
    = _tree lower fnmatch v pats md fuel' d prefix depth.
Proof.
  induction fuel as [|fuel IH]; intros fuel' d prefix depth Hf Hf'.
  - assert (iterdir d = []) as Hnil.
    { unfold iterdir. destruct (node d); [done|simpl in Hf; lia]. }
    destruct fuel' as [|fuel']; first done.
    simpl. destruct (depth_exceeded md depth); first done.
    unfold entries. by rewrite Hnil.
  - destruct fuel' as [|fuel'].
    { assert (iterdir d = []) as Hnil.
      { unfold iterdir. destruct (node d); [done|simpl in Hf'; lia]. }
      simpl. destruct (depth_exceeded md depth); first done.
      unfold entries. by rewrite Hnil. }
    simpl. destruct (depth_exceeded md depth); first done.
    f_equal. apply imap_ext. intros i e He.
    apply list_elem_of_lookup_2, entries_child, height_child in He.
    destruct (is_dir e && should_ignore_dir fnmatch e pats); first done.
    f_equal. destruct (is_dir e); last done.
    apply IH; lia.
Qed.

(** ** The loop of [start.py] on a listing *)

Lemma parent_at_take base k (st st' : list path) :
  take k st = take k st' → parent_at base k st = parent_at base k st'.
Proof. unfold parent_at. by intros ->. Qed.

Lemma step_listing_line dest strip base i us conn n (dir : bool) (st : list path) :
  Forall (λ u, is_marker u = true) us → is_connector conn = true →
  plain_name n = true → length us ≤ length st →
  start.step dest strip true i (entry_line us conn n dir) base st
  = (base,
     take (length us) st
       ++ (if dir then [parent_at base (length us) st ++ [n]] else []),
     [if dir then MkDir (parent_at base (length us) st ++ [n])
      else Touch (parent_at base (length us) st ++ [n])]).
Proof.
  intros Hus Hc Hn Hlen.
  destruct (plain_name_spec n Hn) as (Hne & Hs & Hnl & _ & He & _ & _).
  unfold start.step. rewrite parse_line_entry by done.
  rewrite strip_edges by done. cbn [andb]. unfold place.
  rewrite (proj2 (Nat.ltb_ge _ _)) by done.
  fold (parent_at base (length us) st).
  rewrite joinpath_plain by done.
  destruct dir; first done. by rewrite app_nil_r.
Qed.

Section walk_listing.
Variable lower : str → str.
Variable fnmatch : str → str → bool.
Variable pats : list str.
Variable md : option Z.
Variable dest : path.
Variable strip : bool.
Variable base : path.

Lemma walk_listing fuel :
  ∀ d us depth (st : list path) i,
    Forall (λ u, is_marker u = true) us → tree_ok (node d) = true →
    length us ≤ length st →
    parent_at base (length us) st = base ++ rel d →
    ∃ st' : list path,
      walk_from (start.step dest strip true) i
        (_tree_ann lower fnmatch FolderForge pats md fuel d (concat us) depth).*2 base st
      = (base, st',
         act base <$> (_tree_ann lower fnmatch FolderForge pats md fuel d (concat us) depth).*1)
      ∧ take (length us) st' = take (length us) st.
Proof.
  induction fuel as [|fuel IH]; intros d us depth st i Hus Hok Hlen Hpar.
  { by exists st. }
  destruct (depth_exceeded md depth) eqn:Hd.
  { exists st. simpl. by rewrite Hd. }
  destruct (tree_ann_shape lower fnmatch FolderForge pats md fuel d us depth Hd)
    as (chunks & E & HF).
  rewrite E. clear E.
  assert (Forall (λ e, child d e) (entries lower fnmatch pats d)) as Hch.
  { apply Forall_forall. intros e He. by eapply entries_child. }
  revert st i Hlen Hpar Hch.
  induction HF as [|e chunk es chunks' (conn & ext & Hc & Hext & ->) HF IHF];
    intros st i Hlen Hpar Hch.
  { by exists st. }
  inversion_clear Hch as [|?? He Hes].
  destruct (tree_ok_child d e Hok He) as [Hoke Hne].
  pose proof (child_rel d e He) as Hrel.
  set (sub := if is_dir e
              then _tree_ann lower fnmatch FolderForge pats md fuel e
                     (concat (us ++ [ext])) (depth + 1)
              else []).
  set (t := parent_at base (length us) st ++ [name e]).
  assert (t = base ++ rel e) as Ht.
  { unfold t. by rewrite Hpar, Hrel, app_assoc. }
  set (st1 := take (length us) st ++ (if is_dir e then [t] else [])).
  assert (length (take (length us) st) = length us) as Hlt.
  { rewrite length_take. lia. }
  assert (∃ st2 : list path,
            walk_from (start.step dest strip true) (S i) sub.*2 base st1
            = (base, st2, act base <$> sub.*1)
            ∧ take (length us) st2 = take (length us) st) as (st2 & E1 & Hst2).
  { unfold sub, st1. destruct (is_dir e) eqn:Hdir.
    - destruct (IH e (us ++ [ext]) (depth + 1)%Z
                  (take (length us) st ++ [t]) (S i)) as (st2 & E1 & Hst2).
      + apply Forall_app. split; first done. by constructor.
      + done.
      + rewrite !length_app, Hlt. simpl. lia.
      + unfold parent_at. rewrite length_app. simpl.
        rewrite (proj2 (Nat.eqb_neq _ 0)) by lia.
        rewrite take_ge by (rewrite length_app, Hlt; simpl; lia).
        by rewrite last_snoc.
      + exists st2. split; first done.
        rewrite length_app in Hst2. simpl in Hst2.
        apply (f_equal (take (length us))) in Hst2.
        rewrite !take_take in Hst2.
        rewrite Nat.min_l in Hst2 by lia.
        rewrite Hst2. rewrite take_app_le by lia.
        rewrite take_take. f_equal. lia.
    - exists (take (length us) st ++ []). split; first done.
      rewrite app_nil_r, take_take. f_equal. lia. }
  destruct (IHF st2 (S i + length sub.*2)) as (st' & E2 & Hst').
  { pose proof (f_equal length Hst2) as Hl. rewrite !length_take in Hl. lia. }
  { rewrite <- Hpar. by apply parent_at_take. }
  { done. }
  exists st'. split; last by rewrite Hst'.
  change (mjoin (((e, entry_line us conn (name e) (is_dir e)) :: sub) :: chunks'))
    with (((e, entry_line us conn (name e) (is_dir e)) :: sub) ++ mjoin chunks').
  rewrite !fmap_app, !fmap_cons. cbn [fst snd app walk_from].
  rewrite step_listing_line by done.
  fold t. fold st1. rewrite walk_from_app, E1, E2.
  cbn [app]. unfold act at 3. by rewrite <- Ht.
Qed.

End walk_listing.

(** ** Finding an entry by name *)

Lemma kind_at_cons cs n r :
  kind_at cs (n :: r)
  = List.find (λ c, bool_decide (entry_name c = n)) cs ≫= (λ c, kind_below c r).
Proof. simpl. destruct (List.find _ cs); last done. by destruct r. Qed.

Section find_by_name.
Context {A : Type} (f : A → str).

Lemma find_name_None (n : str) (l : list A) :
  n ∉ f <$> l → List.find (λ x, bool_decide (f x = n)) l = None.
Proof.
  induction l as [|x l IH]; first done.
  intros [Hx Hl]%not_elem_of_cons. simpl.
  rewrite bool_decide_eq_false_2 by done. by apply IH.
Qed.

Lemma find_name_Some (n : str) (l : list A) (x : A) :
  NoDup (f <$> l) → x ∈ l → f x = n →
  List.find (λ x, bool_decide (f x = n)) l = Some x.
Proof.
  induction l as [|y l IH]; intros Hnd Hx Hn; first by apply elem_of_nil in Hx.
  apply NoDup_cons in Hnd as [Hy Hnd]. simpl.
  apply elem_of_cons in Hx as [->|Hx].
  - by rewrite bool_decide_eq_true_2.
  - rewrite bool_decide_eq_false_2; first by apply IH.
    intros Hyn. apply Hy. rewrite Hyn, <- Hn. by apply list_elem_of_fmap_2.
Qed.

Lemma find_name_elem (n : str) (l : list A) (x : A) :
  List.find (λ x, bool_decide (f x = n)) l = Some x → x ∈ l ∧ f x = n.
Proof.
  intros [H1 H2]%find_some. split; first by apply list_elem_of_In.
  by apply bool_decide_eq_true in H2.
Qed.

Lemma find_name_perm (n : str) (l l' : list A) :
  NoDup (f <$> l) → l ≡ₚ l' →
  List.find (λ x, bool_decide (f x = n)) l
  = List.find (λ x, bool_decide (f x = n)) l'.
Proof.
  intros Hnd Hp.
  destruct (List.find (λ x, bool_decide (f x = n)) l') as [x|] eqn:E.
  - apply find_name_elem in E as [Hx Hn]. apply find_name_Some; try done.
    by rewrite Hp.
  - apply find_name_None. intros (x & Hn & Hx)%list_elem_of_fmap.
    rewrite Hp in Hx. apply list_elem_of_In in Hx.
    eapply find_none in E; last exact Hx. simpl in E.
    by apply bool_decide_eq_false in E.
Qed.

End find_by_name.

Lemma find_fmap {A B} (g : A → B) (p : B → bool) (l : list A) :
  List.find p (g <$> l) = g <$> List.find (λ x, p (g x)) l.
Proof.
  induction l as [|x l IH]; first done.
  simpl. by destruct (p (g x)).
Qed.

Lemma find_entries lower fnmatch d n :
  tree_ok (node d) = true →
  List.find (λ e, bool_decide (name e = n)) (entries lower fnmatch [] d)
  = (λ c, MkPath (rel d ++ [entry_name c]) c)
      <$> List.find (λ c, bool_decide (entry_name c = n)) (entry_children (node d)).
Proof.
  intros Hok.
  rewrite (find_name_perm name n _ (iterdir d)).
  - unfold iterdir. by rewrite find_fmap.
  - by apply entries_nodup.
  - apply entries_no_patterns.
Qed.

(** ** The calls of a listing on an empty directory *)

Lemma perform_act_new (base : path) (d e : Path) (fs : FS) :
  child d e → plain_name (name e) = true →
  Forall (λ c, c ≠ DOTDOT) (base ++ rel d) → dir_chain fs (base ++ rel d) →
  fs !! (base ++ rel e) = None →
  perform (act base e) fs = Some (<[base ++ rel e := node_of (is_dir e)]> fs).
Proof.
  intros Hc Hn Hp Hch Hnew. rewrite (child_rel d e Hc) in *.
  rewrite app_assoc in *. unfold act.
  pose proof (plain_name_not_dotdot _ Hn) as Hdd.
  rewrite (child_rel d e Hc), app_assoc.
  destruct (is_dir e).
  - by apply mkdir_new.
  - by apply touch_new.
Qed.

Lemma app_cons_ne {A} (p r : list A) (x : A) : p ≠ p ++ x :: r.
Proof.
  intros H. apply (f_equal length) in H. rewrite length_app in H. simpl in H. lia.
Qed.

Section exec_listing.
Variable lower : str → str.
Variable fnmatch : str → str → bool.
Variable v : impl.
Variable base : path.

Lemma exec_listing fuel :
  ∀ (d : Path) (us : list str) (depth : Z) (fs : FS),
    height (node d) ≤ fuel → tree_ok (node d) = true →
    Forall (λ c, c ≠ DOTDOT) (base ++ rel d) →
    dir_chain fs (base ++ rel d) →
    (∀ r, r ≠ [] → fs !! (base ++ rel d ++ r) = None) →
    ∃ fs' : FS,
      exec (act base
              <$> (_tree_ann lower fnmatch v [] None fuel d (concat us) depth).*1) fs
      = Some fs'
      ∧ (∀ r, r ≠ [] →
           fs' !! (base ++ rel d ++ r)
           = node_of <$> kind_at (entry_children (node d)) r)
      ∧ (∀ q, (∀ r, r ≠ [] → q ≠ base ++ rel d ++ r) → fs' !! q = fs !! q).
Proof.
  induction fuel as [|fuel IH]; intros d us depth fs Hh Hok Hplain Hchain Hempty.
  { exists fs. split; first done. split; last done.
    intros r Hr. rewrite Hempty by done.
    destruct (node d) as [n|n cs]; last (simpl in Hh; lia).
    destruct r; first done. done. }
  destruct (tree_ann_shape lower fnmatch v [] None fuel d us depth eq_refl)
    as (chunks & E & HF).
  rewrite E. clear E.
  assert (∃ fs' : FS,
    exec (act base <$> (mjoin chunks).*1) fs = Some fs'
    ∧ (∀ n r, fs' !! (base ++ rel d ++ n :: r)
        = match List.find (λ e, bool_decide (name e = n))
                  (entries lower fnmatch [] d) with
          | Some e => node_of <$> kind_below (node e) r
          | None => fs !! (base ++ rel d ++ n :: r)
          end)
    ∧ (∀ q, (∀ r, r ≠ [] → q ≠ base ++ rel d ++ r) → fs' !! q = fs !! q))
    as (fs' & Hexec & Hin & Hout).
  { assert (Forall (λ e, child d e) (entries lower fnmatch [] d)) as Hch.
    { apply Forall_forall. intros e He. by eapply entries_child. }
    pose proof (entries_nodup lower fnmatch [] d Hok) as Hnd.
    assert (∀ e, e ∈ entries lower fnmatch [] d →
              ∀ r, fs !! (base ++ rel d ++ name e :: r) = None) as Hfresh.
    { intros e _ r. by apply Hempty. }
    clear Hempty. revert fs Hchain Hfresh Hch Hnd.
    induction HF as [|e chunk es chunks' (conn & ext & Hc & Hext & ->) HF IHF];
      intros fs Hchain Hfresh Hch Hnd.
    { exists fs. by repeat split. }
    inversion_clear Hch as [|?? He Hes].
    rewrite fmap_cons in Hnd. apply NoDup_cons in Hnd as [Hne Hnd].
    destruct (tree_ok_child d e Hok He) as [Hoke Hpn].
    pose proof (child_rel d e He) as Hrel.
    pose proof (height_child d e He) as Hhe.
    set (sub := if is_dir e
                then _tree_ann lower fnmatch v [] None fuel e
                       (concat (us ++ [ext])) (depth + 1)
                else []).
    (* the call for the entry itself *)
    assert (fs !! (base ++ rel e) = None) as Hnew.
    { rewrite Hrel. apply Hfresh. by left. }
    pose proof (perform_act_new base d e fs He Hpn Hplain Hchain Hnew) as Hperf.
    set (fs1 := <[base ++ rel e := node_of (is_dir e)]> fs) in *.
    assert (fs ⊆ fs1) as Hsub1 by by apply insert_subseteq.
    (* the calls below the entry *)
    assert (∃ fs2 : FS,
      exec (act base <$> sub.*1) fs1 = Some fs2
      ∧ (∀ r, fs2 !! (base ++ rel d ++ name e :: r)
              = node_of <$> kind_below (node e) r)
      ∧ (∀ q, (∀ r, q ≠ base ++ rel d ++ name e :: r) → fs2 !! q = fs !! q))
      as (fs2 & Hexec2 & Hin2 & Hout2).
    { assert (∀ r, base ++ rel d ++ name e :: r = base ++ rel e ++ r) as Hre.
      { intros r. by rewrite Hrel, <- !app_assoc. }
      unfold sub. destruct (is_dir e) eqn:Hdir.
      - destruct (IH e (us ++ [ext]) (depth + 1)%Z fs1) as (fs2 & Hx & Hi & Ho).
        + lia.
        + done.
        + rewrite Hrel, app_assoc. apply Forall_app. split; first done.
          constructor; last done. by apply plain_name_not_dotdot.
        + rewrite Hrel, app_assoc. apply dir_chain_snoc.
          * by eapply dir_chain_weaken.
          * rewrite <- app_assoc, <- Hrel. apply lookup_insert_eq.
        + intros r Hr. unfold fs1. rewrite lookup_insert_ne.
          * rewrite <- Hre. apply Hfresh. by left.
          * rewrite app_assoc. destruct r; first done. apply app_cons_ne.
        + exists fs2. split; first done. split.
          * intros r. rewrite Hre. destruct r as [|n r].
            -- rewrite app_nil_r. rewrite Ho.
               ++ unfold fs1. rewrite lookup_insert_eq. simpl.
                  unfold is_dir in Hdir. by rewrite Hdir.
               ++ intros r Hr. rewrite app_assoc. destruct r; first done.
                  apply app_cons_ne.
            -- by rewrite Hi.
          * intros q Hq. rewrite Ho.
            -- unfold fs1. apply lookup_insert_ne. rewrite <- (app_nil_r (rel e)).
               rewrite <- Hre. apply not_eq_sym, Hq.
            -- intros r Hr. rewrite <- Hre. apply Hq.
      - exists fs1. split; first done. split.
        + intros r. rewrite Hre. destruct r as [|n r].
          * rewrite app_nil_r. unfold fs1. rewrite lookup_insert_eq. simpl.
            unfold is_dir in Hdir. by rewrite Hdir.
          * unfold fs1. rewrite lookup_insert_ne.
            -- rewrite <- Hre, Hfresh by by left.
               unfold is_dir in Hdir. destruct (node e); last done. done.
            -- rewrite app_assoc. apply app_cons_ne.
        + intros q Hq. unfold fs1. apply lookup_insert_ne.
          rewrite <- (app_nil_r (rel e)), <- Hre. apply not_eq_sym, Hq. }
    (* the rest of the directory *)
    assert (fs1 ⊆ fs2) as Hsub2 by (by apply exec_grows in Hexec2 as [? _]).
    destruct (IHF fs2) as (fs' & Hexec' & Hin' & Hout').
    { eapply dir_chain_weaken; last exact Hchain. by etrans. }
    { intros e' He' r. rewrite Hout2; first (apply Hfresh; by right).
      intros r' [= Hn _]%app_inv_head%app_inv_head.
      apply Hne. rewrite <- Hn. by apply list_elem_of_fmap_2. }
    { done. }
    { done. }
    exists fs'. split; [|split].
    - change (mjoin (((e, entry_line us conn (name e) (is_dir e)) :: sub) :: chunks'))
        with (((e, entry_line us conn (name e) (is_dir e)) :: sub) ++ mjoin chunks').
      rewrite !fmap_app, !fmap_cons. cbn [fst app exec].
      rewrite Hperf. cbn [mbind option_bind].
      by rewrite exec_app, Hexec2.
    - intros n r. rewrite Hin'. simpl.
      destruct (decide (name e = n)) as [<-|Hn].
      + rewrite bool_decide_eq_true_2 by done.
        rewrite find_name_None by done. apply Hin2.
      + rewrite bool_decide_eq_false_2 by done.
        destruct (List.find _ es); first done.
        apply Hout2. intros r' [= Hn' _]%app_inv_head%app_inv_head. done.
    - intros q Hq. rewrite Hout' by done. apply Hout2.
      intros r. apply Hq. done. }
  exists fs'. split; first done. split; last done.
  intros [|n r] Hr; first done.
  rewrite Hin, kind_at_cons, find_entries by done.
  destruct (List.find _ (entry_children (node d))) as [c|]; simpl; first done.
  by apply Hempty.
Qed.

End exec_listing.

(** ** The lines of a listing *)

Lemma marker_no_break u :
  is_marker u = true → Forall (λ c, Py.islinebreak c = false) u.
Proof.
  unfold is_marker. intros [H|H]%orb_prop; apply bool_decide_eq_true in H; subst u;
    by repeat constructor.
Qed.

Lemma connector_no_break conn :
  is_connector conn = true → Forall (λ c, Py.islinebreak c = false) conn ∧ conn ≠ [].
Proof.
  unfold is_connector. intros [H|H]%orb_prop; apply bool_decide_eq_true in H;
    subst conn; split; by repeat constructor.
Qed.

Lemma entry_line_ok us conn n (dir : bool) :
  Forall (λ u, is_marker u = true) us → is_connector conn = true →
  plain_name n = true →
  entry_line us conn n dir ≠ []
  ∧ Forall (λ c, Py.islinebreak c = false) (entry_line us conn n dir).
Proof.
  intros Hus Hc Hn.
  destruct (plain_name_spec n Hn) as (_ & _ & _ & Hnb & _).
  destruct (connector_no_break conn Hc) as [Hcb Hcne].
  unfold entry_line. split.
  - intros [_ [? _]%app_eq_nil]%app_eq_nil. done.
  - rewrite !Forall_app. repeat split; try done.
    + apply Forall_concat. eapply Forall_impl; first exact Hus.
      intros u. apply marker_no_break.
    + destruct dir; by repeat constructor.
Qed.

Lemma tree_ann_lines_ok lower fnmatch pats md fuel us depth d x l :
  Forall (λ u, is_marker u = true) us → tree_ok (node d) = true →
  (x, l) ∈ _tree_ann lower fnmatch FolderForge pats md fuel d (concat us) depth →
  l ≠ [] ∧ Forall (λ c, Py.islinebreak c = false) l.
Proof.
  intros Hus Hok Hin. revert Hus Hok.
  eapply (tree_ann_elem_ind lower fnmatch FolderForge pats md
    (λ us depth d x l,
       Forall (λ u, is_marker u = true) us → tree_ok (node d) = true →
       l ≠ [] ∧ Forall (λ c, Py.islinebreak c = false) l)); last exact Hin.
  - clear. intros us depth d e conn He _ Hc Hus Hok.
    apply entry_line_ok; try done.
    by apply (tree_ok_child d e Hok), (entries_child lower fnmatch pats).
  - clear. intros us depth d e ext x l He _ _ Hext IH Hus Hok.
    apply IH.
    + apply Forall_app. split; first done. by constructor.
    + by apply (tree_ok_child d e Hok), (entries_child lower fnmatch pats).
Qed.


(** ** The language of the line grammar of [start.py] *)

Lemma startswith_spec s p : Py.startswith s p = true ↔ ∃ t, s = p ++ t.
Proof.
  revert s. induction p as [|a p IH]; intros s; simpl.
  - split; [by exists s|done].
  - destruct s as [|b s].
    + split; [done|by intros [t ?]].
    + rewrite andb_true_iff, N.eqb_eq, IH. split.
      * intros [-> [t ->]]. by exists t.
      * intros [t [= -> ->]]. split; [done|by exists t].
Qed.

Lemma name_slash_end_inv s acc n sl :
  start.name_slash_end acc s = Some (n, sl) →
  ∃ t, n = acc ++ t ∧ s = t ++ sl ∧ (47%N ∉ t) ∧ (sl = [] ∨ sl = SLASH).
Proof.
  revert acc. induction s as [|c r IH]; intros acc; simpl.
  - intros [= <- <-]. exists []. rewrite app_nil_r.
    split; [done|split; [done|split; [apply not_elem_of_nil|by left]]].
  - destruct (N.eqb_spec c 47) as [->|Hc].
    + destruct r; last done. intros [= <- <-]. exists [].
      rewrite app_nil_r.
      split; [done|split; [done|split; [apply not_elem_of_nil|by right]]].
    + intros (t & -> & -> & Ht & Hsl)%IH. exists (c :: t).
      rewrite <- app_assoc.
      split; [done|split; [done|split; [|done]]].
      rewrite not_elem_of_cons. split; [congruence|done].
Qed.

Lemma match_name_inv s n sl : start.match_name s = Some (n, sl) → named s n sl.
Proof.
  destruct s as [|c r]; first done. simpl.
  destruct (N.eqb_spec c 47) as [->|Hc]; first done.
  intros (t & -> & -> & Ht & Hsl)%name_slash_end_inv.
  split; [done|split; [done|split; [|done]]].
  change ([c] ++ t) with (c :: t). rewrite not_elem_of_cons. split; [congruence|done].
Qed.

Lemma match_name_named s n sl : named s n sl → start.match_name s = Some (n, sl).
Proof.
  intros (-> & Hne & Hn & [->| ->]).
  - apply (match_name_spec n false); done.
  - apply (match_name_spec n true); done.
Qed.

Lemma match_conn_inv alts s conn n sl :
  start.match_conn alts s = Some (conn, n, sl) →
  ∃ t, s = default [] conn ++ t ∧ named t n sl
       ∧ (∀ c, conn = Some c → c ∈ alts).
Proof.
  induction alts as [|c alts IH]; simpl.
  - destruct (start.match_name s) as [[n' sl']|] eqn:E; last done.
    intros [= <- <- <-]. exists s. split; first done. split; last done.
    by apply match_name_inv.
  - destruct (Py.startswith s c) eqn:Hs.
    + destruct (start.match_name (drop (length c) s)) as [[n' sl']|] eqn:E.
      * intros [= <- <- <-]. apply startswith_spec in Hs as [t ->].
        rewrite drop_app_length in E. exists t. split; first done.
        split; first by apply match_name_inv.
        intros ? [= <-]. apply list_elem_of_here.
      * intros (t & -> & Hn & Hc)%IH. exists t. repeat split; try apply Hn; try done.
        intros c' ->. apply list_elem_of_further. by apply Hc.
    + intros (t & -> & Hn & Hc)%IH. exists t. repeat split; try apply Hn; try done.
      intros c' ->. apply list_elem_of_further. by apply Hc.
Qed.

Lemma match_conn_complete alts s :
  is_Some (start.match_name s) → is_Some (start.match_conn alts s).
Proof.
  intros [[n sl] H]. induction alts as [|c alts IH]; simpl.
  - rewrite H. by eexists.
  - destruct (Py.startswith s c); last done.
    destruct (start.match_name (drop (length c) s)) as [[??]|]; [by eexists|done].
Qed.

Lemma LINE_RE_match_unfold s :
  start.LINE_RE_match s
  = match s with
    | a :: b :: c :: rest =>
        if start.is_unit a b c then
          match start.LINE_RE_match rest with
          | Some g => Some (start.MkGroups (a :: b :: c :: start.g_prefix g)
                              (start.g_conn g) (start.g_name g) (start.g_slash g))
          | None => (λ '(conn, n, sl), start.MkGroups [] conn n sl)
                      <$> start.match_conn start.CONNS s
          end
        else (λ '(conn, n, sl), start.MkGroups [] conn n sl)
               <$> start.match_conn start.CONNS s
    | _ => (λ '(conn, n, sl), start.MkGroups [] conn n sl)
               <$> start.match_conn start.CONNS s
    end.
Proof. destruct s as [|a [|b [|c rest]]]; reflexivity. Qed.

Lemma LINE_RE_complete s :
  is_Some (start.match_name s) → is_Some (start.LINE_RE_match s).
Proof.
  intros H. apply (match_conn_complete start.CONNS) in H as [[[conn n] sl] H].
  rewrite LINE_RE_match_unfold.
  destruct s as [|a [|b [|c rest]]]; try (rewrite H; by eexists).
  destruct (start.is_unit a b c); last (rewrite H; by eexists).
  destruct (start.LINE_RE_match rest); first by eexists.
  rewrite H; by eexists.
Qed.

Lemma LINE_RE_inv_len k : ∀ s g,
  length s ≤ k →
  start.LINE_RE_match s = Some g →
  ∃ us t, start.g_prefix g = concat us ∧ Forall (λ u, is_marker u = true) us
    ∧ s = start.g_prefix g ++ default [] (start.g_conn g) ++ t
    ∧ named t (start.g_name g) (start.g_slash g)
    ∧ (∀ c, start.g_conn g = Some c → c ∈ start.CONNS).
Proof.
  assert (∀ s g,
    (λ '(conn, n, sl), start.MkGroups [] conn n sl) <$> start.match_conn start.CONNS s = Some g →
    ∃ us t, start.g_prefix g = concat us ∧ Forall (λ u, is_marker u = true) us
    ∧ s = start.g_prefix g ++ default [] (start.g_conn g) ++ t
    ∧ named t (start.g_name g) (start.g_slash g)
    ∧ (∀ c, start.g_conn g = Some c → c ∈ start.CONNS)) as Hstop.
  { intros s g H.
    destruct (start.match_conn start.CONNS s) as [[[conn n] sl]|] eqn:E; last done.
    injection H as <-. apply match_conn_inv in E as (t & -> & Hn & Hc).
    exists [], t. split; [done|split; [constructor|split; [done|split; done]]]. }
  induction k as [|k IH]; intros s g Hlen; rewrite LINE_RE_match_unfold.
  { destruct s; last (simpl in Hlen; lia). apply Hstop. }
  destruct s as [|a [|b [|c rest]]]; try apply Hstop.
  destruct (start.is_unit a b c) eqn:Hu; last apply Hstop.
  destruct (start.LINE_RE_match rest) as [g'|] eqn:E; last apply Hstop.
  intros [= <-]. simpl.
  apply IH in E as (us & t & Hp & Hus & Hs & Hn & Hc); last (simpl in Hlen; lia).
  exists ([a; b; c] :: us), t. rewrite Hp.
  split; [done|split; [by constructor|split; [|split; done]]].
  rewrite Hs at 1. by rewrite Hp.
Qed.

Lemma lstrip_by_head_inv f s c r : Py.lstrip_by f s = c :: r → f c = false ∧ c ∈ s.
Proof.
  induction s as [|a s IH]; simpl; first done.
  destruct (f a) eqn:Ha.
  - intros [? ?]%IH. split; first done. by apply list_elem_of_further.
  - intros [= -> ->]. split; first done. apply list_elem_of_here.
Qed.


Lemma endswith_snoc_inv s c : Py.endswith s [c] = true → ∃ s', s = s' ++ [c].
Proof.
  unfold Py.endswith. simpl. destruct (rev s) as [|a r] eqn:E; first done.
  rewrite andb_true_r. intros ->%N.eqb_eq.
  exists (rev r). apply (f_equal (@rev N)) in E. rewrite rev_involutive in E.
  by rewrite E.
Qed.

Lemma removelast_subseteq {A} (x : A) (l : list A) : x ∈ removelast l → x ∈ l.
Proof.
  induction l as [|a l IH]; first done. simpl.
  destruct l as [|b l]; first by intros ?%elem_of_nil.
  intros [->|H]%elem_of_cons; [apply list_elem_of_here|].
  apply list_elem_of_further. by apply IH.
Qed.

Lemma root_re_name s :
  start.ROOT_RE_match s = true → 47%N ∉ Py.rstrip_chars SLASH s.
Proof.
  unfold start.ROOT_RE_match. intros [_ Hw]%andb_prop.
  assert (∀ l, forallb start.is_word l = true → 47%N ∉ l) as Hno.
  { intros l Hl Hin. rewrite forallb_forall in Hl.
    apply list_elem_of_In, Hl in Hin. done. }
  destruct (Py.endswith s SLASH) eqn:E.
  - apply endswith_snoc_inv in E as [s' ->].
    rewrite removelast_last in Hw. unfold Py.rstrip_chars.
    rewrite rstrip_by_drop by done.
    intros Hin%rstrip_by_subseteq. by apply (Hno s').
  - intros Hin%rstrip_by_subseteq. by apply (Hno s).
Qed.

Lemma parse_line_name line r d n isd :
  start.parse_line line = Some (r, d, n, isd) → 47%N ∉ n.
Proof.
  unfold start.parse_line.
  destruct (Py.strip line) as [|c0 s0] eqn:Es; first done.
  destruct (start.LINE_RE_match _) as [g|] eqn:E.
  - intros [= _ _ <- _].
    apply (LINE_RE_inv_len _ _ _ (Nat.le_refl _)) in E
      as (us & t & _ & _ & _ & (_ & _ & Hn & _) & _).
    assert (47%N ∉ Py.strip (start.g_name g)) as Hs.
    { intros Hx%strip_subseteq. done. }
    case_match; last done. intros Hx%removelast_subseteq. done.
  - destruct (start.ROOT_RE_match _) eqn:Er; last done. simpl.
    intros [= _ _ <- _]. by apply root_re_name.
Qed.


(** ** Where the materializers write *)

Lemma ensure_dir_frame (p : path) (fs fs' : FS) (q : path) :
  ensure_dir p fs = Some fs' → q ≠ p → fs' !! q = fs !! q.
Proof.
  unfold ensure_dir. destruct p as [|c p]; first by intros [= ->].
  destruct (fs !! (c :: p)) as [[|?]|]; intros [= <-]; try done.
  intros Hq. by rewrite lookup_insert_ne.
Qed.

Lemma mkdir_from_frame (parts cur : path) (fs fs' : FS) (q : path) :
  Forall (λ c, c ≠ DOTDOT) parts →
  mkdir_from cur parts fs = Some fs' →
  (∀ k, q ≠ cur ++ take k parts) → fs' !! q = fs !! q.
Proof.
  revert cur fs. induction parts as [|c rest IH]; intros cur fs Hp; simpl.
  { by intros [= ->]. }
  inversion_clear Hp as [|?? Hc Hrest].
  rewrite enter_plain by done.
  destruct (ensure_dir (cur ++ [c]) fs) as [fs1|] eqn:E; last done. simpl.
  intros Hm Hq. rewrite (IH _ _ Hrest Hm).
  - apply (ensure_dir_frame _ _ _ _ E). apply (Hq 1).
  - intros k. rewrite <- app_assoc. apply (Hq (S k)).
Qed.

Lemma resolve_from_plain (parts cur : path) (fs : FS) (d : path) :
  Forall (λ c, c ≠ DOTDOT) parts →
  resolve_from cur parts fs = Some d → d = cur ++ parts.
Proof.
  revert cur. induction parts as [|c rest IH]; intros cur Hp; simpl.
  { intros [= <-]. by rewrite app_nil_r. }
  inversion_clear Hp as [|?? Hc Hrest].
  rewrite enter_plain by done.
  destruct (cur ++ [c]) as [|x y] eqn:E; first by destruct cur.
  rewrite <- E. destruct (fs !! (cur ++ [c])) as [[|?]|]; try done.
  intros ->%IH; last done. by rewrite <- app_assoc.
Qed.

Lemma removelast_snoc_last {A} (p : list A) (c : A) :
  last p = Some c → removelast p ++ [c] = p.
Proof.
  intros H. destruct (decide (p = [])) as [->|Hne]; first done.
  rewrite (app_removelast_last c Hne) at 2. f_equal. f_equal.
  clear Hne. induction p as [|a p IH]; first done.
  destruct p as [|b p]; first by injection H. simpl in *. by apply IH.
Qed.

Lemma Forall_removelast {A} (P : A → Prop) (l : list A) :
  Forall P l → Forall P (removelast l).
Proof.
  induction 1 as [|a l Ha Hl IH]; first constructor. simpl.
  destruct l; first constructor. by constructor.
Qed.

Lemma open_append_frame (p : path) (fs fs' : FS) (q : path) :
  Forall (λ c, c ≠ DOTDOT) p →
  open_append p fs = Some fs' → q ≠ p → fs' !! q = fs !! q.
Proof.
  intros Hp. unfold open_append.
  destruct (last p) as [c|] eqn:El; last done.
  destruct (resolve_from [] (removelast p) fs) as [d|] eqn:Er; last done. simpl.
  apply resolve_from_plain in Er; last by apply Forall_removelast.
  simpl in Er. subst d. rewrite removelast_snoc_last by done.
  case_bool_decide; first done.
  destruct (fs !! p) as [[|?]|]; intros [= <-]; try done.
  intros Hq. by rewrite lookup_insert_ne.
Qed.

Lemma take_removelast {A} (l : list A) k :
  ∃ k', take k (removelast l) = take k' l.
Proof.
  destruct (decide (l = [])) as [->|Hne]; first by exists 0; destruct k.
  destruct (exists_last Hne) as (l' & a & ->).
  rewrite removelast_last. exists (k `min` length l').
  rewrite take_app_le by lia.
  destruct (Nat.min_spec k (length l')) as [[? ->]|[? ->]]; first done.
  by rewrite !take_ge by lia.
Qed.

Lemma perform_frame (a : action) (fs fs' : FS) (q : path) :
  Forall (λ c, c ≠ DOTDOT) (target a) →
  perform a fs = Some fs' →
  (∀ k, q ≠ take k (target a)) → fs' !! q = fs !! q.
Proof.
  destruct a as [p|p]; simpl; intros Hp.
  - intros Hm Hq. by apply (mkdir_from_frame p [] fs fs' q).
  - unfold parent_of.
    destruct (mkdir (removelast p) fs) as [fs1|] eqn:E; last done. simpl.
    intros Ho Hq. rewrite (open_append_frame p fs1 fs' q Hp Ho).
    + apply (mkdir_from_frame (removelast p) [] fs fs1 q); try done.
      * by apply Forall_removelast.
      * intros k. destruct (take_removelast p k) as [k' ->]. apply Hq.
    + specialize (Hq (length p)). by rewrite take_ge in Hq.
Qed.

Lemma exec_frame (dest : path) (acts : list action) (fs fs' : FS) (q : path) :
  Forall (λ c, c ≠ DOTDOT) dest →
  Forall (λ a, below dest (target a)) acts →
  exec acts fs = Some fs' →
  ¬ dest `prefix_of` q → ¬ q `prefix_of` dest → fs' !! q = fs !! q.
Proof.
  intros Hdest Hacts. revert fs.
  induction Hacts as [|a acts (r & Ha & Hr) _ IH]; intros fs; simpl.
  { by intros [= ->]. }
  destruct (perform a fs) as [fs1|] eqn:E; last done. simpl.
  intros Hex H1 H2. rewrite (IH _ Hex H1 H2).
  apply (perform_frame a fs fs1 q); try done.
  - rewrite Ha. by apply Forall_app.
  - intros k ->. rewrite Ha in *.
    destruct (decide (k ≤ length dest)).
    + apply H2. rewrite take_app_le by done.
      exists (drop k dest). by rewrite take_drop.
    + apply H1. rewrite take_app_ge by lia. by eexists.
Qed.

Lemma joinpath_relative (parent : path) (n : str) :
  relative_name n → joinpath parent n = parent ++ parts_of n.
Proof. intros [H _]. unfold joinpath. by rewrite H. Qed.

Lemma below_join dest p n : below dest p → relative_name n → below dest (joinpath p n).
Proof.
  intros (r & -> & Hr) Hn. rewrite joinpath_relative by done.
  exists (r ++ parts_of n). rewrite app_assoc. split; first done.
  apply Forall_app. split; first done. apply Hn.
Qed.

Lemma below_refl dest : below dest dest.
Proof. exists []. by rewrite app_nil_r. Qed.

Lemma place_below dest depth n isd (b : path) (st : list path) :
  relative_name n → below dest b → Forall (below dest) st →
  below dest (place depth n isd b st).1.1
  ∧ Forall (below dest) (place depth n isd b st).1.2
  ∧ Forall (λ a, below dest (target a)) (place depth n isd b st).2.
Proof.
  intros Hn Hb Hst. unfold place.
  destruct (length st <? depth); first done.
  assert (Forall (below dest) (take depth st)) as Htk by by apply Forall_take.
  assert (below dest (joinpath (if depth =? 0 then b
                                else default b (last (take depth st))) n)) as Ht.
  { apply below_join; last done. destruct (depth =? 0); first done.
    destruct (last (take depth st)) as [p|] eqn:El; last done. simpl.
    rewrite Forall_forall in Htk. apply Htk. rewrite last_Some in El.
    destruct El as [l' ->]. apply elem_of_app. right. apply list_elem_of_here. }
  destruct isd; simpl.
  - split; first done. split; last by repeat constructor.
    apply Forall_app. split; first done. by repeat constructor.
  - split; first done. split; first done. by repeat constructor.
Qed.

Lemma walk_from_below dest step lines :
  (∀ i raw (b : path) (st : list path),
     raw ∈ lines → below dest b → Forall (below dest) st →
     below dest (step i raw b st).1.1
     ∧ Forall (below dest) (step i raw b st).1.2
     ∧ Forall (λ a, below dest (target a)) (step i raw b st).2) →
  ∀ i (b : path) (st : list path),
    below dest b → Forall (below dest) st →
    Forall (λ a, below dest (target a)) (walk_from step i lines b st).2.
Proof.
  induction lines as [|raw rest IH]; intros Hstep i b st Hb Hst; simpl.
  { constructor. }
  destruct (Hstep i raw b st) as (H1 & H2 & H3); [apply list_elem_of_here|done|done|].
  destruct (step i raw b st) as [[b1 st1] a1]. simpl in *.
  specialize (IH (λ i raw b st H, Hstep i raw b st (list_elem_of_further _ _ _ H))
                (S i) b1 st1 H1 H2).
  destruct (walk_from step (S i) rest b1 st1) as [[b2 st2] a2]. simpl in *.
  by apply Forall_app.
Qed.

Lemma no_sep_relative n : 47%N ∉ n → n ≠ DOTDOT → relative_name n.
Proof.
  intros Hn Hd. split.
  - destruct n as [|a n]; first done.
    change (Py.startswith (a :: n) SLASH) with ((47 =? a)%N && true).
    destruct (N.eqb_spec 47 a) as [<-|]; last done.
    exfalso. apply Hn, list_elem_of_here.
  - unfold parts_of. rewrite split_no_sep by done. simpl.
    case_match; repeat constructor. done.
Qed.

Lemma start_plan_below text dest strip :
  (∀ l r d n isd, l ∈ Py.splitlines text →
     start.parse_line l = Some (r, d, n, isd) → n ≠ DOTDOT) →
  Forall (λ a, below dest (target a)) (start.plan text dest strip).
Proof.
  intros Hnames. unfold start.plan. cbn zeta.
  apply walk_from_below; [|apply below_refl|constructor].
  intros i raw b st Hraw Hb Hst. unfold start.step.
  destruct (start.parse_line raw) as [[[[r d] n] isd]|] eqn:E; last done.
  assert (relative_name n) as Hn.
  { apply no_sep_relative; [by eapply parse_line_name|by eapply Hnames]. }
  destruct (r && _).
  - destruct strip; simpl; first done.
    assert (below dest (joinpath dest n)) by (apply below_join; [apply below_refl|done]).
    split; first done. split; last by repeat constructor.
    apply Forall_app. split; first done. by repeat constructor.
  - by apply place_below.
Qed.

Lemma folderforge_plan_below text dest strip :
  (∀ l isd d n, l ∈ Py.splitlines text →
     folderforge.read_line l = Some (isd, d, n) → relative_name n) →
  Forall (λ a, below dest (target a)) (folderforge.plan text dest strip).
Proof.
  intros Hnames. unfold folderforge.plan.
  apply walk_from_below; [|apply below_refl|constructor].
  intros i raw b st Hraw Hb Hst. unfold folderforge.step.
  destruct (folderforge.read_line raw) as [[[isd d] n]|] eqn:E; last done.
  assert (relative_name n) as Hn by by eapply Hnames.
  destruct (_ && _).
  - assert (below dest (joinpath dest n)) by (apply below_join; [apply below_refl|done]).
    split; first done. split; last by repeat constructor.
    apply Forall_app. split; first done. by repeat constructor.
  - by apply place_below.
Qed.

(** ** The depth [folderforge.py] counts *)

Lemma count_bar_cont k (g : N) :
  g ≠ BOX_V →
  Py.count [BOX_V] (concat (replicate k EXT_CONT) ++ [g]) = k.
Proof.
  intros Hg. unfold Py.count. induction k as [|k IH].
  - cbn -[N.eqb]. destruct (N.eqb_spec BOX_V g); [congruence|done].
  - change (concat (replicate (S k) EXT_CONT) ++ [g])
      with (BOX_V :: 32%N :: 32%N :: (concat (replicate k EXT_CONT) ++ [g])).
    set (rest := concat (replicate k EXT_CONT) ++ [g]) in *.
    change (Py.count_from [BOX_V] (BOX_V :: 32%N :: 32%N :: rest) 0)
      with (S (Py.count_from [BOX_V] rest 0)).
    by rewrite IH.
Qed.

Lemma count_pair_cont k (g : N) :
  Py.count [32; 32]%N (concat (replicate k EXT_CONT) ++ [g]) = k.
Proof.
  unfold Py.count. induction k as [|k IH].
  - cbn -[N.eqb]. by destruct (32 =? g)%N.
  - change (concat (replicate (S k) EXT_CONT) ++ [g])
      with (BOX_V :: 32%N :: 32%N :: (concat (replicate k EXT_CONT) ++ [g])).
    set (rest := concat (replicate k EXT_CONT) ++ [g]) in *.
    change (Py.count_from [32; 32]%N (BOX_V :: 32%N :: 32%N :: rest) 0)
      with (S (Py.count_from [32; 32]%N rest 0)).
    by rewrite IH.
Qed.

Lemma count_bar_spaces n (g : N) :
  g ≠ BOX_V → Py.count [BOX_V] (replicate n 32%N ++ [g]) = 0.
Proof.
  intros Hg. unfold Py.count. induction n as [|n IH].
  - cbn -[N.eqb]. destruct (N.eqb_spec BOX_V g); [congruence|done].
  - exact IH.
Qed.

Lemma count_pair_spaces n (g : N) :
  g ≠ 32%N → Py.count [32; 32]%N (replicate n 32%N ++ [g]) = n / 2.
Proof.
  intros Hg. unfold Py.count.
  induction n as [n IH] using lt_wf_ind.
  destruct n as [|[|n]].
  - cbn -[N.eqb]. by destruct (32 =? g)%N.
  - cbn -[N.eqb]. destruct (N.eqb_spec 32 g); [congruence|]. cbn -[N.eqb]. by destruct (32 =? g)%N.
  - change (replicate (S (S n)) 32%N ++ [g]) with (32%N :: 32%N :: (replicate n 32%N ++ [g])).
    set (rest := replicate n 32%N ++ [g]) in *.
    change (Py.count_from [32; 32]%N (32%N :: 32%N :: rest) 0)
      with (S (Py.count_from [32; 32]%N rest 0)).
    unfold rest. rewrite IH by lia.
    replace (S (S n)) with (n + 1 * 2) by lia.
    rewrite Nat.div_add by done. lia.
Qed.

Lemma concat_blank k : concat (replicate k EXT_BLANK) = replicate (3 * k) 32%N.
Proof.
  induction k as [|k IH]; first done.
  replace (3 * S k) with (S (S (S (3 * k)))) by lia.
  simpl. by rewrite IH.
Qed.

Lemma prefix_depth_cont k (g : N) :
  g ≠ BOX_V →
  folderforge.prefix_depth (concat (replicate k EXT_CONT) ++ [g]) = k + k / 2.
Proof.
  intros Hg. unfold folderforge.prefix_depth.
  by rewrite count_bar_cont, count_pair_cont.
Qed.

Lemma prefix_depth_blank k (g : N) :
  g ≠ BOX_V → g ≠ 32%N →
  folderforge.prefix_depth (concat (replicate k EXT_BLANK) ++ [g]) = 3 * k / 4.
Proof.
  intros Hg Hs. unfold folderforge.prefix_depth.
  rewrite concat_blank, count_bar_spaces, count_pair_spaces by done.
  rewrite Nat.add_0_l. by rewrite Nat.Div0.div_div.
Qed.

(** ** What the listing holds *)

Section listing_facts.
Variable lower : str → str.
Variable fnmatch : str → str → bool.

(** Every labelled line, by its parts: the entry lies [length us' + 1]
    levels below the scanned directory, behind the prefix and [us'] more
    indentation units, and the directory it is in was scanned within the
    depth limit. *)
Lemma tree_ann_elem_shape v pats md fuel us depth d x l :
  (x, l) ∈ _tree_ann lower fnmatch v pats md fuel d (concat us) depth →
  ∃ q us' conn,
    rel x = rel d ++ q ∧ length q = S (length us')
    ∧ Forall (λ u, is_column v u = true) us' ∧ is_connector conn = true
    ∧ l = entry_line (us ++ us') conn (name x) (is_dir x)
    ∧ depth_exceeded md (depth + Z.of_nat (length us')) = false.
Proof.
  apply (tree_ann_elem_ind lower fnmatch v pats md
    (λ us depth d x l,
       ∃ q us' conn,
         rel x = rel d ++ q ∧ length q = S (length us')
         ∧ Forall (λ u, is_column v u = true) us' ∧ is_connector conn = true
         ∧ l = entry_line (us ++ us') conn (name x) (is_dir x)
         ∧ depth_exceeded md (depth + Z.of_nat (length us')) = false)).
  - clear. intros us depth d e conn He Hd Hc.
    exists [name e], [], conn. rewrite app_nil_r, Z.add_0_r.
    split; [by apply child_rel, (entries_child lower fnmatch pats)|].
    split; [done|]. split; [constructor|]. by split.
  - clear. intros us depth d e ext x l He Hdir Hd Hext
      (q & us' & conn & Hrel & Hlen & Hus' & Hc & -> & Hdx).
    exists (name e :: q), (ext :: us'), conn.
    apply (entries_child lower fnmatch pats), child_rel in He.
    split; [by rewrite Hrel, He, <- app_assoc|].
    split; [simpl; by rewrite Hlen|].
    split; [by constructor|]. split; [done|].
    split; [by rewrite <- app_assoc|].
    rewrite <- Hdx. f_equal. simpl length. lia.
Qed.

Lemma depth_exceeded_mono md (a b : Z) :
  (a ≤ b)%Z → depth_exceeded md b = false → depth_exceeded md a = false.
Proof.
  destruct md as [m|]; last done. simpl. rewrite !Z.ltb_ge. lia.
Qed.

(** Conversely, everything reached through [entries] within the depth limit
    has a line, once the fuel covers the height of the scanned directory. *)
Lemma visible_listed v pats md d x :
  visible lower fnmatch pats d x →
  ∀ fuel us depth,
    height (node d) ≤ fuel →
    depth_exceeded md (depth + Z.of_nat (length (rel x)) - Z.of_nat (length (rel d)) - 1)
    = false →
    ∃ l, (x, l) ∈ _tree_ann lower fnmatch v pats md fuel d (concat us) depth.
Proof.
  induction 1 as [d x Hx|d e x He Hdir Hv IH]; intros fuel us depth Hf Hd.
  - pose proof (entries_child lower fnmatch pats d x Hx) as Hc.
    pose proof (height_child d x Hc) as Hh.
    rewrite (child_rel d x Hc), length_app in Hd. simpl in Hd.
    destruct fuel as [|fuel]; first lia.
    destruct (tree_ann_head lower fnmatch v pats md fuel d us depth x) as (conn & _ & Hin);
      [|done|by eexists].
    eapply depth_exceeded_mono; last exact Hd. lia.
  - pose proof (entries_child lower fnmatch pats d e He) as Hc.
    pose proof (height_child d e Hc) as Hh.
    destruct (visible_rel lower fnmatch pats e x Hv) as (n & q & Ex).
    pose proof (child_rel d e Hc) as Ee.
    assert (Z.of_nat (length (rel x))
            = Z.of_nat (length (rel d)) + 2 + Z.of_nat (length q))%Z as Hlx.
    { rewrite Ex, Ee, !length_app. simpl. lia. }
    assert (Z.of_nat (length (rel e)) = Z.of_nat (length (rel d)) + 1)%Z as Hle.
    { rewrite Ee, length_app. simpl. lia. }
    destruct fuel as [|fuel]; first lia.
    assert (depth_exceeded md depth = false) as Hd0.
    { eapply depth_exceeded_mono; last exact Hd. lia. }
    destruct (tree_ann_shape lower fnmatch v pats md fuel d us depth Hd0)
      as (chunks & E & HF).
    apply list_elem_of_lookup in He as [i Hi].
    destruct (Forall2_lookup_l _ _ _ _ _ HF Hi)
      as (chunk & Hchunk & conn & ext & _ & _ & ->).
    rewrite Hdir in Hchunk.
    destruct (IH fuel (us ++ [ext]) (depth + 1)%Z) as [l Hl]; first lia.
    { rewrite <- Hd. f_equal. lia. }
    exists l. rewrite E. apply list_elem_of_join. eexists.
    split; last by eapply list_elem_of_lookup_2.
    by right.
Qed.

Lemma should_ignore_dir_mono e pats pats' :
  pats ⊆ pats' →
  should_ignore_dir fnmatch e pats = true → should_ignore_dir fnmatch e pats' = true.
Proof.
  intros Hsub. rewrite !should_ignore_dir_spec.
  intros (p & Hp & H). exists p. split; [by apply Hsub|done].
Qed.

Lemma entries_mono pats pats' d e :
  pats ⊆ pats' →
  e ∈ entries lower fnmatch pats' d → e ∈ entries lower fnmatch pats d.
Proof.
  intros Hsub. rewrite !entries_elem. intros [Hc Hk]. split; first done.
  destruct (is_dir e); last done. simpl in *.
  destruct (should_ignore_dir fnmatch e pats) eqn:E; last done.
  by rewrite (should_ignore_dir_mono e pats pats' Hsub E) in Hk.
Qed.

Lemma visible_mono pats pats' d x :
  pats ⊆ pats' →
  visible lower fnmatch pats' d x → visible lower fnmatch pats d x.
Proof.
  intros Hsub. induction 1 as [d x Hx|d e x He Hdir _ IH].
  - constructor. by eapply entries_mono.
  - eapply visible_below; [by eapply entries_mono|done..].
Qed.

Lemma should_ignore_dir_ext e pats pats' :
  (∀ p, p ∈ pats ↔ p ∈ pats') →
  should_ignore_dir fnmatch e pats = should_ignore_dir fnmatch e pats'.
Proof.
  intros H.
  destruct (should_ignore_dir fnmatch e pats) eqn:E1,
           (should_ignore_dir fnmatch e pats') eqn:E2; try done.
  - eapply (should_ignore_dir_mono e pats pats') in E1; [congruence|].
    intros p. apply H.
  - eapply (should_ignore_dir_mono e pats' pats) in E2; [congruence|].
    intros p. apply H.
Qed.

Lemma entries_ext pats pats' d :
  (∀ p, p ∈ pats ↔ p ∈ pats') →
  entries lower fnmatch pats d = entries lower fnmatch pats' d.
Proof.
  intros H. unfold entries. f_equal.
  induction (iterdir d) as [|e l IH]; first done.
  simpl. by rewrite (should_ignore_dir_ext e pats pats' H), IH.
Qed.

Lemma tree_ext v pats pats' md fuel :
  (∀ p, p ∈ pats ↔ p ∈ pats') →
  ∀ d prefix depth,
    _tree lower fnmatch v pats md fuel d prefix depth
    = _tree lower fnmatch v pats' md fuel d prefix depth.
Proof.
  intros H. induction fuel as [|fuel IH]; intros d prefix depth; first done.
  simpl. destruct (depth_exceeded md depth); first done.
  rewrite (entries_ext pats pats' d H). f_equal. apply imap_ext. intros i e _.
  simpl. rewrite (should_ignore_dir_ext e pats pats' H).
  destruct (is_dir e && should_ignore_dir fnmatch e pats'); first done.
  f_equal. destruct (is_dir e); last done. apply IH.
Qed.

Lemma listed_iff v root pats md x :
  (∃ l, (x, l) ∈ tree_lines_ann lower fnmatch v root pats md)
  ↔ visible lower fnmatch pats (MkPath [] root) x
    ∧ match md with
      | None => True
      | Some k => (1 ≤ k)%Z ∧ (Z.of_nat (length (rel x)) ≤ k + 1)%Z
      end.
Proof.
  unfold tree_lines_ann. split.
  - intros [l Hin].
    assert ((x, l) ∈ _tree_ann lower fnmatch v pats md (height root) (MkPath [] root)
                       (concat []) 0 ∧ match md with Some k => (1 ≤ k)%Z | None => True end)
      as [Hin' Hk].
    { destruct md as [k|]; last done.
      destruct (Z.ltb_spec 0 k); last by apply elem_of_nil in Hin.
      split; [done|lia]. }
    split; first by eapply tree_ann_visible.
    apply tree_ann_elem_shape in Hin'
      as (q & us' & conn & Hrel & Hlen & _ & _ & _ & Hd).
    destruct md as [k|]; last done. split; first done.
    simpl in Hd, Hrel. apply Z.ltb_ge in Hd. rewrite Hrel, Hlen. lia.
  - intros [Hv Hk].
    destruct (visible_listed v pats md (MkPath [] root) x Hv (height root) [] 0%Z)
      as [l Hl]; first done.
    { destruct md as [k|]; last done. simpl. apply Z.ltb_ge. lia. }
    exists l. destruct md as [k|]; last done.
    destruct (Z.ltb_spec 0 k); [done|lia].
Qed.

End listing_facts.

Lemma names_distinct_child d e :
  names_distinct (node d) = true → child d e → names_distinct (node e) = true.
Proof.
  unfold child, iterdir. intros Hd (c & -> & Hc)%list_elem_of_fmap.
  destruct (node d) as [n|n cs]; first by apply elem_of_nil in Hc.
  simpl in *. apply andb_prop in Hd as [_ Hcs].
  rewrite forallb_forall in Hcs. by apply list_elem_of_In, Hcs in Hc.
Qed.

Lemma names_distinct_nodup d :
  names_distinct (node d) = true → NoDup (name <$> iterdir d).
Proof.
  unfold iterdir. intros Hd. rewrite <- list_fmap_compose.
  destruct (node d) as [n|n cs]; first constructor.
  simpl in *. apply andb_prop in Hd as [Hnd _].
  by apply bool_decide_eq_true in Hnd.
Qed.

Section nodup.
Variable lower : str → str.
Variable fnmatch : str → str → bool.

Lemma entries_names_nodup pats d :
  names_distinct (node d) = true → NoDup (name <$> entries lower fnmatch pats d).
Proof.
  intros Hd. unfold entries. rewrite sorted_perm.
  eapply sublist_NoDup; first by apply names_distinct_nodup.
  apply fmap_sublist, filter_sublist.
Qed.

Lemma tree_ann_nodup v pats md fuel :
  ∀ d us depth,
    names_distinct (node d) = true →
    NoDup (rel <$> (_tree_ann lower fnmatch v pats md fuel d (concat us) depth).*1).
Proof.
  induction fuel as [|fuel IH]; intros d us depth Hok; first constructor.
  destruct (depth_exceeded md depth) eqn:Hd.
  { simpl. rewrite Hd. constructor. }
  destruct (tree_ann_shape lower fnmatch v pats md fuel d us depth Hd)
    as (chunks & -> & HF).
  pose proof (entries_names_nodup pats d Hok) as Hnd.
  assert (Forall (λ e, child d e) (entries lower fnmatch pats d)) as Hch.
  { apply Forall_forall. intros e He. by eapply entries_child. }
  revert Hnd Hch.
  assert (∀ es cs,
    Forall2 (λ e chunk, ∃ conn ext,
        is_connector conn = true ∧ is_column v ext = true
        ∧ chunk = (e, entry_line us conn (name e) (is_dir e))
                  :: (if is_dir e then
                        _tree_ann lower fnmatch v pats md fuel e
                          (concat (us ++ [ext])) (depth + 1)
                      else [])) es cs →
    NoDup (name <$> es) → Forall (λ e, child d e) es →
    NoDup (rel <$> (mjoin cs).*1)
    ∧ ∀ y, y ∈ (mjoin cs).*1 → ∃ e q, e ∈ es ∧ rel y = rel d ++ name e :: q) as Hgen.
  { clear HF. intros es cs HF.
    induction HF as [|e chunk es cs (conn & ext & _ & _ & ->) _ IHF]; intros Hnd Hch.
    { split; first constructor. intros y Hy. by apply elem_of_nil in Hy. }
    rewrite fmap_cons in Hnd. apply NoDup_cons in Hnd as [Hne Hnd].
    inversion_clear Hch as [|?? He Hes].
    destruct (IHF Hnd Hes) as [IH1 IH2].
    set (sub := if is_dir e
                then _tree_ann lower fnmatch v pats md fuel e
                       (concat (us ++ [ext])) (depth + 1)
                else []).
    pose proof (child_rel d e He) as Hrel.
    assert (∀ y, y ∈ sub.*1 → ∃ q, q ≠ [] ∧ rel y = rel e ++ q) as Hsub.
    { intros y ([y' l] & -> & Hy)%list_elem_of_fmap. unfold sub in Hy.
      destruct (is_dir e); last by apply elem_of_nil in Hy.
      apply tree_ann_elem_shape in Hy as (q & us' & _ & Hq & Hl & _).
      exists q. split; last done. by destruct q. }
    assert (NoDup (rel <$> sub.*1)) as Hnsub.
    { unfold sub. destruct (is_dir e); last constructor.
      apply IH. by eapply names_distinct_child. }
    assert (∀ y, y ∈ e :: sub.*1 → ∃ q, rel y = rel d ++ name e :: q) as Hhead.
    { intros y [->|Hy]%elem_of_cons.
      - exists []. by rewrite Hrel.
      - destruct (Hsub y Hy) as (q & _ & ->). exists q.
        by rewrite Hrel, <- app_assoc. }
    change (mjoin (((e, entry_line us conn (name e) (is_dir e)) :: sub) :: cs))
      with (((e, entry_line us conn (name e) (is_dir e)) :: sub) ++ mjoin cs).
    rewrite !fmap_app, !fmap_cons. cbn [fst]. split.
    - apply NoDup_app. split; [|split; [|done]].
      + apply NoDup_cons. split; last done.
        intros (y & Ey & Hy)%list_elem_of_fmap.
        destruct (Hsub y Hy) as (q & Hq & Eq). rewrite Eq in Ey.
        rewrite <- (app_nil_r (rel e)) in Ey at 1.
        apply app_inv_head in Ey. congruence.
      + intros r Hr (y' & -> & Hy')%list_elem_of_fmap.
        change (rel e :: (rel <$> sub.*1)) with (rel <$> (e :: sub.*1)) in Hr.
        apply list_elem_of_fmap in Hr as (y & Ey & Hy).
        destruct (Hhead y Hy) as (q & Eq).
        destruct (IH2 y' Hy') as (e' & q' & He' & Eq').
        rewrite Ey, Eq in Eq'. apply app_inv_head in Eq'.
        injection Eq' as Hn _. apply Hne. rewrite Hn.
        apply list_elem_of_fmap. by exists e'.
    - intros y [Hy|Hy]%elem_of_app.
      + destruct (Hhead y Hy) as (q & Eq). exists e, q. split; [left|done].
      + destruct (IH2 y Hy) as (e' & q' & He' & Eq'). exists e', q'.
        split; [by right|done]. }
  intros Hnd Hch. by apply (Hgen _ _ HF).
Qed.

End nodup.

Lemma Forall2_mjoin_imap {A B C} (R : B → C → Prop)
    (f : nat → A → list B) (g : nat → A → list C) (l : list A) :
  (∀ i x, l !! i = Some x → Forall2 R (f i x) (g i x)) →
  Forall2 R (mjoin (imap f l)) (mjoin (imap g l)).
Proof.
  revert f g. induction l as [|x l IH]; intros f g H; first constructor.
  rewrite !imap_cons. simpl. apply Forall2_app; first by apply (H 0).
  apply IH. intros i y Hy. by apply (H (S i)).
Qed.

Lemma extension_plain_spaces (i len : nat) :
  i < len →
  plain_spaces (extension Start (Z.of_nat i) (Z.of_nat len))
  = extension FolderForge (Z.of_nat i) (Z.of_nat len).
Proof.
  intros Hi. simpl.
  destruct (Z.eqb_spec (Z.of_nat i) (Z.of_nat len - 1)),
           (Z.ltb_spec (Z.of_nat i) (Z.of_nat len - 1)); try done; lia.
Qed.

Section encoders.
Variable lower : str → str.
Variable fnmatch : str → str → bool.

Lemma tree_ann_same_but_spaces pats md fuel :
  ∀ d us depth,
    Forall (λ u, is_column Start u = true) us →
    Forall2 same_but_spaces
      (_tree_ann lower fnmatch Start pats md fuel d (concat us) depth)
      (_tree_ann lower fnmatch FolderForge pats md fuel d
         (concat (plain_spaces <$> us)) depth).
Proof.
  induction fuel as [|fuel IH]; intros d us depth Hus; first constructor.
  cbn [_tree_ann]. destruct (depth_exceeded md depth); first constructor.
  apply Forall2_mjoin_imap. intros i e Hi.
  destruct (is_dir e && should_ignore_dir fnmatch e pats); first constructor.
  apply lookup_lt_Some in Hi.
  constructor.
  - split; first done. cbn [fst snd].
    exists us, (if (Z.of_nat i =? Z.of_nat (length (entries lower fnmatch pats d)) - 1)%Z
                then CONN_LAST else CONN_MID).
    split; first done. split; first by case_match. done.
  - destruct (is_dir e); last constructor.
    rewrite <- extension_plain_spaces by done.
    specialize (IH e (us ++ [extension Start (Z.of_nat i)
                               (Z.of_nat (length (entries lower fnmatch pats d)))])
                  (depth + 1)%Z).
    assert (∀ (l : list str) (x : str), concat (l ++ [x]) = concat l ++ x) as Hsnoc.
    { intros l x. rewrite concat_app. simpl. by rewrite app_nil_r. }
    rewrite fmap_app in IH. change (plain_spaces <$> [?x]) with [plain_spaces x] in IH.
    rewrite !Hsnoc in IH.
    apply IH. apply Forall_app. split; first done.
    constructor; last done. apply extension_column.
Qed.


End encoders.

Lemma all_names_root P e : all_names P e = true → P (entry_name e) = true.
Proof. destruct e; simpl; by intros [? _]%andb_prop. Qed.

Lemma all_names_child P d e :
  all_names P (node d) = true → child d e → all_names P (node e) = true.
Proof.
  unfold child, iterdir. intros Hd (c & -> & Hc)%list_elem_of_fmap.
  destruct (node d) as [n|n cs]; first by apply elem_of_nil in Hc.
  simpl in *. apply andb_prop in Hd as [_ Hcs].
  rewrite forallb_forall in Hcs. by apply list_elem_of_In, Hcs in Hc.
Qed.

Lemma no_break_Forall n :
  no_break n = true → Forall (λ c, Py.islinebreak c = false) n.
Proof.
  unfold no_break. rewrite forallb_forall, Forall_forall.
  intros H c Hc. apply list_elem_of_In, H in Hc. by apply negb_true_iff.
Qed.

Lemma column_no_break v u :
  is_column v u = true → Forall (λ c, Py.islinebreak c = false) u.
Proof.
  destruct v; simpl; first apply marker_no_break.
  intros [H|H]%orb_prop; apply bool_decide_eq_true in H; subst u;
    by repeat constructor.
Qed.

Lemma entry_line_no_break v us conn n (dir : bool) :
  Forall (λ u, is_column v u = true) us → is_connector conn = true →
  no_break n = true →
  entry_line us conn n dir ≠ []
  ∧ Forall (λ c, Py.islinebreak c = false) (entry_line us conn n dir).
Proof.
  intros Hus Hc Hn.
  destruct (connector_no_break conn Hc) as [Hcb Hcne].
  unfold entry_line. split.
  - intros [_ [? _]%app_eq_nil]%app_eq_nil. done.
  - rewrite !Forall_app. repeat split; try done.
    + apply Forall_concat. eapply Forall_impl; first exact Hus.
      intros u. apply column_no_break.
    + by apply no_break_Forall.
    + destruct dir; by repeat constructor.
Qed.

Section lines.
Variable lower : str → str.
Variable fnmatch : str → str → bool.

Lemma tree_ann_lines_no_break v pats md fuel us depth d x l :
  Forall (λ u, is_column v u = true) us → all_names no_break (node d) = true →
  (x, l) ∈ _tree_ann lower fnmatch v pats md fuel d (concat us) depth →
  l ≠ [] ∧ Forall (λ c, Py.islinebreak c = false) l.
Proof.
  intros Hus Hok Hin. revert Hus Hok.
  eapply (tree_ann_elem_ind lower fnmatch v pats md
    (λ us depth d x l,
       Forall (λ u, is_column v u = true) us → all_names no_break (node d) = true →
       l ≠ [] ∧ Forall (λ c, Py.islinebreak c = false) l)); last exact Hin.
  - clear. intros us depth d e conn He _ Hc Hus Hok.
    apply (entry_line_no_break v); try done.
    apply all_names_root. apply (all_names_child _ d e Hok).
    by apply (entries_child lower fnmatch pats).
  - clear. intros us depth d e ext x l He _ _ Hext IH Hus Hok.
    apply IH.
    + apply Forall_app. split; first done. by constructor.
    + apply (all_names_child _ d e Hok). by apply (entries_child lower fnmatch pats).
Qed.

Lemma splitlines_write_tree v root pats md :
  all_names no_break root = true →
  Py.splitlines (write_tree lower fnmatch v root pats md)
  = tree_lines lower fnmatch v root pats md.
Proof.
  intros Hok. unfold write_tree. apply splitlines_join.
  rewrite tree_lines_ann_lines. apply Forall_app. split.
  - assert (entry_name root ++ SLASH ≠ []
            ∧ Forall (λ c, Py.islinebreak c = false) (entry_name root ++ SLASH)) as Hroot.
    { split; first by destruct (entry_name root).
      apply Forall_app. split; last by repeat constructor.
      by apply no_break_Forall, all_names_root. }
    destruct md as [m|]; last by constructor.
    destruct (0 <=? m)%Z; by constructor.
  - apply Forall_forall. intros l ([x l'] & -> & Hin)%list_elem_of_fmap.
    unfold tree_lines_ann in Hin.
    assert ((x, l') ∈ _tree_ann lower fnmatch v pats md (height root) (MkPath [] root)
                        (concat []) 0) as Hin'.
    { destruct md as [m|]; last done.
      destruct (0 <? m)%Z; [done|by apply elem_of_nil in Hin]. }
    by apply (tree_ann_lines_no_break v pats md _ [] _ (MkPath [] root)) in Hin'.
Qed.

End lines.

Lemma tree_ok_no_break e : tree_ok e = true → all_names no_break e = true.
Proof.
  assert (∀ n, plain_name n = true → no_break n = true) as Hn.
  { intros n (_ & _ & _ & H & _)%plain_name_spec. unfold no_break.
    apply forallb_forall. intros c Hc%list_elem_of_In.
    rewrite Forall_forall in H. apply negb_true_iff. by apply H. }
  revert e. fix IH 1. intros [n|n cs]; simpl.
  - intros [H _]%andb_prop. by rewrite Hn.
  - intros [H [_ Hcs]%andb_prop]%andb_prop. rewrite Hn by done. simpl.
    induction cs as [|c cs IHcs]; first done. simpl in *.
    apply andb_prop in Hcs as [Hc Hcs]. rewrite IH by done. simpl. by apply IHcs.
Qed.

Section plan_listing.
Variable lower : str → str.
Variable fnmatch : str → str → bool.

Lemma start_plan_listing root pats md (dest : path) (strip : bool) :
  tree_ok root = true → plain_root (entry_name root) = true →
  match md with Some k => (0 ≤ k)%Z | None => True end →
  start.plan (write_tree lower fnmatch FolderForge root pats md) dest strip
  = (if strip then [] else [MkDir (dest ++ [entry_name root])])
    ++ (act (if strip then dest else dest ++ [entry_name root])
          <$> (tree_lines_ann lower fnmatch FolderForge root pats md).*1).
Proof.
  intros Hok Hroot Hmd.
  set (rn := entry_name root).
  assert (plain_name rn = true) as Hrn.
  { unfold rn. destruct root; simpl in *; by apply andb_prop in Hok as [? _]. }
  destruct (plain_name_spec rn Hrn) as (Hne & Hs & Hnl & Hnb & He & _ & Hdd).
  set (base := if strip then dest else dest ++ [rn]).
  set (L := tree_lines_ann lower fnmatch FolderForge root pats md).
  assert (Py.splitlines (write_tree lower fnmatch FolderForge root pats md)
          = (rn ++ SLASH) :: L.*2) as Hlines.
  { rewrite splitlines_write_tree by by apply tree_ok_no_break.
    rewrite tree_lines_ann_lines. fold L. fold rn.
    destruct md as [k|]; last done.
    by rewrite (proj2 (Z.leb_le 0 k)). }
  assert (∃ st' : list path,
            walk_from (start.step dest strip true) 1 L.*2 base
              (if strip then [] else [dest ++ [rn]])
            = (base, st', act base <$> L.*1)) as [st' Hwalk].
  { unfold L, tree_lines_ann.
    destruct (walk_listing lower fnmatch pats md dest strip base (height root)
                (MkPath [] root) [] 0%Z (if strip then [] else [dest ++ [rn]]) 1)
      as (st' & Hwalk & _); [done|done|simpl; lia|by rewrite app_nil_r|].
    destruct md as [k|]; last by exists st'.
    destruct (0 <? k)%Z; first by exists st'.
    by eexists. }
  unfold start.plan. rewrite Hlines. cbn zeta.
  assert (start.first_line_is_root ((rn ++ SLASH) :: L.*2) = true) as ->.
  { simpl. by rewrite (parse_line_root rn true). }
  cbn [walk_from]. unfold start.step at 1.
  rewrite (parse_line_root rn true) by done. cbn [andb].
  rewrite joinpath_plain by done.
  unfold base in Hwalk |- *. destruct strip; simpl negb; cbv iota.
  - by rewrite Hwalk.
  - change ([] ++ [dest ++ [rn]]) with [dest ++ [rn]]. by rewrite Hwalk.
Qed.

End plan_listing.

Lemma column_no_sep v u : is_column v u = true → 47%N ∉ u.
Proof.
  destruct v; simpl; unfold is_marker;
    intros [H|H]%orb_prop; apply bool_decide_eq_true in H; subst u; by_compute.
Qed.

Lemma connector_no_sep conn : is_connector conn = true → 47%N ∉ conn.
Proof.
  unfold is_connector.
  intros [H|H]%orb_prop; apply bool_decide_eq_true in H; subst conn; by_compute.
Qed.

Lemma columns_no_sep v us :
  Forall (λ u, is_column v u = true) us → 47%N ∉ concat us.
Proof.
  induction 1 as [|u us Hu _ IH]; simpl; first by apply not_elem_of_nil.
  rewrite elem_of_app. intros [H|H]; last done. by apply (column_no_sep v u).
Qed.

Lemma LINE_RE_not_unit a b c rest :
  start.is_unit a b c = false →
  start.LINE_RE_match (a :: b :: c :: rest)
  = (λ '(conn, n, sl), start.MkGroups [] conn n sl)
      <$> start.match_conn start.CONNS (a :: b :: c :: rest).
Proof. intros H. rewrite LINE_RE_match_unfold. by rewrite H. Qed.

(** A line of the listing of [start.py] behind at least one indentation
    unit: [parse_line] takes the whole line for the name of a root line. *)
Lemma parse_line_nbsp_line u us conn n (dir : bool) :
  is_column Start u = true → Forall (λ u, is_column Start u = true) us →
  is_connector conn = true → plain_name n = true →
  start.parse_line (entry_line (u :: us) conn n dir)
  = Some (true, 0, Py.strip (concat (u :: us) ++ conn ++ n), dir).
Proof.
  intros Hu Hus Hc Hn.
  destruct (plain_name_spec n Hn) as (Hne & Hs & Hnl & _ & He & _ & _).
  destruct (connector_glyph conn Hc) as (g & -> & Hg & _ & _).
  set (conn := [g; BOX_H; 32%N]) in *.
  set (whole := concat (u :: us) ++ conn ++ n).
  assert (47%N ∉ whole) as Hw.
  { unfold whole. rewrite !not_elem_of_app. split; [|split; [|done]].
    - apply (columns_no_sep Start). by constructor.
    - by apply connector_no_sep. }
  assert (g ∈ whole) as Hgw.
  { unfold whole. rewrite !elem_of_app. right. left. apply list_elem_of_here. }
  assert (entry_line (u :: us) conn n dir = whole ++ (if dir then SLASH else [])) as El.
  { unfold entry_line, whole. by rewrite <- !app_assoc. }
  unfold start.parse_line.
  assert (Py.strip (entry_line (u :: us) conn n dir) ≠ []) as Hstrip.
  { apply (strip_nonempty g); last done. rewrite El, elem_of_app. by left. }
  destruct (Py.strip (entry_line (u :: us) conn n dir)) as [|c0 s0] eqn:Es; first done.
  clear Es Hstrip.
  assert (Py.rstrip_chars NEWLINE (entry_line (u :: us) conn n dir)
          = entry_line (u :: us) conn n dir) as ->.
  { destruct (entry_line_snoc (u :: us) conn n dir Hne) as (s & c & -> & Hlast).
    apply rstrip_chars_last. intros ->%list_elem_of_singleton.
    destruct dir; first done. apply Hnl. apply last_Some in Hlast as [l' ->].
    apply elem_of_app. right. apply list_elem_of_here. }
  assert (start.LINE_RE_match (entry_line (u :: us) conn n dir)
          = Some (start.MkGroups [] None whole (if dir then SLASH else []))) as ->.
  { assert (whole ≠ []) as Hwne by (by intros E; rewrite E in Hgw; apply elem_of_nil in Hgw).
    pose proof (match_name_spec whole dir Hwne Hw) as Hm.
    rewrite El. revert Hm. unfold whole at 1 3.
    assert (∃ a b c, u = [a; b; c] ∧ start.is_unit a b c = false
                     ∧ a ≠ 0x251C%N ∧ a ≠ 0x2514%N) as (a & b & c & -> & Hnu & Ha1 & Ha2).
    { simpl in Hu. apply orb_prop in Hu as [H|H]; apply bool_decide_eq_true in H;
        subst u; by eexists _, _, _. }
    simpl concat. rewrite <- !app_assoc. simpl app. intros Hm.
    rewrite LINE_RE_not_unit by done.
    rewrite match_conn_none by done. by rewrite Hm. }
  cbn [start.g_prefix start.g_conn start.g_name start.g_slash].
  rewrite !bool_decide_eq_true_2 by done. cbn [andb].
  assert (Py.endswith (Py.strip whole) SLASH = false) as ->.
  { destruct (Py.endswith (Py.strip whole) SLASH) eqn:E; last done.
    apply endswith_elem, strip_subseteq in E. done. }
  rewrite andb_false_r. by destruct dir.
Qed.

Section decode_lines.
Variable lower : str → str.
Variable fnmatch : str → str → bool.

Lemma tree_ann_plain_name v pats md fuel us depth d x l :
  tree_ok (node d) = true →
  (x, l) ∈ _tree_ann lower fnmatch v pats md fuel d (concat us) depth →
  plain_name (name x) = true.
Proof.
  intros Hok Hin. revert Hok.
  eapply (tree_ann_elem_ind lower fnmatch v pats md
    (λ us depth d x l, tree_ok (node d) = true → plain_name (name x) = true));
    last exact Hin.
  - clear. intros us depth d e conn He _ _ Hok.
    by apply (tree_ok_child d e Hok), (entries_child lower fnmatch pats).
  - clear. intros us depth d e ext x l He _ _ _ IH Hok. apply IH.
    by apply (tree_ok_child d e Hok), (entries_child lower fnmatch pats).
Qed.

Lemma tree_lines_ann_elem v root pats md x l :
  (x, l) ∈ tree_lines_ann lower fnmatch v root pats md →
  (x, l) ∈ _tree_ann lower fnmatch v pats md (height root) (MkPath [] root) (concat []) 0.
Proof.
  unfold tree_lines_ann. destruct md as [m|]; last done.
  destruct (0 <? m)%Z; [done|by intros ?%elem_of_nil].
Qed.

(** The parts of a labelled line of the whole listing. *)
Lemma tree_lines_ann_shape v root pats md x l :
  (x, l) ∈ tree_lines_ann lower fnmatch v root pats md →
  ∃ us conn,
    length (rel x) = S (length us)
    ∧ Forall (λ u, is_column v u = true) us ∧ is_connector conn = true
    ∧ l = entry_line us conn (name x) (is_dir x).
Proof.
  intros (q & us & conn & Hrel & Hlen & Hus & Hc & -> & _)%tree_lines_ann_elem
         %tree_ann_elem_shape.
  exists us, conn. simpl in Hrel. by rewrite Hrel.
Qed.

Lemma folderforge_listing_parsed root pats md x l :
  tree_ok root = true →
  (x, l) ∈ tree_lines_ann lower fnmatch FolderForge root pats md →
  start.parse_line l = Some (false, length (rel x) - 1, name x, is_dir x)
  ∧ ∃ d, folderforge.read_line l = Some (is_dir x, d, name x).
Proof.
  intros Hok Hin.
  pose proof (tree_ann_plain_name _ _ _ _ [] _ (MkPath [] root) _ _ Hok
                (tree_lines_ann_elem _ _ _ _ _ _ Hin)) as Hn.
  destruct (tree_lines_ann_shape _ _ _ _ _ _ Hin) as (us & conn & Hlen & Hus & Hc & ->).
  destruct (plain_name_spec _ Hn) as (Hne & Hs & Hnl & _ & He & _ & _).
  split.
  - rewrite parse_line_entry by done. rewrite strip_edges by done.
    do 4 f_equal. lia.
  - eexists. by apply read_line_entry.
Qed.

Lemma start_listing_misread root pats md x l :
  tree_ok root = true →
  (x, l) ∈ tree_lines_ann lower fnmatch Start root pats md →
  2 ≤ length (rel x) →
  ∃ nm, start.parse_line l = Some (true, 0, nm, is_dir x).
Proof.
  intros Hok Hin Hlen.
  pose proof (tree_ann_plain_name _ _ _ _ [] _ (MkPath [] root) _ _ Hok
                (tree_lines_ann_elem _ _ _ _ _ _ Hin)) as Hn.
  destruct (tree_lines_ann_shape _ _ _ _ _ _ Hin) as (us & conn & Hl & Hus & Hc & ->).
  destruct us as [|u us]; first (simpl in Hl; lia).
  inversion_clear Hus. eexists. by apply parse_line_nbsp_line.
Qed.

End decode_lines.

(** ** The ignore file and the command line *)

Lemma lstrip_by_suffix f s : ∃ w, s = w ++ Py.lstrip_by f s.
Proof.
  induction s as [|c s [w IH]]; first by exists [].
  simpl. destruct (f c); last by exists [].
  exists (c :: w). simpl. by rewrite <- IH.
Qed.

Lemma rstrip_by_prefix f s : ∃ w, s = Py.rstrip_by f s ++ w.
Proof.
  unfold Py.rstrip_by. destruct (lstrip_by_suffix f (rev s)) as [w Hw].
  exists (rev w). rewrite <- rev_app_distr, <- Hw. by rewrite rev_involutive.
Qed.

Lemma rstrip_by_last_inv f s c : last (Py.rstrip_by f s) = Some c → f c = false.
Proof.
  unfold Py.rstrip_by. destruct (Py.lstrip_by f (rev s)) as [|a r] eqn:E; first done.
  apply lstrip_by_head_inv in E as [Ha _]. simpl.
  rewrite last_snoc. by intros [= <-].
Qed.

(** What [strip] returns has no white space at either end. *)
Lemma strip_no_edge_space s : no_edge_space (Py.strip s) = true.
Proof.
  unfold no_edge_space, Py.strip, Py.strip_by. apply andb_true_intro. split.
  - destruct (Py.rstrip_by Py.isspace (Py.lstrip_by Py.isspace s)) as [|c r] eqn:E;
      first done.
    destruct (rstrip_by_prefix Py.isspace (Py.lstrip_by Py.isspace s)) as [w Hw].
    rewrite E in Hw. simpl in Hw.
    apply lstrip_by_head_inv in Hw as [-> _]. done.
  - destruct (last (Py.rstrip_by Py.isspace (Py.lstrip_by Py.isspace s))) as [c|] eqn:E;
      last done.
    apply rstrip_by_last_inv in E. by rewrite E.
Qed.

Lemma load_ignore_patterns_fold ignore lines :
  foldl (λ patterns line,
           let line := Py.strip line in
           if bool_decide (line = []) || Py.startswith line HASH then patterns
           else patterns ++ [line]) ignore lines
  = ignore
    ++ List.filter (λ p, negb (bool_decide (p = []) || Py.startswith p HASH))
         (Py.strip <$> lines).
Proof.
  revert ignore. induction lines as [|l lines IH]; intros ignore; simpl.
  { by rewrite app_nil_r. }
  rewrite IH. destruct (bool_decide (Py.strip l = []) || _); simpl; first done.
  by rewrite <- app_assoc.
Qed.

Lemma load_ignore_patterns_file ignore text :
  ∃ ps,
    load_ignore_patterns ignore (Some text) = ignore ++ ps
    ∧ (∀ p, p ∈ ps ↔ ∃ line, line ∈ Py.splitlines text ∧ p = Py.strip line
                        ∧ p ≠ [] ∧ Py.startswith p HASH = false)
    ∧ Forall (λ p, no_edge_space p = true) ps.
Proof.
  eexists. split; [apply load_ignore_patterns_fold|]. split.
  - intros p. rewrite list_elem_of_In, filter_In, <- list_elem_of_In.
    rewrite list_elem_of_fmap, negb_true_iff, orb_false_iff, bool_decide_eq_false.
    split.
    + intros [(line & -> & Hl) [Hne Hh]]. by exists line.
    + intros (line & Hl & -> & Hne & Hh). split; [by exists line|done].
  - apply Forall_forall. intros p Hp.
    rewrite list_elem_of_In, filter_In, <- list_elem_of_In in Hp.
    destruct Hp as [(line & -> & _)%list_elem_of_fmap _].
    apply strip_no_edge_space.
Qed.

Lemma ensure_dir_made (p : path) (fs fs' : FS) :
  p ≠ [] → ensure_dir p fs = Some fs' → fs' !! p = Some DirNode.
Proof.
  unfold ensure_dir. destruct p as [|c p]; first done. intros _.
  destruct (fs !! (c :: p)) as [[|?]|] eqn:E; intros [= <-]; try done.
  apply lookup_insert_eq.
Qed.

Lemma mkdir_from_made (parts cur : path) (fs fs' : FS) :
  Forall (λ c, c ≠ DOTDOT) parts →
  mkdir_from cur parts fs = Some fs' →
  ∀ k, 0 < k ≤ length parts → fs' !! (cur ++ take k parts) = Some DirNode.
Proof.
  revert cur fs. induction parts as [|c rest IH]; intros cur fs Hp; simpl.
  { intros _ k Hk. lia. }
  inversion_clear Hp as [|?? Hc Hrest].
  rewrite enter_plain by done.
  destruct (ensure_dir (cur ++ [c]) fs) as [fs1|] eqn:E; last done. simpl.
  intros Hm k Hk. destruct k as [|[|k]]; first lia.
  - simpl. apply ensure_dir_made in E; last by destruct cur.
    destruct (mkdir_from_grows _ _ _ _ Hm) as [Hsub _].
    by eapply lookup_weaken.
  - change (take (S (S k)) (c :: rest)) with (c :: take (S k) rest).
    replace (cur ++ c :: take (S k) rest) with ((cur ++ [c]) ++ take (S k) rest)
      by by rewrite <- app_assoc.
    apply (IH _ _ Hrest Hm). lia.
Qed.

Lemma mkdir_made (p : path) (fs fs' : FS) :
  Forall (λ c, c ≠ DOTDOT) p → mkdir p fs = Some fs' → dir_chain fs' p.
Proof.
  intros Hp Hm k Hk. by apply (mkdir_from_made p [] fs fs' Hp Hm k).
Qed.

Lemma exec_again (acts : list action) (fs fs' : FS) :
  exec acts fs = Some fs' → exec acts fs' = Some fs'.
Proof. intros [_ H]%exec_grows. by apply H. Qed.


Lemma strip_spaces k : Py.strip (replicate k 32%N) = [].
Proof.
  unfold Py.strip, Py.strip_by.
  assert (Py.lstrip_by Py.isspace (replicate k 32%N) = []) as ->; last done.
  induction k as [|k IH]; first done. exact IH.
Qed.

Lemma rstrip_spaces s k : Py.rstrip (s ++ replicate k 32%N) = Py.rstrip s.
Proof.
  induction k as [|k IH]; first by rewrite app_nil_r.
  rewrite replicate_S_end, app_assoc. unfold Py.rstrip in *.
  by rewrite rstrip_by_drop.
Qed.

Lemma parse_line_blank_name conn k :
  is_connector conn = true →
  start.parse_line (conn ++ replicate (S k) 32%N) = Some (false, 0, [], false).
Proof.
  intros Hc.
  pose proof (parse_line_entry [] conn (replicate (S k) 32%N) false) as H.
  change (entry_line [] conn (replicate (S k) 32%N) false)
    with (conn ++ replicate (S k) 32%N ++ []) in H.
  rewrite app_nil_r in H. rewrite H; try done.
  - by rewrite strip_spaces.
  - intros [? _]%elem_of_replicate. done.
  - intros [? _]%elem_of_replicate. done.
Qed.

Lemma read_line_blank_name conn k :
  is_connector conn = true →
  folderforge.read_line (conn ++ replicate k 32%N) = Some (false, 0, []).
Proof.
  intros Hc. destruct (connector_glyph conn Hc) as (g & -> & Hg & Hh & Hv).
  unfold folderforge.read_line. rewrite rstrip_spaces.
  assert (Py.rstrip [g; BOX_H; 32%N] = [g; BOX_H]) as ->.
  { unfold Py.rstrip. change [g; BOX_H; 32%N] with ([g; BOX_H] ++ [32%N]).
    rewrite rstrip_by_drop by done.
    by apply (rstrip_by_last _ BOX_H [g]). }
  assert (Py.endswith [g; BOX_H] SLASH = false) as ->.
  { by apply (endswith_last_ne [g]). }
  assert (Py.rstrip_chars SLASH [g; BOX_H] = [g; BOX_H]) as ->.
  { apply (rstrip_chars_last _ BOX_H [g]). by intros ?%list_elem_of_singleton. }
  unfold Py.contains. rewrite bool_decide_eq_true_2
    by (apply list_elem_of_further, list_elem_of_here).
  change [g; BOX_H] with ([g] ++ BOX_H :: []).
  rewrite (split_once_app BOX_H [g] [])
    by (intros E%list_elem_of_singleton; congruence).
  unfold folderforge.prefix_depth, Py.count. cbn -[N.eqb].
  destruct (N.eqb_spec BOX_V g) as [<-|]; first done.
  cbn -[N.eqb]. by destruct (32 =? g)%N.
Qed.

Lemma joinpath_empty (p : path) : joinpath p [] = p.
Proof. unfold joinpath. simpl. by rewrite app_nil_r. Qed.

Lemma touch_directory (p : path) (c : str) (fs : FS) :
  Forall (λ c, c ≠ DOTDOT) p → c ≠ DOTDOT →
  dir_chain fs (p ++ [c]) → perform (Touch (p ++ [c])) fs = None.
Proof.
  intros Hp Hc Hchain. simpl. unfold parent_of. rewrite removelast_last.
  assert (dir_chain fs p) as Hchp.
  { intros k Hk. specialize (Hchain k). rewrite take_app_le in Hchain by lia.
    apply Hchain. rewrite length_app. simpl. lia. }
  rewrite mkdir_chain by done. simpl.
  unfold open_append. rewrite last_snoc, removelast_last.
  rewrite resolve_from_chain; [|done|by apply Hchp]. simpl.
  rewrite bool_decide_eq_false_2 by done.
  specialize (Hchain (length (p ++ [c]))). rewrite take_ge in Hchain by done.
  rewrite Hchain; first done. rewrite length_app. simpl. lia.
Qed.


(** ** Further facts on the materializers *)

Lemma plan_below (v : impl) (text : str) (dest : path) (strip : bool) :
  names_stay_below v text = true →
  Forall (λ a, below dest (target a)) (plan v text dest strip).
Proof.
  unfold names_stay_below. rewrite forallb_forall. intros H.
  destruct v; simpl.
  - apply folderforge_plan_below. intros l isd d n Hl%list_elem_of_In E.
    apply H in Hl. rewrite E in Hl. apply andb_prop in Hl as [H1 H2].
    split; first by apply negb_true_iff.
    rewrite forallb_forall in H2. apply Forall_forall.
    intros c Hc%list_elem_of_In. apply H2 in Hc.
    by apply negb_true_iff, bool_decide_eq_false in Hc.
  - apply start_plan_below. intros l r d n isd Hl%list_elem_of_In E.
    apply H in Hl. rewrite E in Hl.
    by apply negb_true_iff, bool_decide_eq_false in Hl.
Qed.


Lemma replicate_markers k u : is_marker u = true → Forall (λ u, is_marker u = true) (replicate k u).
Proof. intros Hu. apply Forall_forall. by intros x [-> _]%elem_of_replicate. Qed.

Lemma read_line_uniform k conn n (dir : bool) :
  is_connector conn = true → plain_name n = true →
  folderforge.read_line (entry_line (replicate k EXT_CONT) conn n dir)
  = Some (dir, k + k / 2, n)
  ∧ folderforge.read_line (entry_line (replicate k EXT_BLANK) conn n dir)
    = Some (dir, 3 * k / 4, n).
Proof.
  intros Hc Hn. destruct (connector_glyph conn Hc) as (g & E & Hg & _ & Hv).
  assert (g ≠ 32%N) as Hs by (by intros ->).
  rewrite !read_line_entry by (try done; by apply replicate_markers).
  rewrite E. cbn [take]. by rewrite prefix_depth_cont, prefix_depth_blank.
Qed.

Lemma parse_line_uniform k u conn n (dir : bool) :
  is_marker u = true → is_connector conn = true → plain_name n = true →
  start.parse_line (entry_line (replicate k u) conn n dir) = Some (false, k, n, dir).
Proof.
  intros Hu Hc Hn.
  destruct (plain_name_spec n Hn) as (Hne & Hs & Hnl & _ & He & _ & _).
  rewrite parse_line_entry by (try done; by apply replicate_markers).
  by rewrite strip_edges, length_replicate.
Qed.

Section listing_more.
Variable lower : str → str.
Variable fnmatch : str → str → bool.


Lemma write_tree_ext v root pats pats' md :
  (∀ p, p ∈ pats ↔ p ∈ pats') →
  tree_lines lower fnmatch v root pats md = tree_lines lower fnmatch v root pats' md.
Proof.
  intros H. unfold tree_lines. f_equal.
  destruct md as [m|]; [destruct (0 <? m)%Z; last done|]; by apply tree_ext.
Qed.

Lemma tree_lines_ann_nodup v root pats md :
  names_distinct root = true →
  NoDup (rel <$> (tree_lines_ann lower fnmatch v root pats md).*1).
Proof.
  intros Hok. unfold tree_lines_ann.
  pose proof (tree_ann_nodup lower fnmatch v pats md (height root) (MkPath [] root)
                [] 0%Z Hok) as H.
  destruct md as [m|]; last done.
  destruct (0 <? m)%Z; [done|constructor].
Qed.

End listing_more.

(** ** The language of [LINE_RE] *)

Lemma conns_no_sep c : c ∈ start.CONNS → 47%N ∉ c.
Proof.
  unfold start.CONNS. intros Hc.
  repeat (apply elem_of_cons in Hc as [->|Hc]; [by_compute|]).
  by apply elem_of_nil in Hc.
Qed.


(** ** The listing as a sequence of calls *)
Lemma app_eq_split {A} (a b l1 l2 : list A) (x : A) :
  a ++ b = l1 ++ x :: l2 →
  (∃ a2, a = l1 ++ x :: a2 ∧ l2 = a2 ++ b) ∨ (∃ b1, l1 = a ++ b1 ∧ b = b1 ++ x :: l2).
Proof.
  revert l1. induction a as [|y a IH]; intros l1 H.
  - right. by exists l1.
  - destruct l1 as [|z l1].
    + injection H as -> <-. left. by exists a.
    + injection H as -> H. destruct (IH _ H) as [(a2 & -> & ->)|(b1 & -> & ->)].
      * left. by exists a2.
      * right. by exists b1.
Qed.

Lemma ordered_nil d : ordered d [].
Proof. intros L1 x L2 H. by destruct L1. Qed.

Lemma ordered_app d A B : ordered d A → ordered d B → ordered d (A ++ B).
Proof.
  intros HA HB L1 x L2 [(a2 & -> & ->)|(b1 & -> & ->)]%app_eq_split.
  - by apply (HA L1 x a2).
  - destruct (HB b1 x L2 eq_refl) as (p & Hc & [->|[Hp Hd]]).
    + exists d. by split; [|left].
    + exists p. split; first done. right. split; last done.
      apply elem_of_app. by right.
Qed.

Lemma ordered_chunk d e L :
  child d e → (L ≠ [] → is_dir e = true) → ordered e L → ordered d (e :: L).
Proof.
  intros Hc Hdir HL L1 x L2 H. destruct L1 as [|y L1].
  - injection H as <- _. exists d. by split; [|left].
  - injection H as <- ->.
    destruct (HL L1 x L2 eq_refl) as (p & Hp & [->|[Hin Hd]]).
    + exists e. split; first done. right. split; first apply list_elem_of_here.
      apply Hdir. by destruct L1.
    + exists p. split; first done. right. split; last done.
      by apply list_elem_of_further.
Qed.

Lemma ordered_prefix d A B : ordered d (A ++ B) → ordered d A.
Proof.
  intros H L1 x L2 ->. apply (H L1 x (L2 ++ B)). by rewrite <- app_assoc.
Qed.

Section ordered_listing.
Variable lower : str → str.
Variable fnmatch : str → str → bool.

Lemma tree_ann_ordered v pats md fuel :
  ∀ d us depth,
    ordered d (_tree_ann lower fnmatch v pats md fuel d (concat us) depth).*1.
Proof.
  induction fuel as [|fuel IH]; intros d us depth; first apply ordered_nil.
  destruct (depth_exceeded md depth) eqn:Hd.
  { simpl. rewrite Hd. apply ordered_nil. }
  destruct (tree_ann_shape lower fnmatch v pats md fuel d us depth Hd)
    as (chunks & -> & HF).
  assert (Forall (λ e, child d e) (entries lower fnmatch pats d)) as Hch.
  { apply Forall_forall. intros e He. by eapply entries_child. }
  revert Hch.
  induction HF as [|e chunk es cs (conn & ext & _ & _ & ->) _ IHF]; intros Hch.
  { apply ordered_nil. }
  inversion_clear Hch as [|?? He Hes].
  change (mjoin (((e, entry_line us conn (name e) (is_dir e))
                  :: (if is_dir e
                      then _tree_ann lower fnmatch v pats md fuel e
                             (concat (us ++ [ext])) (depth + 1)
                      else [])) :: cs))
    with (((e, entry_line us conn (name e) (is_dir e))
            :: (if is_dir e
                then _tree_ann lower fnmatch v pats md fuel e
                       (concat (us ++ [ext])) (depth + 1)
                else [])) ++ mjoin cs).
  rewrite fmap_app, fmap_cons. apply ordered_app; last by apply IHF.
  cbn [fst]. apply ordered_chunk; first done.
  - cbn [fst]. destruct (is_dir e); first done. intros H. by exfalso.
  - destruct (is_dir e); [apply IH|apply ordered_nil].
Qed.

Lemma tree_ann_rel_plain v pats md fuel us depth d x l :
  tree_ok (node d) = true →
  (x, l) ∈ _tree_ann lower fnmatch v pats md fuel d (concat us) depth →
  ∃ q, rel x = rel d ++ q ∧ Forall (λ c, plain_name c = true) q.
Proof.
  intros Hok Hin. revert Hok.
  eapply (tree_ann_elem_ind lower fnmatch v pats md
    (λ us depth d x l, tree_ok (node d) = true →
       ∃ q, rel x = rel d ++ q ∧ Forall (λ c, plain_name c = true) q));
    last exact Hin.
  - clear. intros us depth d e conn He%(entries_child lower fnmatch pats) _ _ Hok.
    exists [name e]. split; first by apply child_rel.
    constructor; last done. by apply (tree_ok_child d e Hok).
  - clear. intros us depth d e ext x l He%(entries_child lower fnmatch pats) _ _ _ IH Hok.
    destruct (tree_ok_child d e Hok He) as [Hoke Hn].
    destruct (IH Hoke) as (q & Hq & Hp).
    exists (name e :: q). split; last by constructor.
    by rewrite Hq, (child_rel d e He), <- app_assoc.
Qed.

End ordered_listing.

Section exec_ordered.
Variable base : path.

Lemma exec_ordered (d0 : Path) (L : list Path) (fs : FS) :
  rel d0 = [] → ordered d0 L → NoDup (rel <$> L) →
  Forall (λ x, plain_name (name x) = true ∧ Forall (λ c, c ≠ DOTDOT) (rel x)) L →
  Forall (λ c, c ≠ DOTDOT) base → dir_chain fs base →
  (∀ r, r ≠ [] → fs !! (base ++ r) = None) →
  ∃ fs' : FS,
    exec (act base <$> L) fs = Some fs'
    ∧ (∀ x, x ∈ L → fs' !! (base ++ rel x) = Some (node_of (is_dir x)))
    ∧ (∀ r, r ≠ [] → r ∉ rel <$> L → fs' !! (base ++ r) = None)
    ∧ (∀ q, (∀ r, r ≠ [] → q ≠ base ++ r) → fs' !! q = fs !! q)
    ∧ (∀ x, x ∈ L → is_dir x = true → dir_chain fs' (base ++ rel x))
    ∧ fs ⊆ fs'.
Proof.
  intros Hd0 Hord Hnd Hnames Hbase Hchain Hempty.
  induction L as [|x L IH] using rev_ind.
  { exists fs. split; first done. split; first by intros x ?%elem_of_nil.
    split; first by intros r Hr _; apply Hempty.
    split; first done. split; last done. by intros x ?%elem_of_nil. }
  rewrite fmap_app in Hnd. apply NoDup_app in Hnd as (Hnd & Hdisj & _).
  apply Forall_app in Hnames as [HnL Hnx]. inversion_clear Hnx as [|?? [Hn Hdd] _].
  destruct (IH (ordered_prefix _ _ _ Hord) Hnd HnL)
    as (fs1 & Hex & Hin & Hout & Hframe & Hdirs & Hsub).
  destruct (Hord L x [] eq_refl) as (p & Hc & Hp).
  pose proof (child_rel p x Hc) as Hrel.
  assert (rel x ∉ rel <$> L) as Hfresh.
  { intros H. apply (Hdisj _ H). simpl. apply list_elem_of_here. }
  assert (dir_chain fs1 (base ++ rel p)) as Hcp.
  { destruct Hp as [->|[Hp Hdp]]; last by apply Hdirs.
    rewrite Hd0, app_nil_r. by eapply dir_chain_weaken. }
  assert (Forall (λ c, c ≠ DOTDOT) (base ++ rel p)) as Hbp.
  { apply Forall_app. split; first done.
    rewrite Hrel in Hdd. by apply Forall_app in Hdd as [? _]. }
  assert (fs1 !! (base ++ rel x) = None) as Hnew.
  { apply Hout; last done. rewrite Hrel. by destruct (rel p). }
  pose proof (perform_act_new base p x fs1 Hc Hn Hbp Hcp Hnew) as Hperf.
  assert (fs1 ⊆ <[base ++ rel x := node_of (is_dir x)]> fs1) as Hsub1
    by by apply insert_subseteq.
  assert (<[base ++ rel x := node_of (is_dir x)]> fs1 !! (base ++ rel x)
          = Some (node_of (is_dir x))) as Hlook by apply lookup_insert_eq.
  assert (∀ q, q ≠ base ++ rel x →
            <[base ++ rel x := node_of (is_dir x)]> fs1 !! q = fs1 !! q) as Hother.
  { intros q Hq. by apply lookup_insert_ne. }
  revert Hperf Hsub1 Hlook Hother.
  generalize (<[base ++ rel x := node_of (is_dir x)]> fs1).
  intros fs2 Hperf Hsub1 Hlook Hother.
  exists fs2.
  split; [|split; [|split; [|split; [|split]]]].
  - rewrite fmap_app, exec_app, Hex. simpl. by rewrite Hperf.
  - intros y [Hy| ->%list_elem_of_singleton]%elem_of_app.
    + rewrite Hother; first by apply Hin.
      intros E%app_inv_head. apply Hfresh. rewrite <- E.
      apply list_elem_of_fmap. by exists y.
    + exact Hlook.
  - intros r Hr Hnot. rewrite fmap_app, not_elem_of_app in Hnot.
    destruct Hnot as [HnotL Hnotx].
    rewrite Hother; first by apply Hout.
    intros E%app_inv_head. apply Hnotx. rewrite E. simpl. apply list_elem_of_here.
  - intros q Hq. rewrite Hother; first by apply Hframe.
    apply (Hq (rel x)). rewrite Hrel. by destruct (rel p).
  - intros y [Hy| ->%list_elem_of_singleton]%elem_of_app Hdy.
    + eapply dir_chain_weaken; first exact Hsub1. by apply Hdirs.
    + rewrite Hdy in Hlook. rewrite Hrel, app_assoc in Hlook |- *.
      apply dir_chain_snoc; last done. by eapply dir_chain_weaken.
  - by etrans.
Qed.

End exec_ordered.

Lemma tree_ok_names_distinct e : tree_ok e = true → names_distinct e = true.
Proof.
  revert e. fix IH 1. intros [n|n cs]; simpl; first done.
  intros [_ [Hnd Hcs]%andb_prop]%andb_prop. rewrite Hnd. simpl.
  induction cs as [|c cs IHcs]; first done. simpl in *.
  apply andb_prop in Hcs as [Hc Hcs]. rewrite IH by done. simpl.
  apply IHcs; last done.
  apply bool_decide_eq_true in Hnd. apply bool_decide_eq_true.
  by apply NoDup_cons in Hnd as [_ ?].
Qed.

Lemma plain_names_no_dotdot q :
  Forall (λ c, plain_name c = true) q → Forall (λ c, c ≠ DOTDOT) q.
Proof. intros H. eapply Forall_impl; first exact H. intros c. apply plain_name_not_dotdot. Qed.

(** ** Where entries are created *)




(** ** The claims *)


(** C1, as stated, fails: the listing format does not carry every name.  For
    a root holding a file named [" x"], both materializers strip the name read
    from the line and create the file ["x"], which the tree does not hold,
    and nothing at [" x"]. *)
Lemma C1_counterexample :
  kind_at (entry_children spaced_root) [Py.lit " x"] = Some false
  ∧ kind_at (entry_children spaced_root) [Py.lit "x"] = None
  ∧ (∃ fs' : FS,
       start.create_structure_from_file
         (write_tree Py.ascii_lower Py.fnmatch_literal FolderForge spaced_root [] None)
         out false out_fs = Some fs'
       ∧ fs' !! (out ++ [Py.lit "proj"; Py.lit " x"]) = None
       ∧ fs' !! (out ++ [Py.lit "proj"; Py.lit "x"]) = Some (FileNode []))
  ∧ (∃ fs' : FS,
       folderforge.create_structure_from_file
         (write_tree Py.ascii_lower Py.fnmatch_literal FolderForge spaced_root [] None)
         out false out_fs = Some fs'
       ∧ fs' !! (out ++ [Py.lit "proj"; Py.lit " x"]) = None
       ∧ fs' !! (out ++ [Py.lit "proj"; Py.lit "x"]) = Some (FileNode [])).
Proof.
  split; first reflexivity. split; first reflexivity. split.
  - exists (default ∅ (start.create_structure_from_file
      (write_tree Py.ascii_lower Py.fnmatch_literal FolderForge spaced_root [] None)
      out false out_fs)).
    repeat split; by_compute.
  - exists (default ∅ (folderforge.create_structure_from_file
      (write_tree Py.ascii_lower Py.fnmatch_literal FolderForge spaced_root [] None)
      out false out_fs)).
    repeat split; by_compute.
Qed.

(** C1 (amended).  Round trip from [folderforge.py] through [start.py]: for a
    tree of plain names (not empty, without separator or line boundary,
    without white space at either end) with distinct names in each directory,
    whose root name does not begin like a marker column or a connector,
    written with no ignore pattern and unlimited depth by [write_tree] of
    [folderforge.py], the materializer of [start.py] run on the text into a
    destination that holds nothing succeeds,
    and below the base directory (the destination with strip-root, the
    directory named after the root otherwise) the file system holds, at
    every relative path, exactly what the tree holds there: a directory for a
    directory, an empty file for a file, nothing where the tree has nothing.
    Without strip-root the base directory is created; nothing outside the
    base directory changes. *)
Theorem C1_round_trip (lower : str → str) (fnmatch : str → str → bool)
    (root : entry) (dest : path) (strip : bool) (fs : FS) :
  tree_ok root = true → plain_root (entry_name root) = true →
  Forall (λ c, c ≠ DOTDOT) dest → dir_chain fs dest →
  (∀ r, r ≠ [] → fs !! (dest ++ r) = None) →
  ∃ fs' : FS,
    start.create_structure_from_file
      (write_tree lower fnmatch FolderForge root [] None) dest strip fs = Some fs'
    ∧ (∀ r, r ≠ [] →
         fs' !! ((if strip then dest else dest ++ [entry_name root]) ++ r)
         = node_of <$> kind_at (entry_children root) r)
    ∧ (strip = false → fs' !! (dest ++ [entry_name root]) = Some DirNode)
    ∧ (∀ q, (∀ r, q ≠ (if strip then dest else dest ++ [entry_name root]) ++ r) →
         fs' !! q = fs !! q).
Proof.
  intros Hok Hroot Hdest Hchain Hempty.
  set (rn := entry_name root).
  assert (plain_name rn = true) as Hrn.
  { unfold rn. destruct root; simpl in *; by apply andb_prop in Hok as [? _]. }
  destruct (plain_name_spec rn Hrn) as (Hne & Hs & Hnl & Hnb & He & _ & Hdd).
  set (L := _tree_ann lower fnmatch FolderForge [] None (height root) (MkPath [] root)
              (concat []) 0).
  set (base := if strip then dest else dest ++ [rn]).
  (* the lines read back *)
  assert (Py.splitlines (write_tree lower fnmatch FolderForge root [] None)
          = (rn ++ SLASH) :: L.*2) as Hlines.
  { unfold write_tree. rewrite tree_lines_ann_lines. simpl app.
    apply splitlines_join. constructor.
    - split; first by destruct rn.
      apply Forall_app. split; first done. by repeat constructor.
    - apply Forall_forall. intros l ([x l'] & -> & Hin)%list_elem_of_fmap.
      by apply (tree_ann_lines_ok _ _ _ _ _ [] _ (MkPath [] root) _ _
                  (Forall_nil_2 _) Hok) in Hin. }
  (* the calls *)
  destruct (walk_listing lower fnmatch [] None dest strip base (height root)
              (MkPath [] root) [] 0%Z (if strip then [] else [dest ++ [rn]]) 1)
    as (st' & Hwalk & _); [done|done|simpl; lia|by rewrite app_nil_r|].
  fold L in Hwalk.
  assert (start.plan (write_tree lower fnmatch FolderForge root [] None) dest strip
          = (if strip then [] else [MkDir (dest ++ [rn])]) ++ (act base <$> L.*1))
    as Hplan.
  { unfold start.plan. rewrite Hlines. cbn zeta.
    assert (start.first_line_is_root ((rn ++ SLASH) :: L.*2) = true) as ->.
    { simpl. by rewrite (parse_line_root rn true). }
    cbn [walk_from]. unfold start.step at 1.
    rewrite (parse_line_root rn true) by done. cbn [andb].
    rewrite joinpath_plain by done.
    unfold base in Hwalk. destruct strip; simpl negb; cbv iota.
    - by rewrite Hwalk.
    - change ([] ++ [dest ++ [rn]]) with [dest ++ [rn]]. by rewrite Hwalk. }
  rewrite start_create_plan, Hplan.
  (* their effect *)
  assert (∃ fs1 : FS,
            exec (if strip then [] else [MkDir (dest ++ [rn])]) fs = Some fs1
            ∧ dir_chain fs1 base
            ∧ (∀ r, r ≠ [] → fs1 !! (base ++ r) = None)
            ∧ (strip = false → fs1 !! (dest ++ [rn]) = Some DirNode)
            ∧ (∀ q, (∀ r, q ≠ base ++ r) → fs1 !! q = fs !! q))
    as (fs1 & Hex1 & Hchain1 & Hempty1 & Hbase1 & Hout1).
  { unfold base. destruct strip.
    - exists fs. by repeat split.
    - exists (<[dest ++ [rn] := DirNode]> fs).
      assert (fs !! (dest ++ [rn]) = None) as Hnew by by apply Hempty.
      split; [|split; [|split; [|split]]].
      + simpl. by rewrite mkdir_new.
      + apply dir_chain_snoc; last apply lookup_insert_eq.
        eapply dir_chain_weaken; last exact Hchain. by apply insert_subseteq.
      + intros r Hr. rewrite lookup_insert_ne.
        * rewrite <- app_assoc. by apply Hempty.
        * destruct r; first done. apply app_cons_ne.
      + intros _. apply lookup_insert_eq.
      + intros q Hq. apply lookup_insert_ne.
        rewrite <- (app_nil_r (dest ++ [rn])). apply not_eq_sym, Hq. }
  destruct (exec_listing lower fnmatch FolderForge base (height root) (MkPath [] root)
              [] 0%Z fs1) as (fs' & Hex & Hin & Hout).
  { done. }
  { done. }
  { simpl. rewrite app_nil_r. unfold base. destruct strip; first done.
    apply Forall_app. split; first done. by constructor. }
  { simpl. by rewrite app_nil_r. }
  { done. }
  fold L in Hex. exists fs'. split; [|split; [|split]].
  - rewrite exec_app, Hex1. exact Hex.
  - intros r Hr. by apply Hin.
  - intros Hstrip. rewrite Hout; first by apply Hbase1.
    intros r Hr. simpl. unfold base. rewrite Hstrip.
    destruct r; first done. apply app_cons_ne.
  - intros q Hq. rewrite Hout; first by apply Hout1.
    intros r _. apply Hq.
Qed.

Lemma C1_witness :
  ∃ fs' : FS,
    start.create_structure_from_file
      (write_tree Py.ascii_lower Py.fnmatch_literal FolderForge proj [] None)
      out false out_fs = Some fs'
    ∧ (∀ r, r ≠ [] →
         fs' !! ((out ++ [entry_name proj]) ++ r)
         = node_of <$> kind_at (entry_children proj) r)
    ∧ (false = false → fs' !! (out ++ [entry_name proj]) = Some DirNode)
    ∧ (∀ q, (∀ r, q ≠ (out ++ [entry_name proj]) ++ r) → fs' !! q = out_fs !! q).
Proof.
  apply (C1_round_trip Py.ascii_lower Py.fnmatch_literal proj out
           false out_fs).
  - reflexivity.
  - reflexivity.
  - by repeat constructor.
  - intros k Hk. simpl in Hk. assert (k = 1) as -> by lia. reflexivity.
  - intros r Hr. apply lookup_singleton_ne. destruct r; first done.
    apply (app_cons_ne out).
Defined.

(** The round trip through [folderforge.py] fails on plain names as well: the
    file [f] of the last directory [a] is written behind a blank marker
    column, read at depth 0, and created beside [a]. *)
Lemma folderforge_misplaces_nested_file :
  write_tree Py.ascii_lower Py.fnmatch_literal FolderForge nested_root [] None
  = Py.join NEWLINE [Py.lit "proj/"; Py.lit "└─ a/"; Py.lit "   └─ f"]
  ∧ kind_at (entry_children nested_root) [Py.lit "a"; Py.lit "f"] = Some false
  ∧ ∃ fs' : FS,
      folderforge.create_structure_from_file
        (write_tree Py.ascii_lower Py.fnmatch_literal FolderForge nested_root [] None)
        out false out_fs = Some fs'
      ∧ fs' !! (out ++ [Py.lit "proj"; Py.lit "a"; Py.lit "f"]) = None
      ∧ fs' !! (out ++ [Py.lit "proj"; Py.lit "f"]) = Some (FileNode []).
Proof.
  split; first by vm_compute. split; first reflexivity.
  exists (default ∅ (folderforge.create_structure_from_file
    (write_tree Py.ascii_lower Py.fnmatch_literal FolderForge nested_root [] None)
    out false out_fs)).
  repeat split; by_compute.
Qed.


(** The listing [start.py] writes is not read back by [start.py]: the file of
    the scenario below [src] is written behind an indentation unit that holds
    a no-break space, which the line grammar takes for the beginning of a
    name. *)
Lemma start_listing_not_read_back :
  kind_at (entry_children proj) [Py.lit "src"; Py.lit "main.ext"] = Some false
  ∧ ∃ fs' : FS,
      start.create_structure_from_file
        (write_tree Py.ascii_lower Py.fnmatch_literal Start proj [] None)
        out false out_fs = Some fs'
      ∧ fs' !! (out ++ [Py.lit "proj"; Py.lit "src"; Py.lit "main.ext"]) = None.
Proof.
  split; first reflexivity.
  exists (default ∅ (start.create_structure_from_file
    (write_tree Py.ascii_lower Py.fnmatch_literal Start proj [] None)
    out false out_fs)).
  split; by_compute.
Qed.

(** C2 (strip-root scenario).  On the artifact of the scenario with strip-root
    and destination [out], [start.py] creates exactly [out/src],
    [out/src/main.ext] and [out/README.md]; [folderforge.py] creates these and
    the directory [out/proj] as well: its root line is materialized as an
    ordinary directory of depth 0. *)
Theorem C2_strip_root_scenario :
  folderforge.create_structure_from_file scenario out true out_fs
  = Some (<[ out ++ [Py.lit "proj"] := DirNode ]> scenario_fs)
  ∧ start.create_structure_from_file scenario out true out_fs = Some scenario_fs.
Proof. split; by_compute. Qed.

(** C3 (depth recovery).  On a line whose prefix is one blank marker column,
    [folderforge.py] computes depth 0 and [start.py] depth 1; on a prefix of
    two continuation columns [folderforge.py] computes depth 3. *)
Theorem C3_blank_column_depth :
  folderforge.read_line (Py.lit "   └─ f") = Some (false, 0, Py.lit "f")
  ∧ start.parse_line (Py.lit "   └─ f") = Some (false, 1, Py.lit "f", false)
  ∧ folderforge.read_line (Py.lit "│  │  └─ f") = Some (false, 3, Py.lit "f")
  ∧ start.parse_line (Py.lit "│  │  └─ f") = Some (false, 2, Py.lit "f", false).
Proof. repeat split; reflexivity. Qed.

(** C4 (depth cutoff).  With [max_depth = k >= 0] the listing starts with the
    root line, and every other line has a prefix of at most [k] indentation
    units followed by a connector (the number of units is the depth of the
    line, and for [folderforge.py] it is the number of marker columns the line
    starts with; the children of the root have none).  With [max_depth = 0]
    the listing is the root line alone.  With a negative [max_depth] the text
    written is empty. *)
Theorem C4_depth_cutoff (lower : str → str) (fnmatch : str → str → bool)
    (v : impl) (root : entry) (pats : list str) (k : Z) :
  ((0 ≤ k)%Z →
     ∃ rest, tree_lines lower fnmatch v root pats (Some k)
             = (entry_name root ++ SLASH) :: rest
       ∧ ∀ l, l ∈ rest →
           ∃ us conn tl, l = concat us ++ conn ++ tl
             ∧ Forall (λ u, is_column v u = true) us ∧ is_connector conn = true
             ∧ (v = FolderForge → marker_columns l = length us)
             ∧ (Z.of_nat (length us) ≤ k)%Z)
  ∧ tree_lines lower fnmatch v root pats (Some 0%Z) = [entry_name root ++ SLASH]
  ∧ ((k < 0)%Z → write_tree lower fnmatch v root pats (Some k) = []).
Proof.
  split; [|split].
  - intros Hk. rewrite tree_lines_ann_lines.
    rewrite (proj2 (Z.leb_le 0 k)) by done.
    eexists. split; first reflexivity.
    intros l Hl. apply list_elem_of_fmap in Hl as ([x l'] & -> & Hin).
    unfold tree_lines_ann in Hin.
    destruct (0 <? k)%Z; last by apply elem_of_nil in Hin.
    apply (tree_ann_depth lower fnmatch v pats k _ [] 0%Z) in Hin as
      (us & conn & -> & Hus & Hc & Hlen); [|done..].
    exists us, conn, (name x ++ (if is_dir x then SLASH else [])).
    repeat split; try done. intros ->. by apply marker_columns_entry_line.
  - done.
  - intros Hk. unfold write_tree, tree_lines.
    rewrite (proj2 (Z.leb_gt 0 k)) by done.
    by rewrite (proj2 (Z.ltb_ge 0 k)) by lia.
Qed.

Lemma C4_witness :
  (∃ rest, tree_lines Py.ascii_lower Py.fnmatch_literal FolderForge proj [] (Some 1%Z)
           = (entry_name proj ++ SLASH) :: rest
     ∧ ∀ l, l ∈ rest →
         ∃ us conn tl, l = concat us ++ conn ++ tl
           ∧ Forall (λ u, is_column FolderForge u = true) us
           ∧ is_connector conn = true
           ∧ (FolderForge = FolderForge → marker_columns l = length us)
           ∧ (Z.of_nat (length us) ≤ 1)%Z)
  ∧ write_tree Py.ascii_lower Py.fnmatch_literal FolderForge proj [] (Some (-1)%Z) = [].
Proof.
  destruct (C4_depth_cutoff Py.ascii_lower Py.fnmatch_literal FolderForge proj [] 1)
    as (H1 & _ & _).
  destruct (C4_depth_cutoff Py.ascii_lower Py.fnmatch_literal FolderForge proj [] (-1))
    as (_ & _ & H3).
  split; [apply H1; lia|apply H3; lia].
Defined.


(** C5, as stated, fails at [max_depth = 0]: the listing of [proj] is the root
    line alone, and [README.md], a child of the root that no pattern ignores,
    has no line. *)
Lemma C5_counterexample :
  tree_lines Py.ascii_lower Py.fnmatch_literal FolderForge proj [] (Some 0%Z)
  = [Py.lit "proj/"]
  ∧ File (Py.lit "README.md") ∈ entry_children proj
  ∧ ∀ conn, is_connector conn = true →
      entry_line [] conn (Py.lit "README.md") false
      ∉ tree_lines Py.ascii_lower Py.fnmatch_literal FolderForge proj [] (Some 0%Z).
Proof.
  split; first by vm_compute.
  split; first by left.
  intros conn Hc. unfold is_connector in Hc.
  apply orb_prop in Hc as [Hc|Hc]; apply bool_decide_eq_true in Hc; subst conn;
    vm_compute; by intros [=]%list_elem_of_singleton.
Qed.

(** C5 (amended).  With unlimited depth or [max_depth = k >= 1], every child
    of the root that is not an ignored directory has a line in the listing:
    a connector, its name, and the separator when it is a directory. *)
Theorem C5_children_listed (lower : str → str) (fnmatch : str → str → bool)
    (v : impl) (root : entry) (pats : list str) (md : option Z) (c : entry) :
  match md with Some k => (1 ≤ k)%Z | None => True end →
  c ∈ entry_children root →
  entry_is_dir c && should_ignore_dir fnmatch (MkPath [entry_name c] c) pats = false →
  ∃ conn, is_connector conn = true
    ∧ entry_line [] conn (entry_name c) (entry_is_dir c)
      ∈ tree_lines lower fnmatch v root pats md.
Proof.
  intros Hmd Hc Hig. rewrite tree_lines_ann_lines.
  destruct root as [n|n cs]; first by apply elem_of_nil in Hc.
  simpl in Hc.
  assert (tree_lines_ann lower fnmatch v (Dir n cs) pats md
          = _tree_ann lower fnmatch v pats md (height (Dir n cs))
              (MkPath [] (Dir n cs)) (concat []) 0) as ->.
  { unfold tree_lines_ann. destruct md as [k|]; last done.
    by rewrite (proj2 (Z.ltb_lt 0 k)) by lia. }
  destruct (tree_ann_head lower fnmatch v pats md
              (foldr (λ c h, height c `max` h) 0 cs) (MkPath [] (Dir n cs)) [] 0%Z
              (MkPath [entry_name c] c)) as (conn & Hconn & Hin).
  { destruct md as [k|]; last done. simpl. apply Z.ltb_ge. lia. }
  { apply entries_elem. split; last done.
    unfold iterdir. simpl. apply list_elem_of_fmap. by exists c. }
  exists conn. split; first done.
  apply elem_of_app. right. apply list_elem_of_fmap. eexists. split; last exact Hin.
  done.
Qed.

Lemma C5_witness :
  ∃ conn, is_connector conn = true
    ∧ entry_line [] conn (Py.lit "README.md") false
      ∈ tree_lines Py.ascii_lower Py.fnmatch_literal Start proj [] (Some 1%Z).
Proof.
  apply (C5_children_listed Py.ascii_lower Py.fnmatch_literal Start proj []
           (Some 1%Z) (File (Py.lit "README.md"))).
  - simpl. lia.
  - by left.
  - reflexivity.
Defined.

(** C6, as stated, fails on its own example: for a root with directories [B]
    and [a] and file [z.txt], both files of the repository write [a/] before
    [B/] (the names are compared lower-cased, and ["a" < "b"]). *)
Lemma C6_counterexample :
  tree_lines Py.ascii_lower Py.fnmatch_literal FolderForge ordering_root [] None
  = [Py.lit "root/"; Py.lit "├─ a/"; Py.lit "├─ B/"; Py.lit "└─ z.txt"]
  ∧ tree_lines Py.ascii_lower Py.fnmatch_literal Start ordering_root [] None
  = [Py.lit "root/"; Py.lit "├─ a/"; Py.lit "├─ B/"; Py.lit "└─ z.txt"].
Proof. split; by vm_compute. Qed.

(** C6 (amended).  In the [entries] of every directory [_tree] scans, no file
    comes before a directory, and two entries of the same kind are in the
    order of their lower-cased names; the lines of the entries are written in
    the order of [entries], each followed by what is written below it. *)
Theorem C6_children_order (lower : str → str) (fnmatch : str → str → bool)
    (v : impl) (pats : list str) (md : option Z) (fuel : nat) (d : Path)
    (us : list str) (depth : Z) :
  (∀ i j a b, i < j →
     entries lower fnmatch pats d !! i = Some a →
     entries lower fnmatch pats d !! j = Some b →
     (is_dir b = true → is_dir a = true)
     ∧ (is_dir a = is_dir b →
        Py.str_le (lower (name a)) (lower (name b)) = true))
  ∧ (depth_exceeded md depth = false →
     ∃ chunks,
       _tree lower fnmatch v pats md (S fuel) d (concat us) depth = mjoin chunks
       ∧ Forall2 (λ e chunk, ∃ conn rest, is_connector conn = true
            ∧ chunk = entry_line us conn (name e) (is_dir e) :: rest)
           (entries lower fnmatch pats d) chunks).
Proof.
  split.
  - intros i j a b Hij Ha Hb.
    pose proof (entries_sorted lower fnmatch pats d i j a b Hij Ha Hb) as H.
    unfold key_le, sort_key in H. simpl in H.
    destruct (is_dir a), (is_dir b); simpl in H; by split.
  - intros Hd.
    destruct (tree_ann_shape lower fnmatch v pats md fuel d us depth Hd)
      as (chunks & E & HF).
    exists ((λ c : list (Path * str), c.*2) <$> chunks). split.
    + by rewrite <- tree_ann_lines, E, fmap_mjoin.
    + apply Forall2_fmap_r. eapply Forall2_impl; first exact HF.
      intros e chunk (conn & ext & Hc & _ & ->). exists conn. eexists.
      split; first done. reflexivity.
Qed.

Lemma C6_witness :
  (is_dir (MkPath [Py.lit "B"] (Dir (Py.lit "B") [])) = true →
   is_dir (MkPath [Py.lit "a"] (Dir (Py.lit "a") [])) = true)
  ∧ (is_dir (MkPath [Py.lit "a"] (Dir (Py.lit "a") []))
     = is_dir (MkPath [Py.lit "B"] (Dir (Py.lit "B") [])) →
     Py.str_le (Py.ascii_lower (Py.lit "a")) (Py.ascii_lower (Py.lit "B")) = true).
Proof.
  apply (C6_children_order Py.ascii_lower Py.fnmatch_literal FolderForge [] None 0
           (MkPath [] ordering_root) [] 0%Z) with (i := 0) (j := 1).
  - lia.
  - reflexivity.
  - reflexivity.
Defined.


(** C7 (ignore filtering).  The listing is the root line followed by the
    labelled lines.  No labelled line belongs to a directory [d0] below the
    root that a pattern matches (by its bare name, or by its root-relative
    path against the pattern without trailing separators), nor to anything
    below [d0].  A file is never filtered: it is among the [entries] of its
    directory whatever the patterns are, and has a line whenever [_tree]
    scans that directory within the depth limit. *)
Theorem C7_ignore_filtering (lower : str → str) (fnmatch : str → str → bool)
    (v : impl) (root : entry) (pats : list str) (md : option Z) :
  tree_lines lower fnmatch v root pats md
  = match md with
    | Some m => if (0 <=? m)%Z then [entry_name root ++ SLASH] else []
    | None => [entry_name root ++ SLASH]
    end ++ (tree_lines_ann lower fnmatch v root pats md).*2
  ∧ (∀ (d0 x : Path) (p l : str),
       tc child (MkPath [] root) d0 → is_dir d0 = true →
       p ∈ pats →
       fnmatch (name d0) p = true
       ∨ fnmatch (as_posix (rel d0)) (Py.rstrip_chars SLASH p) = true →
       rtc child d0 x →
       (x, l) ∉ tree_lines_ann lower fnmatch v root pats md)
  ∧ (∀ (fuel : nat) (d f : Path) (us : list str) (depth : Z),
       depth_exceeded md depth = false → child d f → is_dir f = false →
       f ∈ entries lower fnmatch pats d
       ∧ ∃ conn, is_connector conn = true
           ∧ (f, entry_line us conn (name f) false)
             ∈ _tree_ann lower fnmatch v pats md (S fuel) d (concat us) depth).
Proof.
  split; [apply tree_lines_ann_lines|split].
  - intros d0 x p l Htc Hdir Hp Hm Hrtc Hin.
    assert (visible lower fnmatch pats (MkPath [] root) x) as Hv.
    { unfold tree_lines_ann in Hin. destruct md as [m|].
      - destruct (0 <? m)%Z; last by apply elem_of_nil in Hin.
        by apply (tree_ann_visible _ _ _ _ _ _ []) in Hin.
      - by apply (tree_ann_visible _ _ _ _ _ _ []) in Hin. }
    eapply (visible_not_ignored lower fnmatch pats _ _ Hv _ d0); try done.
    apply should_ignore_dir_spec. by exists p.
  - intros fuel d f us depth Hd Hc Hf.
    assert (f ∈ entries lower fnmatch pats d) as He.
    { apply entries_elem. split; first done. by rewrite Hf. }
    split; first done.
    destruct (tree_ann_head lower fnmatch v pats md fuel d us depth f Hd He)
      as (conn & Hconn & Hin).
    exists conn. split; first done. by rewrite Hf in Hin.
Qed.

Lemma C7_witness :
  (∀ l : str,
     (MkPath [Py.lit "build"; Py.lit "out.o"] (File (Py.lit "out.o")), l)
     ∉ tree_lines_ann Py.ascii_lower Py.fnmatch_literal FolderForge build_root
         [Py.lit "build/"] None)
  ∧ MkPath [Py.lit "build"] (File (Py.lit "build"))
    ∈ entries Py.ascii_lower Py.fnmatch_literal [Py.lit "build"] (MkPath [] build_root).
Proof.
  destruct (C7_ignore_filtering Py.ascii_lower Py.fnmatch_literal FolderForge
              build_root [Py.lit "build/"] None) as (_ & H2 & _).
  destruct (C7_ignore_filtering Py.ascii_lower Py.fnmatch_literal FolderForge
              build_root [Py.lit "build"] None) as (_ & _ & H3).
  split.
  - intros l.
    apply (H2 (MkPath [Py.lit "build"] (Dir (Py.lit "build") [File (Py.lit "out.o")]))
              _ (Py.lit "build/")).
    + apply tc_once. unfold child. vm_compute. by left.
    + reflexivity.
    + by left.
    + right. reflexivity.
    + apply rtc_once. unfold child. vm_compute. by left.
  - apply (H3 0 (MkPath [] build_root) _ [] 0%Z).
    + reflexivity.
    + unfold child. vm_compute. right. by left.
    + reflexivity.
Defined.

(** C8 (idempotent materialization).  When a run of either materializer
    succeeds, a second run on the same artifact against the resulting
    destination raises nothing and leaves the file system exactly as it is;
    and a run keeps every directory and every file that was there before it,
    files with their content. *)
Theorem C8_idempotent_materialization (v : impl) (text : str) (dest : path)
    (strip : bool) (fs fs1 : FS) :
  create_structure_from_file v text dest strip fs = Some fs1 →
  create_structure_from_file v text dest strip fs1 = Some fs1
  ∧ ∀ (p : path) (nd : fsnode), fs !! p = Some nd → fs1 !! p = Some nd.
Proof.
  rewrite !create_plan. intros H. apply exec_grows in H as [H1 H2].
  split; first by apply H2.
  intros p nd Hp. by eapply lookup_weaken.
Qed.

Lemma C8_witness :
  ∃ fs1 : FS,
    create_structure_from_file FolderForge scenario out false readme_fs = Some fs1
    ∧ create_structure_from_file FolderForge scenario out false fs1 = Some fs1
    ∧ fs1 !! (out ++ [Py.lit "proj"; Py.lit "README.md"])
      = Some (FileNode (Py.lit "notes")).
Proof.
  exists (default ∅
    (create_structure_from_file FolderForge scenario out false readme_fs)).
  assert (create_structure_from_file FolderForge scenario out false readme_fs
          = Some (default ∅
              (create_structure_from_file FolderForge scenario out false readme_fs)))
    as H by by_compute.
  split; first exact H.
  destruct (C8_idempotent_materialization _ _ _ _ _ _ H) as [H1 H2].
  split; first exact H1.
  apply H2. by_compute.
Defined.

(** C9, as stated, fails: the third line of the scenario with an ASCII bar in
    place of the continuation glyph is outside the grammar of the
    specification, and neither file skips it.  [folderforge.py] reads it as
    the file [main.ext] at depth 0 and creates it below the root directory;
    [start.py] reads the whole line as a name without prefix, takes it for a
    root line, creates a directory of that name and puts the lines that
    follow under it. *)
Lemma C9_counterexample :
  entry_grammar corrupted_line = false
  ∧ create_structure_from_file FolderForge corrupted out false out_fs
    ≠ create_structure_from_file FolderForge without_corrupted out false out_fs
  ∧ create_structure_from_file Start corrupted out false out_fs
    ≠ create_structure_from_file Start without_corrupted out false out_fs
  ∧ (∃ fs : FS,
       create_structure_from_file FolderForge corrupted out false out_fs = Some fs
       ∧ fs !! (out ++ [Py.lit "proj"; Py.lit "main.ext"]) = Some (FileNode []))
  ∧ (∃ fs : FS,
       create_structure_from_file Start corrupted out false out_fs = Some fs
       ∧ fs !! (out ++ [corrupted_line]) = Some DirNode
       ∧ fs !! (out ++ [corrupted_line; Py.lit "README.md"]) = Some (FileNode [])
       ∧ fs !! (out ++ [Py.lit "proj"; Py.lit "README.md"]) = None).
Proof.
  split; first reflexivity.
  split; first by_compute.
  split; first by_compute.
  split.
  - exists (default ∅ (create_structure_from_file FolderForge corrupted out false out_fs)).
    split; by_compute.
  - exists (default ∅ (create_structure_from_file Start corrupted out false out_fs)).
    repeat split; by_compute.
Qed.

(** C9 (amended).  A line other than the first that the loop reads nothing
    from (for [start.py] a line [parse_line] rejects: blank, or with a
    separator before its end and not a bare word; for [folderforge.py] a blank
    line) is skipped: the materializer makes exactly the calls, and returns
    exactly the result, of the artifact without that line. *)
Theorem C9_unreadable_line_skipped (v : impl) (text text' : str)
    (l1 l2 : list str) (bad : str) (dest : path) (strip : bool) (fs : FS) :
  Py.splitlines text = l1 ++ bad :: l2 →
  Py.splitlines text' = l1 ++ l2 →
  l1 ≠ [] →
  unreadable v bad →
  plan v text dest strip = plan v text' dest strip
  ∧ create_structure_from_file v text dest strip fs
    = create_structure_from_file v text' dest strip fs.
Proof.
  intros E E' Hne Hbad.
  assert (plan v text dest strip = plan v text' dest strip) as Hplan.
  { destruct v; simpl in *.
    - unfold folderforge.plan. rewrite E, E'. f_equal.
      apply walk_from_skip; first done.
      + intros i j raw b st Hi Hj. unfold folderforge.step.
        destruct i; first lia. by destruct j; first lia.
      + intros i b st. unfold folderforge.step. by rewrite Hbad.
    - unfold start.plan. rewrite E, E'. cbn zeta.
      assert (start.first_line_is_root (l1 ++ bad :: l2)
              = start.first_line_is_root (l1 ++ l2)) as -> by (by destruct l1).
      f_equal. apply walk_from_skip; first done.
      + done.
      + intros i b st. unfold start.step. by rewrite Hbad. }
  split; first done. by rewrite !create_plan, Hplan.
Qed.

Lemma C9_witness :
  plan Start (Py.join NEWLINE [Py.lit "proj/"; Py.lit "a/b"; Py.lit "├─ src/"]) out false
  = plan Start (Py.join NEWLINE [Py.lit "proj/"; Py.lit "├─ src/"]) out false
  ∧ create_structure_from_file Start
      (Py.join NEWLINE [Py.lit "proj/"; Py.lit "a/b"; Py.lit "├─ src/"]) out false out_fs
    = create_structure_from_file Start
        (Py.join NEWLINE [Py.lit "proj/"; Py.lit "├─ src/"]) out false out_fs.
Proof.
  apply (C9_unreadable_line_skipped Start _ _ [Py.lit "proj/"] [Py.lit "├─ src/"]
           (Py.lit "a/b")).
  - reflexivity.
  - reflexivity.
  - discriminate.
  - reflexivity.
Defined.

(** C10, as stated, fails: on an artifact whose first line has no final
    separator, [start.py] takes the line for the root line and creates the
    directory [out/proj] with the file [a] in it, while [folderforge.py],
    which asks for the separator on the root line, creates the two files
    [out/proj] and [out/a]. *)
Lemma C10_counterexample :
  create_structure_from_file FolderForge bare_root out false out_fs
  ≠ create_structure_from_file Start bare_root out false out_fs
  ∧ (∃ fs : FS,
       create_structure_from_file FolderForge bare_root out false out_fs = Some fs
       ∧ fs !! (out ++ [Py.lit "proj"]) = Some (FileNode [])
       ∧ fs !! (out ++ [Py.lit "a"]) = Some (FileNode []))
  ∧ (∃ fs : FS,
       create_structure_from_file Start bare_root out false out_fs = Some fs
       ∧ fs !! (out ++ [Py.lit "proj"]) = Some DirNode
       ∧ fs !! (out ++ [Py.lit "proj"; Py.lit "a"]) = Some (FileNode [])).
Proof.
  split; [|split].
  - by_compute.
  - exists (default ∅ (create_structure_from_file FolderForge bare_root out false out_fs)).
    repeat split; by_compute.
  - exists (default ∅ (create_structure_from_file Start bare_root out false out_fs)).
    repeat split; by_compute.
Qed.

(** C10 (amended).  Without strip-root, on an artifact that is a root line
    [name/] followed by lines of the listing format (marker columns, a
    connector, a plain name, an optional separator), the two materializers
    make the same file-system calls and return the same result, provided the
    depth [folderforge.py] counts on the prefix of every line is its number of
    marker columns. *)
Theorem C10_materializers_agree (text rn : str) (items : list item)
    (dest : path) (fs : FS) :
  Py.splitlines text = (rn ++ SLASH) :: (item_line <$> items) →
  root_ok rn = true →
  forallb item_ok items = true →
  plan FolderForge text dest false = plan Start text dest false
  ∧ create_structure_from_file FolderForge text dest false fs
    = create_structure_from_file Start text dest false fs.
Proof.
  intros E Hroot Hitems.
  unfold root_ok in Hroot. apply andb_prop in Hroot as [[Hn Hr]%andb_prop Hd].
  apply negb_true_iff, bool_decide_eq_false in Hd.
  destruct (plain_name_spec rn Hn) as (Hne & Hs & Hnl & _ & He & _ & _).
  assert (plan FolderForge text dest false = plan Start text dest false) as Hplan.
  { simpl. unfold folderforge.plan, start.plan. rewrite E. cbn zeta.
    assert (start.first_line_is_root ((rn ++ SLASH) :: (item_line <$> items)) = true)
      as ->.
    { simpl. by rewrite (parse_line_root rn true). }
    cbn [walk_from]. unfold folderforge.step at 1, start.step at 1.
    rewrite read_line_root, (parse_line_root rn true) by done.
    cbn [Nat.eqb negb andb].
    by rewrite (walks_agree_items dest true) by (done || lia). }
  split; first done. by rewrite !create_plan, Hplan.
Qed.

Lemma C10_witness :
  plan FolderForge scenario out false = plan Start scenario out false
  ∧ create_structure_from_file FolderForge scenario out false out_fs
    = create_structure_from_file Start scenario out false out_fs.
Proof.
  apply (C10_materializers_agree scenario (Py.lit "proj") scenario_items).
  - reflexivity.
  - reflexivity.
  - reflexivity.
Defined.

(** ** Further properties of the code *)

(** X1 (ignore patterns).  Without an ignore file [load_ignore_patterns]
    returns the patterns of the command line as they are.  With an ignore
    file it returns them first, followed, in the order of the file, by the
    lines of the file with the white space at both ends removed, leaving out
    the lines that are then empty or start with ["#"]; so no pattern read
    from the file is empty, starts with ["#"], or begins or ends with white
    space. *)
Theorem X1_load_ignore_patterns (ignore : list str) (text : str) :
  load_ignore_patterns ignore None = ignore
  ∧ ∃ ps,
      load_ignore_patterns ignore (Some text) = ignore ++ ps
      ∧ ps = List.filter (λ p, negb (bool_decide (p = []) || Py.startswith p HASH))
               (Py.strip <$> Py.splitlines text)
      ∧ (∀ p, p ∈ ps ↔ ∃ line, line ∈ Py.splitlines text ∧ p = Py.strip line
                          ∧ p ≠ [] ∧ Py.startswith p HASH = false)
      ∧ Forall (λ p, no_edge_space p = true) ps.
Proof.
  split; first done.
  destruct (load_ignore_patterns_file ignore text) as (ps & E & Hin & Hsp).
  exists ps. split; first done. split; last done.
  unfold load_ignore_patterns in E. rewrite load_ignore_patterns_fold in E.
  by apply app_inv_head in E.
Qed.

(** X2 (what is listed).  An entry has a line below the root line exactly
    when it is reached from the root through [entries] only (no directory on
    the way to it, nor the entry itself, is an ignored directory) and the
    depth limit admits it: with unlimited depth always, with [max_depth = k]
    when [k >= 1] and the entry lies at most [k + 1] levels below the root.
    So [max_depth = 1] lists the children and the grandchildren of the
    root. *)
Theorem X2_listed_entries (lower : str → str) (fnmatch : str → str → bool)
    (v : impl) (root : entry) (pats : list str) (md : option Z) (x : Path) :
  (∃ l, (x, l) ∈ tree_lines_ann lower fnmatch v root pats md)
  ↔ visible lower fnmatch pats (MkPath [] root) x
    ∧ match md with
      | None => True
      | Some k => (1 ≤ k)%Z ∧ (Z.of_nat (length (rel x)) ≤ k + 1)%Z
      end.
Proof.
  apply listed_iff.
Qed.

(** X3 (the line of an entry).  The line written for an entry that lies [n]
    levels below the root is [n - 1] indentation units of the file that
    writes it, one of the two connectors, the name of the entry, and a
    separator exactly when the entry is a directory. *)
Theorem X3_line_of_entry (lower : str → str) (fnmatch : str → str → bool)
    (v : impl) (root : entry) (pats : list str) (md : option Z) :
  Forall (λ xl : Path * str,
            ∃ us conn,
              length (rel xl.1) = S (length us)
              ∧ Forall (λ u, is_column v u = true) us ∧ is_connector conn = true
              ∧ xl.2 = entry_line us conn (name xl.1) (is_dir xl.1))
    (tree_lines_ann lower fnmatch v root pats md).
Proof.
  apply Forall_forall. intros [x l] Hin.
  by apply tree_lines_ann_shape in Hin.
Qed.

(** X4 (more patterns, fewer entries).  When every pattern of a list is in a
    second list, every entry listed under the second list is listed under
    the first: adding ignore patterns never brings an entry into the
    listing. *)
Theorem X4_more_patterns_fewer_entries (lower : str → str)
    (fnmatch : str → str → bool) (v : impl) (root : entry)
    (pats pats' : list str) (md : option Z) :
  pats ⊆ pats' →
  Forall (λ x, x ∈ (tree_lines_ann lower fnmatch v root pats md).*1)
    (tree_lines_ann lower fnmatch v root pats' md).*1.
Proof.
  intros Hsub. apply Forall_forall. intros x ([x' l] & -> & Hin)%list_elem_of_fmap.
  assert (∃ l, (x', l) ∈ tree_lines_ann lower fnmatch v root pats' md) as H
    by by exists l.
  apply listed_iff in H as [Hv Hd].
  destruct (proj2 (listed_iff lower fnmatch v root pats md x')) as [l' Hl'].
  { split; [by eapply visible_mono|done]. }
  apply list_elem_of_fmap. by exists (x', l').
Qed.

Lemma X4_witness :
  Forall (λ x, x ∈ (tree_lines_ann Py.ascii_lower Py.fnmatch_literal FolderForge
                      build_root [] None).*1)
    (tree_lines_ann Py.ascii_lower Py.fnmatch_literal FolderForge
       build_root [Py.lit "build"] None).*1.
Proof.
  apply (X4_more_patterns_fewer_entries Py.ascii_lower Py.fnmatch_literal FolderForge
           build_root [] [Py.lit "build"] None).
  intros p Hp. by apply elem_of_nil in Hp.
Defined.

(** X5 (patterns as a set).  Two lists that hold the same patterns give the
    same listing and the same text: neither the order of the patterns nor a
    repeated pattern matters. *)
Theorem X5_patterns_as_set (lower : str → str) (fnmatch : str → str → bool)
    (v : impl) (root : entry) (pats pats' : list str) (md : option Z) :
  (∀ p, p ∈ pats ↔ p ∈ pats') →
  tree_lines lower fnmatch v root pats md = tree_lines lower fnmatch v root pats' md
  ∧ write_tree lower fnmatch v root pats md = write_tree lower fnmatch v root pats' md.
Proof.
  intros H. unfold write_tree.
  by rewrite (write_tree_ext lower fnmatch v root pats pats').
Qed.

Lemma X5_witness :
  tree_lines Py.ascii_lower Py.fnmatch_literal Start build_root
    [Py.lit "build"; Py.lit "b"] None
  = tree_lines Py.ascii_lower Py.fnmatch_literal Start build_root
      [Py.lit "b"; Py.lit "build"; Py.lit "b"] None
  ∧ write_tree Py.ascii_lower Py.fnmatch_literal Start build_root
      [Py.lit "build"; Py.lit "b"] None
    = write_tree Py.ascii_lower Py.fnmatch_literal Start build_root
        [Py.lit "b"; Py.lit "build"; Py.lit "b"] None.
Proof.
  apply (X5_patterns_as_set Py.ascii_lower Py.fnmatch_literal Start build_root
           [Py.lit "build"; Py.lit "b"] [Py.lit "b"; Py.lit "build"; Py.lit "b"] None).
  intros p. rewrite !elem_of_cons. pose proof (elem_of_nil p). tauto.
Defined.

(** X6 (one line for a path).  When the names in every directory of the
    scanned tree are distinct, no two lines of the listing are written for
    the same relative path. *)
Theorem X6_one_line_per_path (lower : str → str) (fnmatch : str → str → bool)
    (v : impl) (root : entry) (pats : list str) (md : option Z) :
  names_distinct root = true →
  NoDup (rel <$> (tree_lines_ann lower fnmatch v root pats md).*1).
Proof.
  apply tree_lines_ann_nodup.
Qed.

Lemma X6_witness :
  NoDup (rel <$> (tree_lines_ann Py.ascii_lower Py.fnmatch_literal FolderForge
                    proj [] None).*1).
Proof.
  apply (X6_one_line_per_path Py.ascii_lower Py.fnmatch_literal FolderForge proj [] None).
  reflexivity.
Defined.

(** X7 (the two encoders).  [write_tree] of [start.py] and [write_tree] of
    [folderforge.py] write lines for the same entries in the same order, with
    the same connectors; line by line, the indentation units of
    [folderforge.py] are those of [start.py] with every no-break space
    replaced by a space. *)
Theorem X7_encoders_differ_by_spaces (lower : str → str)
    (fnmatch : str → str → bool) (root : entry) (pats : list str) (md : option Z) :
  Forall2 same_but_spaces
    (tree_lines_ann lower fnmatch Start root pats md)
    (tree_lines_ann lower fnmatch FolderForge root pats md).
Proof.
  unfold tree_lines_ann.
  pose proof (tree_ann_same_but_spaces lower fnmatch pats md (height root)
                (MkPath [] root) [] 0%Z (Forall_nil_2 _)) as H.
  destruct md as [m|]; last done.
  destruct (0 <? m)%Z; [done|constructor].
Qed.

(** X8 (the text and its lines).  When no name of the scanned tree holds a
    line boundary, [splitlines] on the text [write_tree] writes gives back
    the lines of the listing, for either file, any patterns and any depth
    limit. *)
Theorem X8_listing_splits_into_lines (lower : str → str)
    (fnmatch : str → str → bool) (v : impl) (root : entry) (pats : list str)
    (md : option Z) :
  all_names no_break root = true →
  Py.splitlines (write_tree lower fnmatch v root pats md)
  = tree_lines lower fnmatch v root pats md.
Proof.
  apply splitlines_write_tree.
Qed.

Lemma X8_witness :
  Py.splitlines (write_tree Py.ascii_lower Py.fnmatch_literal Start proj [] (Some 1%Z))
  = tree_lines Py.ascii_lower Py.fnmatch_literal Start proj [] (Some 1%Z).
Proof.
  apply (X8_listing_splits_into_lines Py.ascii_lower Py.fnmatch_literal Start proj []
           (Some 1%Z)).
  reflexivity.
Defined.

(** X9 (the line grammar of [start.py]).  On a string as [parse_line]
    passes it, that is, one that does not end with a line feed (before which
    [$] would match as well), [LINE_RE] matches exactly when the string is a
    non-empty name without separator, followed or not by one final separator.
    The groups of a match spell the string: the prefix is a sequence of
    marker columns, the connector is absent or one of the four connectors of
    the expression, the name is not empty and holds no separator, and the
    last group is empty or the separator. *)
Theorem X9_line_grammar (s : str) :
  last s ≠ Some 10%N →
  (is_Some (start.LINE_RE_match s) ↔ ∃ n sl, named s n sl)
  ∧ ∀ g, start.LINE_RE_match s = Some g →
      ∃ us t,
        start.g_prefix g = concat us ∧ Forall (λ u, is_marker u = true) us
        ∧ s = start.g_prefix g ++ default [] (start.g_conn g) ++ t
        ∧ named t (start.g_name g) (start.g_slash g)
        ∧ (∀ c, start.g_conn g = Some c → c ∈ start.CONNS).
Proof.
  intros _. split; last first.
  { intros g Hg. by apply (LINE_RE_inv_len _ _ _ (Nat.le_refl _)) in Hg. }
  split.
  - intros [g Hg].
    apply (LINE_RE_inv_len _ _ _ (Nat.le_refl _)) in Hg
      as (us & t & Hp & Hus & Hs & (Ht & Hne & Hn & Hsl) & Hc).
    exists (start.g_prefix g ++ default [] (start.g_conn g) ++ start.g_name g),
           (start.g_slash g).
    split; [by rewrite Hs, Ht, <- !app_assoc|].
    split; [|split; [|done]].
    + intros [_ [_ ?]%app_eq_nil]%app_eq_nil. done.
    + rewrite !not_elem_of_app. split; [|split; [|done]].
      * rewrite Hp. by apply (columns_no_sep FolderForge).
      * destruct (start.g_conn g) as [c|]; simpl; last apply not_elem_of_nil.
        by apply conns_no_sep, Hc.
  - intros (n & sl & H). apply LINE_RE_complete.
    rewrite (match_name_named s n sl H). by eexists.
Qed.

Lemma X9_witness :
  (is_Some (start.LINE_RE_match (Py.lit "│  ├─ src/"))
   ↔ ∃ n sl, named (Py.lit "│  ├─ src/") n sl)
  ∧ ∀ g, start.LINE_RE_match (Py.lit "│  ├─ src/") = Some g →
      ∃ us t,
        start.g_prefix g = concat us ∧ Forall (λ u, is_marker u = true) us
        ∧ Py.lit "│  ├─ src/" = start.g_prefix g ++ default [] (start.g_conn g) ++ t
        ∧ named t (start.g_name g) (start.g_slash g)
        ∧ (∀ c, start.g_conn g = Some c → c ∈ start.CONNS).
Proof.
  apply (X9_line_grammar (Py.lit "│  ├─ src/")).
  vm_compute. discriminate.
Defined.


(** X11 (where the materializers write).  When no name read from the lines
    of the artifact is [".."] (and, for [folderforge.py], whose names can
    hold separators, none starts with a separator or has a component
    [".."]), a run that succeeds changes the file system only at the
    destination, below it, and at the directories on the way to it: every
    other path holds after the run what it held before. *)
Theorem X11_materializer_confined (v : impl) (text : str) (dest : path)
    (strip : bool) (fs fs' : FS) :
  names_stay_below v text = true →
  Forall (λ c, c ≠ DOTDOT) dest →
  create_structure_from_file v text dest strip fs = Some fs' →
  ∀ q, ¬ dest `prefix_of` q → ¬ q `prefix_of` dest → fs' !! q = fs !! q.
Proof.
  intros Hn Hd. rewrite create_plan. intros Hex q.
  apply (exec_frame dest (plan v text dest strip)); try done.
  by apply plan_below.
Qed.

Lemma X11_witness :
  create_structure_from_file Start scenario out true out_fs = Some scenario_fs
  ∧ ∀ q, ¬ out `prefix_of` q → ¬ q `prefix_of` out → scenario_fs !! q = out_fs !! q.
Proof.
  assert (create_structure_from_file Start scenario out true out_fs = Some scenario_fs)
    as H by by_compute.
  split; first exact H.
  apply (X11_materializer_confined Start scenario out true out_fs scenario_fs).
  - reflexivity.
  - by repeat constructor.
  - exact H.
Defined.

(** X12 (the depth [folderforge.py] counts).  On a line of the listing whose
    prefix is [k] continuation columns, [folderforge.py] reads the name and
    the kind of the entry and the depth [k + k / 2]; on a prefix of [k] blank
    columns it reads the depth [3 * k / 4].  So it finds the depth [k] of the
    line only for [k <= 1] continuation columns and for no blank column at
    all.  [start.py] reads the depth [k] on both. *)
Theorem X12_folderforge_depth_of_uniform_prefix (k : nat) (conn n : str)
    (dir : bool) :
  is_connector conn = true → plain_name n = true →
  folderforge.read_line (entry_line (replicate k EXT_CONT) conn n dir)
  = Some (dir, k + k / 2, n)
  ∧ folderforge.read_line (entry_line (replicate k EXT_BLANK) conn n dir)
    = Some (dir, 3 * k / 4, n)
  ∧ start.parse_line (entry_line (replicate k EXT_CONT) conn n dir)
    = Some (false, k, n, dir)
  ∧ start.parse_line (entry_line (replicate k EXT_BLANK) conn n dir)
    = Some (false, k, n, dir).
Proof.
  intros Hc Hn. destruct (read_line_uniform k conn n dir Hc Hn) as [H1 H2].
  split; [done|]. split; [done|].
  split; by apply parse_line_uniform.
Qed.

Lemma X12_witness :
  folderforge.read_line (entry_line (replicate 2 EXT_CONT) CONN_LAST (Py.lit "f") false)
  = Some (false, 2 + 2 / 2, Py.lit "f")
  ∧ folderforge.read_line (entry_line (replicate 2 EXT_BLANK) CONN_LAST (Py.lit "f") false)
    = Some (false, 3 * 2 / 4, Py.lit "f")
  ∧ start.parse_line (entry_line (replicate 2 EXT_CONT) CONN_LAST (Py.lit "f") false)
    = Some (false, 2, Py.lit "f", false)
  ∧ start.parse_line (entry_line (replicate 2 EXT_BLANK) CONN_LAST (Py.lit "f") false)
    = Some (false, 2, Py.lit "f", false).
Proof.
  apply (X12_folderforge_depth_of_uniform_prefix 2 CONN_LAST (Py.lit "f") false).
  - reflexivity.
  - reflexivity.
Defined.

(** X13 (the calls of [start.py] on a listing).  On the text [write_tree] of
    [folderforge.py] writes for a tree of plain names with distinct names in
    each directory, with any ignore patterns and any depth limit that is not
    negative, [start.py] makes one call for each line below the root line, in
    the order of the lines: [mkdir] for a directory and the creation of an
    empty file for a file, at the relative path of the entry below the base
    directory; before them it creates the base directory, unless strip-root
    is set. *)
Theorem X13_start_plan_of_listing (lower : str → str) (fnmatch : str → str → bool)
    (root : entry) (pats : list str) (md : option Z) (dest : path) (strip : bool) :
  tree_ok root = true → plain_root (entry_name root) = true →
  match md with Some k => (0 ≤ k)%Z | None => True end →
  start.plan (write_tree lower fnmatch FolderForge root pats md) dest strip
  = (if strip then [] else [MkDir (dest ++ [entry_name root])])
    ++ (act (if strip then dest else dest ++ [entry_name root])
          <$> (tree_lines_ann lower fnmatch FolderForge root pats md).*1).
Proof.
  apply start_plan_listing.
Qed.

Lemma X13_witness :
  start.plan (write_tree Py.ascii_lower Py.fnmatch_literal FolderForge proj
                [Py.lit "src"] (Some 1%Z)) out false
  = [MkDir (out ++ [entry_name proj])]
    ++ (act (out ++ [entry_name proj])
          <$> (tree_lines_ann Py.ascii_lower Py.fnmatch_literal FolderForge proj
                 [Py.lit "src"] (Some 1%Z)).*1).
Proof.
  apply (X13_start_plan_of_listing Py.ascii_lower Py.fnmatch_literal proj
           [Py.lit "src"] (Some 1%Z) out false).
  - reflexivity.
  - reflexivity.
  - simpl. lia.
Defined.

(** X14 (reading the listing of [folderforge.py]).  From every line that
    [write_tree] of [folderforge.py] writes below the root line for a tree of
    plain names with distinct names in each directory, [parse_line] of
    [start.py] reads the depth, the name and the kind of the entry, never a
    root line; the loop of [folderforge.py] reads the name and the kind (and
    some depth). *)
Theorem X14_folderforge_listing_parsed (lower : str → str)
    (fnmatch : str → str → bool) (root : entry) (pats : list str) (md : option Z) :
  tree_ok root = true →
  Forall (λ xl : Path * str,
            start.parse_line xl.2
            = Some (false, length (rel xl.1) - 1, name xl.1, is_dir xl.1)
            ∧ ∃ d, folderforge.read_line xl.2 = Some (is_dir xl.1, d, name xl.1))
    (tree_lines_ann lower fnmatch FolderForge root pats md).
Proof.
  intros Hok. apply Forall_forall. intros [x l] Hin.
  by apply (folderforge_listing_parsed lower fnmatch root pats md).
Qed.

Lemma X14_witness :
  Forall (λ xl : Path * str,
            start.parse_line xl.2
            = Some (false, length (rel xl.1) - 1, name xl.1, is_dir xl.1)
            ∧ ∃ d, folderforge.read_line xl.2 = Some (is_dir xl.1, d, name xl.1))
    (tree_lines_ann Py.ascii_lower Py.fnmatch_literal FolderForge proj [] None).
Proof.
  apply (X14_folderforge_listing_parsed Py.ascii_lower Py.fnmatch_literal proj [] None).
  reflexivity.
Defined.

(** X15 (reading the listing of [start.py]).  From every line that
    [write_tree] of [start.py] writes for an entry two levels or more below
    the root, in a tree of plain names with distinct names in each directory,
    [parse_line] of [start.py] reads a root line of depth 0: the indentation
    holds a no-break space, the line grammar finds neither marker column nor
    connector, and the whole line is taken for a name. *)
Theorem X15_start_listing_misread (lower : str → str) (fnmatch : str → str → bool)
    (root : entry) (pats : list str) (md : option Z) :
  tree_ok root = true →
  Forall (λ xl : Path * str,
            2 ≤ length (rel xl.1) →
            ∃ nm, start.parse_line xl.2 = Some (true, 0, nm, is_dir xl.1))
    (tree_lines_ann lower fnmatch Start root pats md).
Proof.
  intros Hok. apply Forall_forall. intros [x l] Hin Hlen.
  by apply (start_listing_misread lower fnmatch root pats md).
Qed.

Lemma X15_witness :
  Forall (λ xl : Path * str,
            2 ≤ length (rel xl.1) →
            ∃ nm, start.parse_line xl.2 = Some (true, 0, nm, is_dir xl.1))
    (tree_lines_ann Py.ascii_lower Py.fnmatch_literal Start proj [] None).
Proof.
  apply (X15_start_listing_misread Py.ascii_lower Py.fnmatch_literal proj [] None).
  reflexivity.
Defined.

(** X16 (a line without name).  On an artifact whose first line is a root
    line and whose second line is a connector followed by spaces only, both
    materializers, run without strip-root, raise: the name read from the
    second line is empty, the file to create is the root directory itself,
    and opening a directory fails. *)
Theorem X16_blank_name_raises (v : impl) (text rn conn : str) (k : nat)
    (rest : list str) (dest : path) (fs : FS) :
  Py.splitlines text = (rn ++ SLASH) :: (conn ++ replicate (S k) 32%N) :: rest →
  root_ok rn = true → is_connector conn = true →
  Forall (λ c, c ≠ DOTDOT) dest →
  create_structure_from_file v text dest false fs = None.
Proof.
  intros Hlines [[Hrn Hroot]%andb_prop Hdash]%andb_prop Hc Hdest.
  destruct (plain_name_spec rn Hrn) as (Hne & Hs & Hnl & Hnb & He & _ & Hdd).
  apply negb_true_iff, bool_decide_eq_false in Hdash.
  assert (∃ tl, plan v text dest false
                = MkDir (dest ++ [rn]) :: Touch (dest ++ [rn]) :: tl) as [tl Hplan].
  { destruct v; simpl.
    - unfold folderforge.plan. rewrite Hlines. cbn [walk_from].
      unfold folderforge.step at 1. rewrite read_line_root by done.
      cbn [Nat.eqb negb andb]. rewrite joinpath_plain by done.
      unfold folderforge.step at 1. rewrite read_line_blank_name by done.
      cbn [Nat.eqb andb]. unfold place. cbn [length app Nat.ltb Nat.leb take Nat.eqb].
      rewrite joinpath_empty.
      destruct (walk_from _ _ _ _ _) as [[b st] acts]. by eexists.
    - unfold start.plan. rewrite Hlines. cbn zeta.
      assert (start.first_line_is_root
                ((rn ++ SLASH) :: (conn ++ replicate (S k) 32%N) :: rest) = true) as ->.
      { simpl. by rewrite (parse_line_root rn true). }
      cbn [walk_from]. unfold start.step at 1.
      rewrite (parse_line_root rn true) by done.
      cbn [negb andb]. rewrite joinpath_plain by done.
      unfold start.step at 1. rewrite parse_line_blank_name by done.
      cbn [andb]. unfold place. cbn [length app Nat.ltb Nat.leb take Nat.eqb].
      rewrite joinpath_empty.
      destruct (walk_from _ _ _ _ _) as [[b st] acts]. by eexists. }
  rewrite create_plan, Hplan. cbn [exec perform].
  destruct (mkdir (dest ++ [rn]) fs) as [fs1|] eqn:Em; last done.
  cbn [mbind option_bind].
  assert (Forall (λ c, c ≠ DOTDOT) (dest ++ [rn])) as Hbase.
  { apply Forall_app. split; first done. by constructor. }
  pose proof (mkdir_made _ _ _ Hbase Em) as Hchain.
  pose proof (touch_directory dest rn fs1 Hdest Hdd Hchain) as Ht.
  simpl in Ht. by rewrite Ht.
Qed.

Lemma X16_witness :
  create_structure_from_file Start blank_name_text out false out_fs = None.
Proof.
  apply (X16_blank_name_raises Start blank_name_text (Py.lit "proj") CONN_MID 0 []
           out out_fs).
  - reflexivity.
  - reflexivity.
  - reflexivity.
  - by repeat constructor.
Defined.

(** X17 (the create command of [start.py]).  [main] of [start.py] tests the
    command ["export"] in both of its branches: called with the command
    ["create"] it leaves the file system as it is, whatever the other
    arguments are, where [main] of [folderforge.py] runs its create
    branch. *)
Theorem X17_start_create_unreachable (lower : str → str)
    (fnmatch : str → str → bool) (args : cli.args) (fs : FS) :
  cli.command args = cli.CREATE →
  main lower fnmatch Start args fs = Some fs
  ∧ main lower fnmatch FolderForge args fs = main_create args fs.
Proof.
  intros Hc. unfold main. rewrite Hc.
  by rewrite bool_decide_eq_false_2, bool_decide_eq_true_2.
Qed.

Lemma X17_witness :
  main Py.ascii_lower Py.fnmatch_literal Start create_args out_fs = Some out_fs
  ∧ main Py.ascii_lower Py.fnmatch_literal FolderForge create_args out_fs
    = main_create create_args out_fs.
Proof.
  apply (X17_start_create_unreachable Py.ascii_lower Py.fnmatch_literal create_args
           out_fs).
  reflexivity.
Defined.

(** X18 (the create command of [folderforge.py]).  When [main] of
    [folderforge.py], called with the command ["create"] on an artifact file
    that exists, succeeds, the destination and every directory on the way to
    it are directories afterwards, everything the file system held before is
    kept, and a second call with the same arguments changes nothing. *)
Theorem X18_folderforge_create (lower : str → str) (fnmatch : str → str → bool)
    (args : cli.args) (text : str) (fs fs' : FS) :
  cli.command args = cli.CREATE → cli.file args = Some text →
  Forall (λ c, c ≠ DOTDOT) (cli.dir args) →
  main lower fnmatch FolderForge args fs = Some fs' →
  dir_chain fs' (cli.dir args)
  ∧ fs ⊆ fs'
  ∧ main lower fnmatch FolderForge args fs' = Some fs'.
Proof.
  intros Hc Hf Hd. unfold main, main_create. rewrite Hc, Hf.
  rewrite bool_decide_eq_false_2 by done.
  rewrite bool_decide_eq_true_2 by done.
  destruct (mkdir (cli.dir args) fs) as [fs1|] eqn:Em; last done. simpl.
  rewrite !folderforge_create_plan. intros Hex.
  pose proof (mkdir_made _ _ _ Hd Em) as Hchain.
  destruct (mkdir_from_grows _ _ _ _ Em) as [Hsub1 _].
  destruct (exec_grows _ _ _ Hex) as [Hsub2 _].
  assert (dir_chain fs' (cli.dir args)) as Hchain'
    by by eapply dir_chain_weaken.
  split; [done|]. split; [by etrans|].
  rewrite mkdir_chain by done. simpl. rewrite folderforge_create_plan.
  by eapply exec_again.
Qed.

Lemma X18_witness :
  dir_chain created_fs out
  ∧ (∅ : FS) ⊆ created_fs
  ∧ main Py.ascii_lower Py.fnmatch_literal FolderForge create_args created_fs
    = Some created_fs.
Proof.
  apply (X18_folderforge_create Py.ascii_lower Py.fnmatch_literal create_args
           scenario ∅ created_fs).
  - reflexivity.
  - reflexivity.
  - by repeat constructor.
  - by_compute.
Defined.

(** X19 (round trip with patterns and depth).  For a tree of plain names
    with distinct names in each directory, whose root name does not begin
    like a marker column or a connector, written by [write_tree] of
    [folderforge.py] with any ignore patterns and any depth limit that is not
    negative, the materializer of [start.py] run on the text into a
    destination that holds nothing succeeds; below the base directory the
    file system then holds exactly the entries that have a line in the
    listing, each at its relative path, a directory for a directory and an
    empty file for a file, and nothing at any other path; without strip-root
    the base directory is created, and nothing outside the base directory
    changes. *)
Theorem X19_round_trip_of_listing (lower : str → str) (fnmatch : str → str → bool)
    (root : entry) (pats : list str) (md : option Z) (dest : path) (strip : bool)
    (fs : FS) :
  tree_ok root = true → plain_root (entry_name root) = true →
  match md with Some k => (0 ≤ k)%Z | None => True end →
  Forall (λ c, c ≠ DOTDOT) dest → dir_chain fs dest →
  (∀ r, r ≠ [] → fs !! (dest ++ r) = None) →
  ∃ fs' : FS,
    start.create_structure_from_file
      (write_tree lower fnmatch FolderForge root pats md) dest strip fs = Some fs'
    ∧ (∀ x l, (x, l) ∈ tree_lines_ann lower fnmatch FolderForge root pats md →
         fs' !! ((if strip then dest else dest ++ [entry_name root]) ++ rel x)
         = Some (node_of (is_dir x)))
    ∧ (∀ r, r ≠ [] →
         (∀ x l, (x, l) ∈ tree_lines_ann lower fnmatch FolderForge root pats md →
            rel x ≠ r) →
         fs' !! ((if strip then dest else dest ++ [entry_name root]) ++ r) = None)
    ∧ (strip = false → fs' !! (dest ++ [entry_name root]) = Some DirNode)
    ∧ (∀ q, (∀ r, q ≠ (if strip then dest else dest ++ [entry_name root]) ++ r) →
         fs' !! q = fs !! q).
Proof.
  intros Hok Hroot Hmd Hdest Hchain Hempty.
  set (rn := entry_name root).
  assert (plain_name rn = true) as Hrn.
  { unfold rn. destruct root; simpl in *; by apply andb_prop in Hok as [? _]. }
  pose proof (plain_name_not_dotdot rn Hrn) as Hdd.
  set (base := if strip then dest else dest ++ [rn]).
  set (A := tree_lines_ann lower fnmatch FolderForge root pats md).
  rewrite start_create_plan, start_plan_listing by done. fold rn base A.
  (* the base directory *)
  assert (∃ fs1 : FS,
            exec (if strip then [] else [MkDir (dest ++ [rn])]) fs = Some fs1
            ∧ dir_chain fs1 base
            ∧ (∀ r, r ≠ [] → fs1 !! (base ++ r) = None)
            ∧ (strip = false → fs1 !! (dest ++ [rn]) = Some DirNode)
            ∧ (∀ q, (∀ r, q ≠ base ++ r) → fs1 !! q = fs !! q))
    as (fs1 & Hex1 & Hchain1 & Hempty1 & Hbase1 & Hout1).
  { unfold base. destruct strip.
    - exists fs. by repeat split.
    - exists (<[dest ++ [rn] := DirNode]> fs).
      assert (fs !! (dest ++ [rn]) = None) as Hnew by by apply Hempty.
      split; [|split; [|split; [|split]]].
      + simpl. by rewrite mkdir_new.
      + apply dir_chain_snoc; last apply lookup_insert_eq.
        eapply dir_chain_weaken; last exact Hchain. by apply insert_subseteq.
      + intros r Hr. rewrite lookup_insert_ne.
        * rewrite <- app_assoc. by apply Hempty.
        * destruct r; first done. apply app_cons_ne.
      + intros _. apply lookup_insert_eq.
      + intros q Hq. apply lookup_insert_ne.
        rewrite <- (app_nil_r (dest ++ [rn])). apply not_eq_sym, Hq. }
  (* the entries of the listing *)
  assert (∀ x l, (x, l) ∈ A →
            (x, l) ∈ _tree_ann lower fnmatch FolderForge pats md (height root)
                       (MkPath [] root) (concat []) 0) as HA.
  { intros x l. apply tree_lines_ann_elem. }
  assert (ordered (MkPath [] root) A.*1) as Hord.
  { unfold A, tree_lines_ann.
    pose proof (tree_ann_ordered lower fnmatch FolderForge pats md (height root)
                  (MkPath [] root) [] 0%Z) as H.
    destruct md as [k|]; last done.
    destruct (0 <? k)%Z; [done|apply ordered_nil]. }
  assert (Forall (λ x, plain_name (name x) = true
                       ∧ Forall (λ c, c ≠ DOTDOT) (rel x)) A.*1) as Hnames.
  { apply Forall_forall. intros x ([x' l] & -> & Hin%HA)%list_elem_of_fmap. split.
    - by apply (tree_ann_plain_name _ _ _ _ _ _ [] _ (MkPath [] root) _ _ Hok) in Hin.
    - apply (tree_ann_rel_plain _ _ _ _ _ _ [] _ (MkPath [] root) _ _ Hok) in Hin
        as (q & E & Hq).
      cbn [fst]. rewrite E. simpl. by apply plain_names_no_dotdot. }
  destruct (exec_ordered base (MkPath [] root) A.*1 fs1)
    as (fs' & Hex & Hin & Hnot & Hframe & _ & _); try done.
  { apply tree_lines_ann_nodup. by apply tree_ok_names_distinct. }
  { unfold base. destruct strip; first done.
    apply Forall_app. split; first done. by constructor. }
  exists fs'. split; [|split; [|split; [|split]]].
  - rewrite exec_app, Hex1. exact Hex.
  - intros x l Hx. apply Hin. apply list_elem_of_fmap. by exists (x, l).
  - intros r Hr Hno. apply Hnot; first done.
    intros (x & -> & ([x' l] & -> & Hx)%list_elem_of_fmap)%list_elem_of_fmap.
    by apply (Hno x' l).
  - intros Hstrip. rewrite Hframe; first by apply Hbase1.
    intros r Hr. unfold base. rewrite Hstrip.
    destruct r; first done. apply app_cons_ne.
  - intros q Hq. rewrite Hframe; first by apply Hout1.
    intros r _. apply Hq.
Qed.

Lemma X19_witness :
  ∃ fs' : FS,
    start.create_structure_from_file
      (write_tree Py.ascii_lower Py.fnmatch_literal FolderForge proj
         [Py.lit "src"] (Some 1%Z)) out true out_fs = Some fs'
    ∧ (∀ x l, (x, l) ∈ tree_lines_ann Py.ascii_lower Py.fnmatch_literal FolderForge
                         proj [Py.lit "src"] (Some 1%Z) →
         fs' !! (out ++ rel x) = Some (node_of (is_dir x)))
    ∧ (∀ r, r ≠ [] →
         (∀ x l, (x, l) ∈ tree_lines_ann Py.ascii_lower Py.fnmatch_literal FolderForge
                            proj [Py.lit "src"] (Some 1%Z) →
            rel x ≠ r) →
         fs' !! (out ++ r) = None)
    ∧ (true = false → fs' !! (out ++ [entry_name proj]) = Some DirNode)
    ∧ (∀ q, (∀ r, q ≠ out ++ r) → fs' !! q = out_fs !! q).
Proof.
  apply (X19_round_trip_of_listing Py.ascii_lower Py.fnmatch_literal proj
           [Py.lit "src"] (Some 1%Z) out true out_fs).
  - reflexivity.
  - reflexivity.
  - simpl. lia.
  - by repeat constructor.
  - intros k Hk. simpl in Hk. assert (k = 1) as -> by lia. reflexivity.
  - intros r Hr. apply lookup_singleton_ne. destruct r; first done.
    apply (app_cons_ne out).
Defined.


